(** * curlpit installer: release planning, verification, extraction, install

    A shallow embedding of the TypeScript installer pipeline
    (packages/scripts, packages/npm, and the standalone install scripts)
    together with the properties its specification states about it.

    Conventions.
    - A JavaScript string is a [string]; only ASCII case mapping is modelled
      by [toLowerCase].  No non-ASCII character lower-cases to a letter that
      occurs in an alias key, so this does not change any lookup result.
    - A thrown [Error] is represented by its message.
    - Property reads on object literals go through the prototype chain, as
      they do at run time: a key that is not an own property is looked up on
      [Object.prototype].
    - The file system is a tree of regular files and directories; a
      directory lists its entries in the order [readdir] reports them, and
      counts as searchable for [access(p, X_OK)]. *)

From Stdlib Require Import String Ascii List ZArith NArith Bool Lia DecimalString.
From Stdlib Require HexadecimalString.
Import ListNotations.

Open Scope string_scope.

(** ** JavaScript strings *)

Module Js.

(** [s.startsWith(p)] *)
Fixpoint startsWith (s p : string) {struct p} : bool :=
  match p with
  | EmptyString => true
  | String a p' =>
      match s with
      | EmptyString => false
      | String b s' => Ascii.eqb a b && startsWith s' p'
      end
  end.

Definition endsWith (s p : string) : bool :=
  let n := String.length s in
  let m := String.length p in
  if (m <=? n)%nat then String.eqb (String.substring (n - m) m s) p else false.

Definition lower_ascii (c : ascii) : ascii :=
  let n := nat_of_ascii c in
  if ((65 <=? n) && (n <=? 90))%nat then ascii_of_nat (n + 32) else c.

Fixpoint toLowerCase (s : string) : string :=
  match s with
  | EmptyString => EmptyString
  | String c s' => String (lower_ascii c) (toLowerCase s')
  end.

(** [s.replace(/\/$/, "")]: the pattern is anchored at the end of input
    (no [m] flag), so at most the final character is removed. *)
Fixpoint replace_trailing_slash (s : string) : string :=
  match s with
  | EmptyString => EmptyString
  | String c s' =>
      match s' with
      | EmptyString => if Ascii.eqb c "/"%char then EmptyString else s
      | String _ _ => String c (replace_trailing_slash s')
      end
  end.

(** [haystack.includes(needle)] *)
Fixpoint includes (haystack needle : string) : bool :=
  startsWith haystack needle ||
  match haystack with
  | EmptyString => false
  | String _ rest => includes rest needle
  end.

(** Truthiness of a string value: only the empty string is falsy. *)
Definition truthy (s : string) : bool :=
  match s with EmptyString => false | String _ _ => true end.

(** Names defined on [Object.prototype]; every plain object literal
    inherits them. *)
Definition object_prototype_keys : list string :=
  [ "constructor"; "__proto__"; "hasOwnProperty"; "isPrototypeOf";
    "propertyIsEnumerable"; "toLocaleString"; "toString"; "valueOf";
    "__defineGetter__"; "__defineSetter__";
    "__lookupGetter__"; "__lookupSetter__" ].

(** The value of [obj[key]] for an object literal whose own properties
    hold values of type [T]. *)
Inductive property (T : Type) : Type :=
| Own (v : T)                 (* an own property of the literal *)
| Inherited (name : string)   (* a member of [Object.prototype] *)
| Undefined.

Arguments Own {T} v.
Arguments Inherited {T} name.
Arguments Undefined {T}.

Fixpoint own_property {T : Type} (obj : list (string * T)) (key : string)
  : option T :=
  match obj with
  | [] => None
  | (k, v) :: rest => if String.eqb k key then Some v else own_property rest key
  end.

Definition mem_string (key : string) (l : list string) : bool :=
  existsb (String.eqb key) l.

Definition get {T : Type} (obj : list (string * T)) (key : string)
  : property T :=
  match own_property obj key with
  | Some v => Own v
  | None =>
      if mem_string key object_prototype_keys then Inherited key else Undefined
  end.

(** [!v] for a looked-up value.  Own values here are non-empty strings or
    objects, and prototype members are functions or objects: all truthy. *)
Definition is_undefined {T : Type} (v : property T) : bool :=
  match v with Undefined => true | _ => false end.

End Js.

(** ** Errors and results *)

(** A thrown [Error], identified by its message. *)
Definition Error := string.

Inductive result (A : Type) : Type :=
| Ok (a : A)
| Throw (e : Error).

Arguments Ok {A} a.
Arguments Throw {A} e.

Definition bind_result {A B : Type} (r : result A) (k : A -> result B)
  : result B :=
  match r with
  | Ok a => k a
  | Throw e => Throw e
  end.

(** ** packages/scripts/src/types.ts *)

Inductive NormalizedPlatform := darwin | linux | win32.
Inductive NormalizedArch := x64 | arm64.

Record TargetDescriptor := {
  artifact : string;
  binaryName : string
}.

Record InstallContext := {
  ctx_platform : string;
  ctx_arch : string;
  ctx_version : string;
  ctx_baseUrl : string;
  ctx_repo : string
}.

Record ReleasePlan := {
  plan_platform : NormalizedPlatform;
  plan_arch : NormalizedArch;
  plan_target : TargetDescriptor;
  plan_tag : string;
  plan_artifactUrl : string;
  plan_checksumUrl : string
}.

(** ** packages/scripts/src/platform.ts *)

Module Platform.

Definition PLATFORM_ALIASES : list (string * NormalizedPlatform) :=
  [ ("darwin", darwin);
    ("macos", darwin);
    ("macosx", darwin);
    ("osx", darwin);
    ("linux", linux);
    ("win32", win32);
    ("windows", win32) ].

Definition ARCH_ALIASES : list (string * NormalizedArch) :=
  [ ("x64", x64);
    ("amd64", x64);
    ("x86_64", x64);
    ("arm64", arm64);
    ("aarch64", arm64) ].

(** The argument is [string | undefined]; [None] is [undefined]. *)
Definition normalizePlatform (value : option string)
  : Js.property NormalizedPlatform :=
  match value with
  | None => Js.Undefined
  | Some v =>
      if negb (Js.truthy v) then Js.Undefined
      else Js.get PLATFORM_ALIASES (Js.toLowerCase v)
  end.

Definition normalizeArch (value : option string)
  : Js.property NormalizedArch :=
  match value with
  | None => Js.Undefined
  | Some v =>
      if negb (Js.truthy v) then Js.Undefined
      else Js.get ARCH_ALIASES (Js.toLowerCase v)
  end.

Definition normalizePlatformOrThrow (value : string)
  : result (Js.property NormalizedPlatform) :=
  let normalized := normalizePlatform (Some value) in
  if Js.is_undefined normalized
  then Throw ("Unsupported platform: " ++ value)
  else Ok normalized.

Definition normalizeArchOrThrow (value : string)
  : result (Js.property NormalizedArch) :=
  let normalized := normalizeArch (Some value) in
  if Js.is_undefined normalized
  then Throw ("Unsupported architecture: " ++ value)
  else Ok normalized.

Definition isWindowsPlatform (value : string) : bool :=
  match normalizePlatform (Some value) with
  | Js.Own win32 => true
  | _ => false
  end.

End Platform.

(** ** packages/scripts/src/targets.ts *)

Module Targets.

Definition TARGET_MATRIX (platform : NormalizedPlatform)
                         (arch : NormalizedArch)
  : option TargetDescriptor :=
  match platform, arch with
  | darwin, arm64 =>
      Some {| artifact := "curlpit-aarch64-apple-darwin.tar.xz";
              binaryName := "curlpit" |}
  | darwin, x64 =>
      Some {| artifact := "curlpit-x86_64-apple-darwin.tar.xz";
              binaryName := "curlpit" |}
  | linux, x64 =>
      Some {| artifact := "curlpit-x86_64-unknown-linux-gnu.tar.xz";
              binaryName := "curlpit" |}
  | linux, arm64 =>
      Some {| artifact := "curlpit-aarch64-unknown-linux-gnu.tar.xz";
              binaryName := "curlpit" |}
  | win32, x64 =>
      Some {| artifact := "curlpit-x86_64-pc-windows-msvc.zip";
              binaryName := "curlpit.exe" |}
  | win32, arm64 => None
  end.

(** [TARGET_MATRIX[platform]?.[arch]].  A value inherited from
    [Object.prototype] is a function or an object; used as a property key
    it is converted to a string such as ["[object Object]"], which names no
    row or column of the matrix (and no prototype member), so the read
    yields [undefined]. *)
Definition resolveTarget (platform : Js.property NormalizedPlatform)
                         (arch : Js.property NormalizedArch)
  : option (NormalizedPlatform * NormalizedArch * TargetDescriptor) :=
  match platform, arch with
  | Js.Own p, Js.Own a =>
      match TARGET_MATRIX p a with
      | Some t => Some (p, a, t)
      | None => None
      end
  | _, _ => None
  end.

Definition determineBinaryName (platform arch : string) : option string :=
  let normalizedPlatform := Platform.normalizePlatform (Some platform) in
  let normalizedArch := Platform.normalizeArch (Some arch) in
  if Js.is_undefined normalizedPlatform || Js.is_undefined normalizedArch
  then None
  else option_map (fun r => binaryName (snd r))
                  (resolveTarget normalizedPlatform normalizedArch).

End Targets.

(** ** packages/scripts/src/release.ts *)

Module Release.

Definition make_tag (version : string) : string :=
  if Js.startsWith version "v" then version else "v" ++ version.

Definition planRelease (input : InstallContext) : result ReleasePlan :=
  bind_result (Platform.normalizePlatformOrThrow (ctx_platform input))
    (fun platform =>
  bind_result (Platform.normalizeArchOrThrow (ctx_arch input))
    (fun arch =>
  match Targets.resolveTarget platform arch with
  | None =>
      Throw ("Unsupported platform/architecture combination: "
             ++ ctx_platform input ++ "/" ++ ctx_arch input)
  | Some (p, a, target) =>
      let tag := make_tag (ctx_version input) in
      let baseUrl := Js.replace_trailing_slash (ctx_baseUrl input) in
      let artifactUrl :=
        baseUrl ++ "/" ++ ctx_repo input ++ "/releases/download/"
                ++ tag ++ "/" ++ artifact target in
      let checksumUrl := artifactUrl ++ ".sha256" in
      Ok {| plan_platform := p;
            plan_arch := a;
            plan_target := target;
            plan_tag := tag;
            plan_artifactUrl := artifactUrl;
            plan_checksumUrl := checksumUrl |}
  end)).

End Release.

(** ** Paths and the file system

    File-system calls resolve their string argument against the working
    directory.  The model passes paths in that resolved form: a [path] is the
    list of segments below the root.  [join dir name] is used by the code
    with a single-segment [name] (a directory entry, an artifact name or a
    binary name) and appends it. *)

Definition path := list string.

Module Path.

Definition join (dir : path) (name : string) : path := (dir ++ [name])%list.

Definition dirname (p : path) : path := removelast p.

Definition basename (p : path) : string := last p "".

Fixpoint to_string (p : path) : string :=
  match p with
  | [] => ""
  | seg :: rest => "/" ++ seg ++ to_string rest
  end.

(** Splitting at ['/'] with an accumulator for the current segment. *)
Fixpoint split_slash (cur : string) (s : string) : list string :=
  match s with
  | EmptyString => [cur]
  | String c rest =>
      if Ascii.eqb c "/"%char then cur :: split_slash "" rest
      else split_slash (cur ++ String c "") rest
  end.

Definition step (acc : path) (seg : string) : path :=
  if String.eqb seg "" || String.eqb seg "." then acc
  else if String.eqb seg ".." then removelast acc
  else (acc ++ [seg])%list.

(** [resolve(p)] from node:path (POSIX flavour) against the working
    directory [cwd]. *)
Definition resolve (cwd : path) (p : string) : path :=
  fold_left step (split_slash "" p)
            (if Js.startsWith p "/" then [] else cwd).

End Path.

(** File contents and HTTP bodies are byte strings. *)
Definition bytes := string.

#[warnings="-register-all"]
Inductive node : Type :=
| File (content : bytes) (mode : N)
| Dir (entries : list (string * node)).

Module Fs.

(** Directory entries are kept in listing order, the order in which
    [readdir] reports them. *)
Fixpoint get_entry (es : list (string * node)) (name : string)
  : option node :=
  match es with
  | [] => None
  | (k, n) :: rest => if String.eqb k name then Some n else get_entry rest name
  end.

(** Replace the entry called [name], or list it last when it is new. *)
Fixpoint set_entry (es : list (string * node)) (name : string) (n : node)
  : list (string * node) :=
  match es with
  | [] => [(name, n)]
  | (k, old) :: rest =>
      if String.eqb k name then (k, n) :: rest
      else (k, old) :: set_entry rest name n
  end.

Fixpoint del_entry (es : list (string * node)) (name : string)
  : list (string * node) :=
  match es with
  | [] => []
  | (k, old) :: rest =>
      if String.eqb k name then rest else (k, old) :: del_entry rest name
  end.

Fixpoint lookup (root : node) (p : path) : option node :=
  match p with
  | [] => Some root
  | seg :: rest =>
      match root with
      | File _ _ => None
      | Dir es =>
          match get_entry es seg with
          | Some child => lookup child rest
          | None => None
          end
      end
  end.

(** Store [new] at [p]; the parent of [p] must be an existing directory. *)
Fixpoint put (root : node) (p : path) (new : node) : option node :=
  match p with
  | [] => None
  | seg :: rest =>
      match root with
      | File _ _ => None
      | Dir es =>
          match rest with
          | [] => Some (Dir (set_entry es seg new))
          | _ :: _ =>
              match get_entry es seg with
              | Some child =>
                  match put child rest new with
                  | Some child' => Some (Dir (set_entry es seg child'))
                  | None => None
                  end
              | None => None
              end
          end
      end
  end.

(** [mkdir(p, { recursive: true })]: creates missing directories along
    [p]; fails when a component is a regular file. *)
Fixpoint mkdir_p (root : node) (p : path) : option node :=
  match p with
  | [] => match root with Dir _ => Some root | File _ _ => None end
  | seg :: rest =>
      match root with
      | File _ _ => None
      | Dir es =>
          let child :=
            match get_entry es seg with
            | Some c => c
            | None => Dir []
            end in
          match mkdir_p child rest with
          | Some child' => Some (Dir (set_entry es seg child'))
          | None => None
          end
      end
  end.

(** Removal of the subtree at [p]; a missing path leaves the tree as it
    is ([force: true]). *)
Fixpoint remove (root : node) (p : path) : node :=
  match p with
  | [] => root
  | seg :: rest =>
      match root with
      | File _ _ => root
      | Dir es =>
          match rest with
          | [] => Dir (del_entry es seg)
          | _ :: _ =>
              match get_entry es seg with
              | Some child => Dir (set_entry es seg (remove child rest))
              | None => root
              end
          end
      end
  end.

(** Some execute permission bit is set: [mode & 0o111] is not zero. *)
Definition has_exec_bit (mode : N) : bool := negb (N.land mode 73 =? 0)%N.

Definition mode_755 : N := 493.
Definition mode_644 : N := 420.

End Fs.

(** ** The host and the world

    Everything outside the program is gathered in a [Host]: the process
    environment, the network, the external tools and the digest primitive.
    The mutable part of the machine is a [World]: the file system, what was
    written to the console, and the trace of effects requested so far.

    The file system is a POSIX one, and the installer runs with the
    privileges of the superuser, as a post-install script does below
    [sudo npm install -g] or in a container build: permission bits never
    deny reading, writing or searching, and the one check that looks at a
    mode is [access(p, X_OK)] on a regular file, which is granted when
    some execute bit is set. *)

Inductive Stream := Stdout | Stderr.

Inductive Event : Type :=
| EvFetch (url : string)
| EvSpawn (command : string) (args : list string)
| EvAccess (p : path)
| EvMkdir (p : path)
| EvMkdtemp (p : path)
| EvCopyFile (src dst : path)
| EvChmod (p : path) (mode : N)
| EvReadFile (p : path)
| EvWriteFile (p : path)
| EvReaddir (p : path)
| EvUnpack (archive dir : path)
| EvRm (p : path).

Record Response := {
  status : N;
  statusText : string;
  body : option bytes
}.

Definition response_ok (r : Response) : bool :=
  ((200 <=? status r) && (status r <=? 299))%N.

(** How a child process ended: it could not be started, it exited with a
    code, or it was terminated by a signal (exit code [null]). *)
Inductive ChildExit : Type :=
| SpawnFailed (e : Error)
| ExitCode (code : Z)
| Killed (signal : string).

Record ChildResult := {
  child_exit : ChildExit;
  child_stderr : string;
  child_fs : node          (* the file system the child leaves behind *)
}.

Record Host := {
  cwd : path;
  tmpdir : path;
  temp_suffix : string;                   (* the random part of mkdtemp *)
  env : string -> option string;
  process_platform : string;
  process_arch : string;
  package_version : string;
  moduleDir : path;
  http_get : string -> result Response;   (* [Throw]: the request itself failed *)
  spawn : string -> list string -> node -> ChildResult;
  unpack : path -> path -> node -> result node;   (* in-process tar / zip library *)
  rm_failure : path -> option Error;      (* EBUSY, EPERM, ... on removal *)
  sha256 : bytes -> bytes;
  stack_frames : Error -> string          (* the "at ..." lines of a stack *)
}.

(** [error.stack] as the engine records it when the error is created: the
    header "Error: <message>" ("Error" alone for an empty message),
    followed by the frames of the call stack. *)
Definition error_stack (h : Host) (e : Error) : string :=
  (if Js.truthy e then "Error: " ++ e else "Error") ++ stack_frames h e.

Record World := {
  fs : node;
  console : list (Stream * string);
  trace : list Event
}.

Inductive outcome (A : Type) : Type :=
| Returned (a : A)
| Thrown (e : Error)
| Exited (code : Z).      (* process.exit(code): nothing runs afterwards *)

Arguments Returned {A} a.
Arguments Thrown {A} e.
Arguments Exited {A} code.

Definition Action (A : Type) : Type := Host -> World -> outcome A * World.

Definition ret {A : Type} (a : A) : Action A := fun _ w => (Returned a, w).

Definition throw {A : Type} (e : Error) : Action A := fun _ w => (Thrown e, w).

Definition exit {A : Type} (code : Z) : Action A := fun _ w => (Exited code, w).

Definition bind {A B : Type} (m : Action A) (k : A -> Action B) : Action B :=
  fun h w =>
    match m h w with
    | (Returned a, w') => k a h w'
    | (Thrown e, w') => (Thrown e, w')
    | (Exited c, w') => (Exited c, w')
    end.

Declare Scope action_scope.
Delimit Scope action_scope with action.
Notation "x <- m ;; k" := (bind m (fun x => k))
  (at level 61, m at next level, right associativity) : action_scope.
Notation "m ;;; k" := (bind m (fun _ => k))
  (at level 61, right associativity) : action_scope.
Open Scope action_scope.

Definition ask : Action Host := fun h w => (Returned h, w).

Definition lift {A : Type} (r : result A) : Action A :=
  match r with
  | Ok a => ret a
  | Throw e => throw e
  end.

(** [try { body } catch (e) { handler(e) }] *)
Definition try_catch {A : Type} (body : Action A) (handler : Error -> Action A)
  : Action A :=
  fun h w =>
    match body h w with
    | (Thrown e, w') => handler e h w'
    | r => r
    end.

(** [try { body } finally { fin }].  The completion of [fin] replaces the
    completion of [body] when [fin] throws; when [body] ended the process,
    [fin] is not reached. *)
Definition try_finally {A : Type} (body : Action A) (fin : Action unit)
  : Action A :=
  fun h w =>
    match body h w with
    | (Exited c, w') => (Exited c, w')
    | (r, w') =>
        match fin h w' with
        | (Returned _, w'') => (r, w'')
        | (Thrown e, w'') => (Thrown e, w'')
        | (Exited c, w'') => (Exited c, w'')
        end
    end.

Definition N_to_string (n : N) : string := NilZero.string_of_uint (N.to_uint n).
Definition Z_to_string (z : Z) : string := NilZero.string_of_int (Z.to_int z).

Definition dquote : string := String (ascii_of_nat 34) EmptyString.

(** ** Primitive effects *)

Module Prim.

Definition emit (e : Event) : Action unit :=
  fun _ w =>
    (Returned tt,
     {| fs := fs w; console := console w; trace := (trace w ++ [e])%list |}).

Definition print (s : Stream) (text : string) : Action unit :=
  fun _ w =>
    (Returned tt,
     {| fs := fs w; console := (console w ++ [(s, text)])%list;
        trace := trace w |}).

Definition console_log := print Stdout.
Definition console_warn := print Stderr.
Definition console_error := print Stderr.

Definition get_fs : Action node := fun _ w => (Returned (fs w), w).

Definition set_fs (root : node) : Action unit :=
  fun _ w =>
    (Returned tt, {| fs := root; console := console w; trace := trace w |}).

Definition fetch (url : string) : Action Response :=
  emit (EvFetch url) ;;;
  h <- ask ;;
  lift (http_get h url).

(** [access(p, X_OK)] for the superuser: a directory can always be
    searched, a regular file needs some execute bit. *)
Definition access_X_OK (p : path) : Action unit :=
  emit (EvAccess p) ;;;
  root <- get_fs ;;
  match Fs.lookup root p with
  | None => throw "ENOENT"
  | Some (Dir _) => ret tt
  | Some (File _ mode) => if Fs.has_exec_bit mode then ret tt else throw "EACCES"
  end.

Definition mkdir_recursive (p : path) : Action unit :=
  emit (EvMkdir p) ;;;
  root <- get_fs ;;
  match Fs.mkdir_p root p with
  | Some root' => set_fs root'
  | None =>
      (* a regular file in the way: at [p] itself, or at a component of it *)
      match Fs.lookup root p with
      | Some (File _ _) => throw "EEXIST"
      | _ => throw "ENOTDIR"
      end
  end.

(** [mkdtemp(prefix)]: a fresh directory named by the prefix and the
    host's random suffix, created below an existing parent. *)
Definition mkdtemp (dir : path) (prefix : string) : Action path :=
  h <- ask ;;
  let p := Path.join dir (prefix ++ temp_suffix h) in
  emit (EvMkdtemp p) ;;;
  root <- get_fs ;;
  match Fs.lookup root p with
  | Some _ => throw "EEXIST"
  | None =>
      match Fs.put root p (Dir []) with
      | Some root' => set_fs root' ;;; ret p
      | None => throw "ENOENT"
      end
  end.

(** [copyFile(src, dst)]: contents and permission bits of a regular file
    are copied; an existing destination file is overwritten. *)
Definition copyFile (src dst : path) : Action unit :=
  emit (EvCopyFile src dst) ;;;
  root <- get_fs ;;
  match Fs.lookup root src with
  | None => throw "ENOENT"
  | Some (Dir _) => throw "EISDIR"
  | Some (File content mode) =>
      match Fs.lookup root dst with
      | Some (Dir _) => throw "EISDIR"
      | _ =>
          match Fs.put root dst (File content mode) with
          | Some root' => set_fs root'
          | None => throw "ENOENT"
          end
      end
  end.

Definition chmod (p : path) (mode : N) : Action unit :=
  emit (EvChmod p mode) ;;;
  root <- get_fs ;;
  match Fs.lookup root p with
  | None => throw "ENOENT"
  | Some (Dir _) => ret tt
  | Some (File content _) =>
      match Fs.put root p (File content mode) with
      | Some root' => set_fs root'
      | None => throw "ENOENT"
      end
  end.

Definition readFile (p : path) : Action bytes :=
  emit (EvReadFile p) ;;;
  root <- get_fs ;;
  match Fs.lookup root p with
  | None => throw "ENOENT"
  | Some (Dir _) => throw "EISDIR"
  | Some (File content _) => ret content
  end.

(** Writing a whole file: created with mode [0o644] when new, the mode is
    kept when the file exists. *)
Definition writeFile (p : path) (content : bytes) : Action unit :=
  emit (EvWriteFile p) ;;;
  root <- get_fs ;;
  match Fs.lookup root p with
  | Some (Dir _) => throw "EISDIR"
  | existing =>
      let mode :=
        match existing with
        | Some (File _ m) => m
        | _ => Fs.mode_644
        end in
      match Fs.put root p (File content mode) with
      | Some root' => set_fs root'
      | None => throw "ENOENT"
      end
  end.

Definition readdir (p : path) : Action (list (string * node)) :=
  emit (EvReaddir p) ;;;
  root <- get_fs ;;
  match Fs.lookup root p with
  | None => throw "ENOENT"
  | Some (File _ _) => throw "ENOTDIR"
  | Some (Dir es) => ret es
  end.

(** [rm(p, { recursive: true, force: true })]: a missing path is not an
    error; other failures come from the host. *)
Definition rm_recursive_force (p : path) : Action unit :=
  emit (EvRm p) ;;;
  h <- ask ;;
  match rm_failure h p with
  | Some e => throw e
  | None => root <- get_fs ;; set_fs (Fs.remove root p)
  end.

(** Starting a child process and waiting for it to end. *)
Definition run_child (command : string) (args : list string)
  : Action ChildResult :=
  emit (EvSpawn command args) ;;;
  h <- ask ;;
  root <- get_fs ;;
  let r := spawn h command args root in
  set_fs (child_fs r) ;;;
  ret r.

(** An in-process archive library unpacking [archive] into [dir]. *)
Definition unpack_archive (archive dir : path) : Action unit :=
  emit (EvUnpack archive dir) ;;;
  h <- ask ;;
  root <- get_fs ;;
  match unpack h archive dir root with
  | Ok root' => set_fs root'
  | Throw e => throw e
  end.

End Prim.

(** ** packages/scripts/src/download.ts *)

Module Download.

Definition hex_digit (n : N) : ascii :=
  if (n <? 10)%N then ascii_of_N (48 + n) else ascii_of_N (87 + n).

(** [digest("hex")]: two lower-case hexadecimal digits per byte. *)
Fixpoint hex (b : bytes) : string :=
  match b with
  | EmptyString => EmptyString
  | String c rest =>
      let n := N_of_ascii c in
      String (hex_digit (n / 16)) (String (hex_digit (n mod 16)) (hex rest))
  end.

(** White space as [trim] and [\s] see it, restricted to ASCII: tab, line
    feed, vertical tab, form feed, carriage return and space. *)
Definition is_space (c : ascii) : bool :=
  let n := nat_of_ascii c in
  ((9 <=? n) && (n <=? 13) || (n =? 32))%nat.

Fixpoint trim_start (s : string) : string :=
  match s with
  | EmptyString => EmptyString
  | String c rest => if is_space c then trim_start rest else s
  end.

(** Trailing white space is dropped: a suffix made of white space only
    becomes empty. *)
Fixpoint trim_end (s : string) : string :=
  match s with
  | EmptyString => EmptyString
  | String c rest =>
      match trim_end rest with
      | EmptyString => if is_space c then EmptyString else String c EmptyString
      | kept => String c kept
      end
  end.

Definition trim (s : string) : string := trim_end (trim_start s).

(** [s.split(/\s+/)[0]]: the characters before the first white space. *)
Fixpoint first_field (s : string) : string :=
  match s with
  | EmptyString => EmptyString
  | String c rest => if is_space c then EmptyString else String c (first_field rest)
  end.

Definition status_line (r : Response) : string :=
  "(" ++ N_to_string (status r) ++ " " ++ statusText r ++ ")".

Definition downloadArtifact (artifactUrl : string) (destination : path)
  : Action unit :=
  response <- Prim.fetch artifactUrl ;;
  match response_ok response, body response with
  | true, Some payload =>
      (* pipeline(stream, createWriteStream(destination)) *)
      Prim.writeFile destination payload
  | _, _ =>
      throw ("Failed to download " ++ artifactUrl ++ " " ++ status_line response)
  end.

Definition fetchChecksumText (url : string) : Action string :=
  response <- Prim.fetch url ;;
  if negb (response_ok response) then
    throw ("Failed to download checksum " ++ status_line response)
  else
    let text :=
      trim (match body response with Some t => t | None => "" end) in
    if negb (Js.truthy text) then throw "Checksum file was empty"
    else ret (first_field text).

Definition verifyChecksum (filePath : path) (expected : string)
  : Action unit :=
  content <- Prim.readFile filePath ;;
  h <- ask ;;
  let actual := hex (sha256 h content) in
  if negb (String.eqb actual expected) then
    throw ("Checksum mismatch: expected " ++ expected ++ ", got " ++ actual)
  else ret tt.

End Download.

(** ** packages/scripts/src/filesystem.ts *)

Module Filesystem.

Definition createTempDir (prefix : string) : Action path :=
  h <- ask ;;
  Prim.mkdtemp (tmpdir h) prefix.

Definition ensureDir (p : path) : Action unit := Prim.mkdir_recursive p.

Definition ensureExecutable (sourcePath destinationPath : path)
                            (makeExecutable : bool) : Action unit :=
  ensureDir (Path.dirname destinationPath) ;;;
  Prim.copyFile sourcePath destinationPath ;;;
  if makeExecutable then Prim.chmod destinationPath Fs.mode_755 else ret tt.

Definition cleanup (p : path) : Action unit := Prim.rm_recursive_force p.

Definition isExecutable (p : path) : Action bool :=
  try_catch (Prim.access_X_OK p ;;; ret true) (fun _ => ret false).

Definition installLocalBinary (sourcePath : string) (destinationDir : path)
                              (binaryName : string) (makeExecutable : bool)
  : Action path :=
  h <- ask ;;
  let resolved := Path.resolve (cwd h) sourcePath in
  exists_ <- isExecutable resolved ;;
  if negb exists_ then
    throw ("Local binary not found or not executable: "
           ++ Path.to_string resolved)
  else
    ensureDir destinationDir ;;;
    let destinationPath := Path.join destinationDir binaryName in
    Prim.copyFile resolved destinationPath ;;;
    (if makeExecutable then Prim.chmod destinationPath Fs.mode_755 else ret tt) ;;;
    ret destinationPath.

End Filesystem.

(** ** packages/scripts/src/extract.ts *)

Module Extract.

(** The answer of [locateBinary] as a function of the directory node whose
    path is [dir]: entries in listing order, a matching regular file is
    returned at once, a directory is searched before the entries that
    follow it. *)
Fixpoint locate (dir : path) (n : node) {struct n} : option path :=
  match n with
  | File _ _ => None
  | Dir entries =>
      (fix scan (es : list (string * node)) : option path :=
         match es with
         | [] => None
         | (name, child) :: rest =>
             let candidate := Path.join dir name in
             match child with
             | File _ _ =>
                 if Js.startsWith name "curlpit" then Some candidate
                 else scan rest
             | Dir _ =>
                 match locate candidate child with
                 | Some nested => Some nested
                 | None => scan rest
                 end
             end
         end) entries
  end.

(** The loop of [locateBinary] over the entries read from [dir]: a
    matching regular file is returned at once, a directory is entered by
    a call of its own before the entries that follow it are looked at. *)
Definition scan (enter : path -> node -> Action (option path)) (dir : path)
  : list (string * node) -> Action (option path) :=
  fix loop (es : list (string * node)) : Action (option path) :=
    match es with
    | [] => ret None
    | (name, child) :: rest =>
        let candidate := Path.join dir name in
        match child with
        | File _ _ =>
            if Js.startsWith name "curlpit" then ret (Some candidate)
            else loop rest
        | Dir _ =>
            nested <- enter candidate child ;;
            match nested with
            | Some found => ret (Some found)
            | None => loop rest
            end
        end
    end.

(** [locateBinary(dir)] on the node [n] the file system holds at [dir]:
    [readdir(dir, { withFileTypes: true })], then the loop, so that every
    directory the loop enters is read in its turn.  Nothing is written
    during the walk: an entered directory is the child node of its
    entry. *)
Fixpoint locateBinary_in (dir : path) (n : node) {struct n}
  : Action (option path) :=
  Prim.emit (EvReaddir dir) ;;;
  match n with
  | File _ _ => throw "ENOTDIR"
  | Dir entries => scan locateBinary_in dir entries
  end.

Definition locateBinary (dir : path) : Action (option path) :=
  root <- Prim.get_fs ;;
  match Fs.lookup root dir with
  | Some n => locateBinary_in dir n
  | None => Prim.emit (EvReaddir dir) ;;; throw "ENOENT"
  end.

(** [spawn(command, args, { stdio: "inherit" })]: the child writes to the
    installer's own standard error. *)
Definition runCommand (command : string) (args : list string) : Action unit :=
  child <- Prim.run_child command args ;;
  (if Js.truthy (child_stderr child)
   then Prim.print Stderr (child_stderr child) else ret tt) ;;;
  match child_exit child with
  | SpawnFailed e => throw e
  | ExitCode 0 => ret tt
  | ExitCode code => throw (command ++ " exited with code " ++ Z_to_string code)
  | Killed _ => throw (command ++ " exited with code null")
  end.

Definition tar_command (tarPath : option string) : string :=
  match tarPath with Some t => t | None => "tar" end.

Definition extractArchive (archivePath tempDir : path)
                          (platform : NormalizedPlatform)
                          (tarPath : option string) : Action path :=
  let archive := Path.to_string archivePath in
  let temp := Path.to_string tempDir in
  (if Js.endsWith archive ".tar.gz" then
     runCommand (tar_command tarPath) ["-xzf"; archive; "-C"; temp]
   else if Js.endsWith archive ".tar.xz" then
     runCommand (tar_command tarPath) ["-xJf"; archive; "-C"; temp]
   else if Js.endsWith archive ".zip" then
     match platform with
     | win32 =>
         runCommand "powershell"
           ["-NoProfile"; "-Command";
            "Expand-Archive -Path " ++ dquote ++ archive ++ dquote
            ++ " -DestinationPath " ++ dquote ++ temp ++ dquote ++ " -Force"]
     | _ => runCommand "unzip" [archive; "-d"; temp]
     end
   else throw ("Unsupported archive format: " ++ archive)) ;;;
  binaryPath <- locateBinary tempDir ;;
  match binaryPath with
  | None => throw "Archive did not contain a curlpit binary"
  | Some found => ret found
  end.

End Extract.

(** ** packages/scripts/src/defaults.ts *)

Definition defaultBinDir (platform : NormalizedPlatform) (homeDir : path) : path :=
  match platform with
  | win32 => (homeDir ++ ["AppData"; "Local"; "curlpit"; "bin"])%list
  | _ => (homeDir ++ [".local"; "bin"])%list
  end.

(** ** Reading the environment *)

(** [Boolean(v)] of a [string | undefined]. *)
Definition env_truthy (v : option string) : bool :=
  match v with
  | Some s => Js.truthy s
  | None => false
  end.

(** [v ?? d] *)
Definition nullish {A : Type} (v : option A) (d : A) : A :=
  match v with
  | Some a => a
  | None => d
  end.

(** ** packages/npm/src/install.ts *)

Module NpmInstall.

Definition not_win32 (p : NormalizedPlatform) : bool :=
  match p with win32 => false | _ => true end.

(** The [try { ... } catch (error) { ... }] part of [main]. *)
Definition attempt (platform arch : string) (plan : ReleasePlan)
                   (tempDir archivePath binaryDestination : path)
                   (skipChecksum : bool) (tarPath : option string)
  : Action unit :=
  try_catch
    (Prim.console_log
       ("Downloading curlpit binary (" ++ platform ++ "/" ++ arch ++ ") from "
        ++ plan_artifactUrl plan) ;;;
     Download.downloadArtifact (plan_artifactUrl plan) archivePath ;;;
     (if negb skipChecksum then
        expectedChecksum <- Download.fetchChecksumText (plan_checksumUrl plan) ;;
        Download.verifyChecksum archivePath expectedChecksum
      else
        Prim.console_warn
          "Skipping checksum verification (CURLPIT_SKIP_CHECKSUM set)") ;;;
     extractedBinary <-
       Extract.extractArchive archivePath tempDir (plan_platform plan) tarPath ;;
     Filesystem.ensureExecutable extractedBinary binaryDestination
                                 (not_win32 (plan_platform plan)) ;;;
     Prim.console_log
       ("curlpit binary installed to " ++ Path.to_string binaryDestination))
    (fun error =>
       Prim.console_error ("Failed to install curlpit binary: " ++ error) ;;;
       exit 1).

Definition install_context (h : Host) : InstallContext :=
  {| ctx_platform := nullish (env h "CURLPIT_PLATFORM") (process_platform h);
     ctx_arch := nullish (env h "CURLPIT_ARCH") (process_arch h);
     ctx_version := nullish (env h "CURLPIT_VERSION") (package_version h);
     ctx_baseUrl := nullish (env h "CURLPIT_DOWNLOAD_BASE") "https://github.com";
     ctx_repo := nullish (env h "CURLPIT_REPOSITORY") "curlpit-sh/cli" |}.

Definition main : Action unit :=
  h <- ask ;;
  if env_truthy (env h "CURLPIT_SKIP_POSTINSTALL") then ret tt
  else
    let input := install_context h in
    let skipChecksum := env_truthy (env h "CURLPIT_SKIP_CHECKSUM") in
    let tarPath := env h "TAR_PATH" in
    plan <- lift (Release.planRelease input) ;;
    let binDir :=
      match env h "CURLPIT_BIN_DIR" with
      | Some d => Path.resolve (cwd h) d
      | None => moduleDir h
      end in
    let binaryName := binaryName (plan_target plan) in
    let binaryDestination := Path.join binDir binaryName in
    let localBinary := env h "CURLPIT_LOCAL_BINARY" in
    if env_truthy localBinary then
      Filesystem.installLocalBinary (nullish localBinary "") binDir binaryName
                                    (not_win32 (plan_platform plan)) ;;;
      Prim.console_log
        ("curlpit binary installed to " ++ Path.to_string binaryDestination)
    else
      tempDir <- Filesystem.createTempDir "curlpit-npm-" ;;
      let archivePath := Path.join tempDir (artifact (plan_target plan)) in
      try_finally
        (attempt (ctx_platform input) (ctx_arch input) plan
                 tempDir archivePath binaryDestination skipChecksum tarPath)
        (Filesystem.cleanup tempDir).

(** The handler of [main().catch(...)]: every value thrown in the
    installer is an [Error], so what is printed after the fixed text is
    [error.stack]. *)
Definition unexpected (error : Error) : Action unit :=
  h <- ask ;;
  Prim.console_error
    ("Unexpected error during curlpit installation: " ++ error_stack h error) ;;;
  exit 1.

(** [main().catch(...)]: the module's top level. *)
Definition run : Action unit := try_catch main unexpected.

End NpmInstall.

(** The exit status of the process for a completed top-level action. *)
Definition exit_status {A : Type} (o : outcome A) : Z :=
  match o with
  | Returned _ => 0
  | Thrown _ => 1
  | Exited code => code
  end.

(** ** The earlier npm installer (scripts/install.js) *)

Module InstallJs.

Definition downloadFile (url : string) (destination : path) : Action unit :=
  response <- Prim.fetch url ;;
  match response_ok response, body response with
  | true, Some payload => Prim.writeFile destination payload
  | _, _ =>
      throw ("Download failed with status " ++ N_to_string (status response)
             ++ " " ++ statusText response)
  end.

Definition computeSha256 (filePath : path) : Action string :=
  content <- Prim.readFile filePath ;;
  h <- ask ;;
  ret (Download.hex (sha256 h content)).

Definition verifyChecksum (filePath : path) (checksumUrl : string)
  : Action unit :=
  response <- Prim.fetch checksumUrl ;;
  match response_ok response, body response with
  | true, Some checksumText =>
      let expected := Download.first_field (Download.trim checksumText) in
      if negb (Js.truthy expected) then throw "Checksum file was empty."
      else
        actual <- computeSha256 filePath ;;
        if negb (String.eqb actual expected) then
          throw ("Checksum mismatch: expected " ++ expected
                 ++ ", got " ++ actual)
        else ret tt
  | _, _ =>
      throw ("Checksum download failed " ++ Download.status_line response
             ++ ". Set CURLPIT_SKIP_CHECKSUM=1 to override.")
  end.

(** The loop over the names in the scratch directory: the archive's own
    name and names without the prefix are skipped, the first remaining
    regular file wins.  Only the top level is inspected. *)
Fixpoint pick (tempDir : path) (archiveName : string)
              (entries : list (string * node)) : option path :=
  match entries with
  | [] => None
  | (entry, n) :: rest =>
      if String.eqb entry archiveName then pick tempDir archiveName rest
      else if negb (Js.startsWith entry "curlpit") then
        pick tempDir archiveName rest
      else
        match n with
        | File _ _ => Some (Path.join tempDir entry)
        | Dir _ => pick tempDir archiveName rest
        end
  end.

Definition extractArchive (archivePath tempDir : path) : Action path :=
  let archive := Path.to_string archivePath in
  (if Js.endsWith archive ".tar.gz" then Prim.unpack_archive archivePath tempDir
   else if Js.endsWith archive ".zip" then Prim.unpack_archive archivePath tempDir
   else throw ("Unsupported archive format: " ++ archive)) ;;;
  entries <- Prim.readdir tempDir ;;
  match pick tempDir (Path.basename archivePath) entries with
  | Some candidate => ret candidate
  | None => throw "Extracted archive did not contain a curlpit binary."
  end.

Definition cleanupTemp (dir : path) : Action unit :=
  try_catch (Prim.rm_recursive_force dir)
            (fun _ => ret tt (* Ignore cleanup errors *)).

(** The [try { ... } catch (error) { ... }] part of [main]. *)
Definition attempt (platform arch : string) (targetInfo : TargetDescriptor)
                   (downloadUrl checksumUrl : string)
                   (tempDir archivePath vendorDir : path)
  : Action unit :=
  try_catch
    (Prim.console_log
       ("Downloading curlpit binary (" ++ platform ++ "/" ++ arch ++ ") from "
        ++ downloadUrl) ;;;
     downloadFile downloadUrl archivePath ;;;
     h <- ask ;;
     (if negb (env_truthy (env h "CURLPIT_SKIP_CHECKSUM"))
      then verifyChecksum archivePath checksumUrl else ret tt) ;;;
     extractedPath <- extractArchive archivePath tempDir ;;
     let destination := Path.join vendorDir (binaryName targetInfo) in
     Prim.copyFile extractedPath destination ;;;
     (if negb (String.eqb platform "win32")
      then Prim.chmod destination Fs.mode_755 else ret tt) ;;;
     Prim.console_log
       ("curlpit binary installed to " ++ Path.to_string destination))
    (fun error =>
       Prim.console_error ("Failed to install curlpit binary: " ++ error) ;;;
       exit 1).

(** [main] from the creation of the scratch directory onwards: the
    [try]/[catch]/[finally] statement. *)
Definition install (platform arch : string) (targetInfo : TargetDescriptor)
                   (downloadUrl checksumUrl : string) (vendorDir : path)
  : Action unit :=
  h <- ask ;;
  tempDir <- Prim.mkdtemp (tmpdir h) "curlpit-download-" ;;
  let archivePath := Path.join tempDir (artifact targetInfo) in
  try_finally
    (attempt platform arch targetInfo downloadUrl checksumUrl
             tempDir archivePath vendorDir)
    (cleanupTemp tempDir).

End InstallJs.

(** ** The standalone Deno installer (dist/deno/install.ts) *)

Module DenoInstall.

(** [new Deno.Command(cmd, { args }).output()]: standard error is
    captured, and the call succeeds only for exit code 0. *)
Definition command_output (command : string) (args : list string)
  : Action (bool * string) :=
  child <- Prim.run_child command args ;;
  match child_exit child with
  | SpawnFailed e => throw e
  | ExitCode 0 => ret (true, child_stderr child)
  | ExitCode _ => ret (false, child_stderr child)
  | Killed _ => ret (false, child_stderr child)
  end.

(** [throw new Error(new TextDecoder().decode(stderr))] unless [success]. *)
Definition check_output (command : string) (args : list string) : Action unit :=
  out <- command_output command args ;;
  let '(success, stderr) := out in
  if negb success then throw stderr else ret tt.

Definition runTar (args : list string) : Action unit :=
  h <- ask ;;
  let tarPath := nullish (env h "TAR_PATH") "tar" in
  check_output tarPath args.

Fixpoint first_binary (temp : path) (entries : list (string * node))
  : option path :=
  match entries with
  | [] => None
  | (name, n) :: rest =>
      match n with
      | File _ _ =>
          if Js.startsWith name "curlpit" then Some (Path.join temp name)
          else first_binary temp rest
      | Dir _ => first_binary temp rest
      end
  end.

Definition extractArchive (archivePath temp : path) (isWindows : bool)
  : Action path :=
  let archive := Path.to_string archivePath in
  let dir := Path.to_string temp in
  (if Js.endsWith archive ".tar.gz" then runTar ["-xzf"; archive; "-C"; dir]
   else if Js.endsWith archive ".tar.xz" then runTar ["-xJf"; archive; "-C"; dir]
   else if Js.endsWith archive ".zip" then
     if isWindows then
       check_output "powershell"
         ["-NoProfile"; "-Command";
          "Expand-Archive -Path " ++ dquote ++ archive ++ dquote
          ++ " -DestinationPath " ++ dquote ++ dir ++ dquote ++ " -Force"]
     else check_output "unzip" [archive; "-d"; dir]
   else throw ("Unsupported archive format: " ++ archive)) ;;;
  entries <- Prim.readdir temp ;;
  match first_binary temp entries with
  | Some found => ret found
  | None => throw "Archive did not contain a curlpit binary"
  end.

End DenoInstall.

(** ** SHA-256 (FIPS 180-4)

    The digest behind [createHash("sha256")] and
    [crypto.subtle.digest("SHA-256", ...)], on 32-bit words held in [Z]. *)

Module Sha256.

Definition w32 (x : Z) : Z := x mod 4294967296.

Definition add32 (x y : Z) : Z := w32 (x + y).

Definition rotr (n x : Z) : Z :=
  Z.lor (Z.shiftr x n) (w32 (Z.shiftl x (32 - n))).

Definition not32 (x : Z) : Z := Z.lxor x 4294967295.

Definition Ch (x y z : Z) : Z := Z.lxor (Z.land x y) (Z.land (not32 x) z).

Definition Maj (x y z : Z) : Z :=
  Z.lxor (Z.land x y) (Z.lxor (Z.land x z) (Z.land y z)).

Definition Sigma0 (x : Z) : Z := Z.lxor (rotr 2 x) (Z.lxor (rotr 13 x) (rotr 22 x)).
Definition Sigma1 (x : Z) : Z := Z.lxor (rotr 6 x) (Z.lxor (rotr 11 x) (rotr 25 x)).
Definition sigma0 (x : Z) : Z := Z.lxor (rotr 7 x) (Z.lxor (rotr 18 x) (Z.shiftr x 3)).
Definition sigma1 (x : Z) : Z := Z.lxor (rotr 17 x) (Z.lxor (rotr 19 x) (Z.shiftr x 10)).

(** The constants are derived as the standard prescribes: from the
    fractional parts of the cube roots (round constants) and square roots
    (initial state) of the first primes. *)
Definition is_prime (n : nat) : bool :=
  (1 <? n)%nat
  && forallb (fun d => negb (n mod d =? 0)%nat) (seq 2 (n - 2)).

Definition first_primes : list Z :=
  map Z.of_nat (filter is_prime (seq 2 310)).

(** The integer cube root of [n], found bit by bit from bit [bits - 1]. *)
Fixpoint cube_root (bits : nat) (n r : Z) : Z :=
  match bits with
  | O => r
  | S b =>
      let c := (r + Z.shiftl 1 (Z.of_nat b))%Z in
      cube_root b n (if (c * c * c <=? n)%Z then c else r)
  end.

Definition K : list Z :=
  Eval vm_compute in
    map (fun p => w32 (cube_root 40 (Z.shiftl p 96) 0)) first_primes.

Definition H0 : list Z :=
  Eval vm_compute in
    map (fun p => w32 (Z.sqrt (Z.shiftl p 64))) (firstn 8 first_primes).

Fixpoint bytes_of_string (s : string) : list Z :=
  match s with
  | EmptyString => []
  | String c rest => Z.of_N (N_of_ascii c) :: bytes_of_string rest
  end.

Fixpoint string_of_bytes (l : list Z) : string :=
  match l with
  | [] => EmptyString
  | b :: rest => String (ascii_of_N (Z.to_N b)) (string_of_bytes rest)
  end.

(** Big-endian bytes of [x], [n] of them. *)
Fixpoint be_bytes (n : nat) (x : Z) : list Z :=
  match n with
  | O => []
  | S n' => (Z.shiftr x (8 * Z.of_nat n') mod 256)%Z :: be_bytes n' x
  end.

(** The message, a one bit, zero bits up to 56 modulo 64 bytes, and the
    bit length on eight bytes. *)
Definition pad (msg : list Z) : list Z :=
  let len := Z.of_nat (List.length msg) in
  let zeros := Z.to_nat ((55 - len) mod 64) in
  (msg ++ [128%Z] ++ repeat 0%Z zeros ++ be_bytes 8 (8 * len))%list.

Fixpoint words (fuel : nat) (l : list Z) : list Z :=
  match fuel, l with
  | S fuel', a :: b :: c :: d :: rest =>
      (a * 16777216 + b * 65536 + c * 256 + d)%Z :: words fuel' rest
  | _, _ => []
  end.

(** The message schedule: [ws] holds the words computed so far, most
    recent first. *)
Fixpoint schedule (n : nat) (ws : list Z) : list Z :=
  match n with
  | O => ws
  | S n' =>
      let w2 := nth 1 ws 0%Z in
      let w7 := nth 6 ws 0%Z in
      let w15 := nth 14 ws 0%Z in
      let w16 := nth 15 ws 0%Z in
      schedule n'
        (add32 (add32 (sigma1 w2) w7) (add32 (sigma0 w15) w16) :: ws)
  end.

Definition round (st : list Z) (kw : Z * Z) : list Z :=
  match st with
  | [a; b; c; d; e; f; g; h] =>
      let t1 :=
        add32 (add32 (add32 h (Sigma1 e)) (add32 (Ch e f g) (fst kw))) (snd kw) in
      let t2 := add32 (Sigma0 a) (Maj a b c) in
      [add32 t1 t2; a; b; c; add32 d t1; e; f; g]
  | _ => st
  end.

Fixpoint add_states (x y : list Z) : list Z :=
  match x, y with
  | a :: x', b :: y' => add32 a b :: add_states x' y'
  | _, _ => []
  end.

Definition compress (st : list Z) (block : list Z) : list Z :=
  let w := rev (schedule 48 (rev (words 16 block))) in
  add_states st (fold_left round (combine K w) st).

Fixpoint blocks (fuel : nat) (st : list Z) (l : list Z) : list Z :=
  match fuel with
  | O => st
  | S fuel' =>
      match l with
      | [] => st
      | _ => blocks fuel' (compress st (firstn 64 l)) (skipn 64 l)
      end
  end.

Definition digest (msg : bytes) : bytes :=
  let padded := pad (bytes_of_string msg) in
  let st := blocks (List.length padded) H0 padded in
  string_of_bytes (flat_map (be_bytes 4) st).

End Sha256.

(** ** Vocabulary of the statements *)

Definition with_version (input : InstallContext) (v : string) : InstallContext :=
  {| ctx_platform := ctx_platform input; ctx_arch := ctx_arch input;
     ctx_version := v; ctx_baseUrl := ctx_baseUrl input;
     ctx_repo := ctx_repo input |}.

Definition with_baseUrl (input : InstallContext) (b : string) : InstallContext :=
  {| ctx_platform := ctx_platform input; ctx_arch := ctx_arch input;
     ctx_version := ctx_version input; ctx_baseUrl := b;
     ctx_repo := ctx_repo input |}.

(** Whether the raw pair resolves to an entry of the target matrix. *)
Definition resolves (input : InstallContext)
  : option (NormalizedPlatform * NormalizedArch * TargetDescriptor) :=
  Targets.resolveTarget (Platform.normalizePlatform (Some (ctx_platform input)))
                        (Platform.normalizeArch (Some (ctx_arch input))).

(** The error [planRelease] raises for a pair without a matrix entry: the
    strict normalisers run first and report the platform or the
    architecture alone; only a pair of recognised names lacking an entry is
    reported as a combination. *)
Definition unsupported_error (input : InstallContext) : Error :=
  if Js.is_undefined (Platform.normalizePlatform (Some (ctx_platform input)))
  then "Unsupported platform: " ++ ctx_platform input
  else if Js.is_undefined (Platform.normalizeArch (Some (ctx_arch input)))
  then "Unsupported architecture: " ++ ctx_arch input
  else "Unsupported platform/architecture combination: "
       ++ ctx_platform input ++ "/" ++ ctx_arch input.

Definition log_line (w : World) (s : Stream) (text : string) : World :=
  {| fs := fs w; console := (console w ++ [(s, text)])%list; trace := trace w |}.

Definition traced (w : World) (events : list Event) : World :=
  {| fs := fs w; console := console w; trace := (trace w ++ events)%list |}.


Definition is_dir (n : option node) : bool :=
  match n with
  | Some (Dir _) => true
  | _ => false
  end.

Definition lower_hex_digit (c : ascii) : bool :=
  let n := nat_of_ascii c in
  ((48 <=? n) && (n <=? 57) || (97 <=? n) && (n <=? 102))%nat.

Fixpoint all_chars (f : ascii -> bool) (s : string) : bool :=
  match s with
  | EmptyString => true
  | String c rest => f c && all_chars f rest
  end.

(** ** Sample hosts *)

(** A machine without network access or extraction tools. *)
Definition offline_host : Host :=
  {| cwd := ["work"];
     tmpdir := ["tmp"];
     temp_suffix := "Xk3f9Q";
     env := fun _ => None;
     process_platform := "linux";
     process_arch := "x64";
     package_version := "0.2.7";
     moduleDir := ["opt"; "curlpit"; "bin"];
     http_get := fun _ => Throw "fetch failed";
     spawn := fun _ _ root =>
       {| child_exit := SpawnFailed "spawn ENOENT";
          child_stderr := ""; child_fs := root |};
     unpack := fun _ _ _ => Throw "ENOENT";
     rm_failure := fun _ => None;
     sha256 := Sha256.digest;
     stack_frames := fun _ =>
       String (ascii_of_nat 10) "    at async main (install.js)" |}.

Definition empty_world (root : node) : World :=
  {| fs := root; console := []; trace := [] |}.

(** A developer's checkout with a freshly built binary, a text file, and an
    empty [/opt]. *)
Definition checkout : node :=
  Dir [ ("work",
         Dir [ ("target",
                Dir [ ("release",
                       Dir [ ("curlpit", File "ELF-curlpit-build" 493);
                             ("notes.txt", File "release notes" 420) ]) ]) ]);
        ("opt", Dir []) ].

(** ** Regular files of a tree, in the order of the walk *)

(** Every regular file below the directory node [n] at path [dir], with its
    name: entries in listing order, the files of a subdirectory before the
    entries that follow it. *)
Fixpoint files_below (dir : path) (n : node) {struct n} : list (path * string) :=
  match n with
  | File _ _ => []
  | Dir entries =>
      (fix walk (es : list (string * node)) : list (path * string) :=
         match es with
         | [] => []
         | (name, child) :: rest =>
             (match child with
              | File _ _ => [(Path.join dir name, name)]
              | Dir _ => files_below (Path.join dir name) child
              end ++ walk rest)%list
         end) entries
  end.

Definition has_prefix_curlpit (f : path * string) : bool :=
  Js.startsWith (snd f) "curlpit".

(** ** More sample hosts *)

Definition with_env (h : Host) (e : string -> option string) : Host :=
  {| cwd := cwd h; tmpdir := tmpdir h; temp_suffix := temp_suffix h;
     env := e;
     process_platform := process_platform h; process_arch := process_arch h;
     package_version := package_version h; moduleDir := moduleDir h;
     http_get := http_get h; spawn := spawn h; unpack := unpack h;
     rm_failure := rm_failure h; sha256 := sha256 h;
     stack_frames := stack_frames h |}.

Definition with_http (h : Host) (get : string -> result Response) : Host :=
  {| cwd := cwd h; tmpdir := tmpdir h; temp_suffix := temp_suffix h;
     env := env h;
     process_platform := process_platform h; process_arch := process_arch h;
     package_version := package_version h; moduleDir := moduleDir h;
     http_get := get; spawn := spawn h; unpack := unpack h;
     rm_failure := rm_failure h; sha256 := sha256 h;
     stack_frames := stack_frames h |}.

Definition with_spawn (h : Host)
    (run : string -> list string -> node -> ChildResult) : Host :=
  {| cwd := cwd h; tmpdir := tmpdir h; temp_suffix := temp_suffix h;
     env := env h;
     process_platform := process_platform h; process_arch := process_arch h;
     package_version := package_version h; moduleDir := moduleDir h;
     http_get := http_get h; spawn := run; unpack := unpack h;
     rm_failure := rm_failure h; sha256 := sha256 h;
     stack_frames := stack_frames h |}.

Definition with_rm_failure (h : Host) (f : path -> option Error) : Host :=
  {| cwd := cwd h; tmpdir := tmpdir h; temp_suffix := temp_suffix h;
     env := env h;
     process_platform := process_platform h; process_arch := process_arch h;
     package_version := package_version h; moduleDir := moduleDir h;
     http_get := http_get h; spawn := spawn h; unpack := unpack h;
     rm_failure := f; sha256 := sha256 h;
     stack_frames := stack_frames h |}.

(** The entries an extraction tool adds to directory [dir], listed before
    the entries that were there. *)
Definition unpack_into (root : node) (dir : path)
                       (payload : list (string * node)) : node :=
  match Fs.lookup root dir with
  | Some (Dir old) =>
      match Fs.put root dir (Dir (payload ++ old)%list) with
      | Some root' => root'
      | None => root
      end
  | _ => root
  end.

(** An extraction tool that succeeds and leaves [payload] in the directory
    named by its last argument. *)
Definition extracting (payload : list (string * node))
    (command : string) (args : list string) (root : node) : ChildResult :=
  {| child_exit := ExitCode 0;
     child_stderr := "";
     child_fs := unpack_into root (Path.resolve [] (last args "")) payload |}.

(** An extraction tool that rejects the archive. *)
Definition rejecting (code : Z) (stderr : string)
    (command : string) (args : list string) (root : node) : ChildResult :=
  {| child_exit := ExitCode code; child_stderr := stderr; child_fs := root |}.

Definition linux_archive_name : string :=
  "curlpit-x86_64-unknown-linux-gnu.tar.xz".

(** A release server that serves the bytes [archive] for every asset and
    the matching checksum file for every [.sha256] URL. *)
Definition release_server (archive : bytes) (url : string) : result Response :=
  Ok {| status := 200;
        statusText := "OK";
        body :=
          Some (if Js.endsWith url ".sha256"
                then Download.hex (Sha256.digest archive) ++ "  "
                     ++ linux_archive_name
                else archive) |}.

(** The layout of a published archive: one directory holding the binary. *)
Definition release_payload : list (string * node) :=
  [ ("curlpit-x86_64-unknown-linux-gnu",
     Dir [ ("README.md", File "curlpit" 420);
           ("curlpit", File "ELF-curlpit-0.2.7" 493) ]) ].

(** A packaging defect: an archive without the binary. *)
Definition defective_payload : list (string * node) :=
  [ ("pkg", Dir [ ("README.md", File "curlpit" 420) ]) ].

(** A Linux machine on which download and extraction work. *)
Definition linux_host (payload : list (string * node)) : Host :=
  with_spawn (with_http offline_host (release_server "xz-archive-bytes"))
             (extracting payload).

Definition machine : node := Dir [ ("tmp", Dir []); ("opt", Dir []) ].

(** The scratch directory of an npm install after the download. *)
Definition scratch : path := ["tmp"; "curlpit-npm-Xk3f9Q"].

Definition downloaded : node :=
  Dir [ ("tmp",
         Dir [ ("curlpit-npm-Xk3f9Q",
                Dir [ (linux_archive_name, File "xz-archive-bytes" 420) ]) ]);
        ("opt", Dir []) ].

Definition with_unpack (h : Host)
    (u : path -> path -> node -> result node) : Host :=
  {| cwd := cwd h; tmpdir := tmpdir h; temp_suffix := temp_suffix h;
     env := env h;
     process_platform := process_platform h; process_arch := process_arch h;
     package_version := package_version h; moduleDir := moduleDir h;
     http_get := http_get h; spawn := spawn h; unpack := u;
     rm_failure := rm_failure h; sha256 := sha256 h;
     stack_frames := stack_frames h |}.

(** An archive library that leaves [payload] in the target directory. *)
Definition unpacking (payload : list (string * node))
    (archive dir : path) (root : node) : result node :=
  Ok (unpack_into root dir payload).

(** The target the earlier installer uses on Linux, and a host on which its
    download and its in-process extraction work while the removal of
    scratch directories fails. *)
Definition legacy_linux_target : TargetDescriptor :=
  {| artifact := "curlpit-x86_64-unknown-linux-gnu.tar.gz";
     binaryName := "curlpit" |}.

Definition busy_legacy_host : Host :=
  with_rm_failure
    (with_unpack (with_http offline_host (release_server "gz-archive-bytes"))
                 (unpacking [ ("curlpit", File "ELF-curlpit-0.2.7" 420) ]))
    (fun _ => Some "EBUSY: resource busy or locked").

Definition busy_linux_host : Host :=
  with_rm_failure (linux_host release_payload)
                  (fun _ => Some "EBUSY: resource busy or locked").

Definition broken_tar_host : Host :=
  with_spawn (linux_host release_payload)
             (rejecting 2 "tar: Error is not recoverable: exiting now").

(** The extraction table of the specification: which external tool, with
    which arguments, handles an archive of a given suffix on a given
    platform; [None] for any other suffix. *)
Definition extraction_tool (archivePath tempDir : path)
    (platform : NormalizedPlatform) (tarPath : option string)
  : option (string * list string) :=
  let archive := Path.to_string archivePath in
  let temp := Path.to_string tempDir in
  let tar := match tarPath with Some t => t | None => "tar" end in
  if Js.endsWith archive ".tar.gz" then
    Some (tar, ["-xzf"; archive; "-C"; temp])
  else if Js.endsWith archive ".tar.xz" then
    Some (tar, ["-xJf"; archive; "-C"; temp])
  else if Js.endsWith archive ".zip" then
    match platform with
    | win32 =>
        Some ("powershell",
              ["-NoProfile"; "-Command";
               "Expand-Archive -Path " ++ dquote ++ archive ++ dquote
               ++ " -DestinationPath " ++ dquote ++ temp ++ dquote ++ " -Force"])
    | _ => Some ("unzip", [archive; "-d"; temp])
    end
  else None.

Definition is_win32 (p : NormalizedPlatform) : bool :=
  match p with win32 => true | _ => false end.

(** The world after a child process [r] with inherited standard error has
    ended: its file system, its standard-error text on our console. *)
Definition after_child (w : World) (command : string) (args : list string)
                       (r : ChildResult) : World :=
  {| fs := child_fs r;
     console :=
       (console w
        ++ (if Js.truthy (child_stderr r) then [(Stderr, child_stderr r)] else []))%list;
     trace := (trace w ++ [EvSpawn command args])%list |}.

(** A Windows-on-ARM machine, by environment override. *)
Definition windows_arm_host : Host :=
  with_env offline_host
    (fun key =>
       if String.eqb key "CURLPIT_PLATFORM" then Some "win32"
       else if String.eqb key "CURLPIT_ARCH" then Some "arm64"
       else None).

(** The end-to-end scenario: platform, architecture and version given by
    the environment, repository and base URL left to their defaults. *)
Definition scenario_host : Host :=
  with_env offline_host
    (fun key =>
       if String.eqb key "CURLPIT_PLATFORM" then Some "linux"
       else if String.eqb key "CURLPIT_ARCH" then Some "x86_64"
       else if String.eqb key "CURLPIT_VERSION" then Some "0.2.7"
       else None).

(** ** Vocabulary of the further statements *)

Definition with_names (input : InstallContext) (p a : string) : InstallContext :=
  {| ctx_platform := p; ctx_arch := a;
     ctx_version := ctx_version input; ctx_baseUrl := ctx_baseUrl input;
     ctx_repo := ctx_repo input |}.

(** The effects that stay on the local file system. *)
Definition local_event (e : Event) : bool :=
  match e with
  | EvAccess _ | EvMkdir _ | EvCopyFile _ _ | EvChmod _ _ => true
  | _ => false
  end.

Definition not_space (c : ascii) : bool := negb (Download.is_space c).

(** A scratch directory in which a directory of shell completions is
    listed before the binary. *)
Definition unpacked_with_completions : node :=
  Dir [ ("tmp",
         Dir [ ("curlpit-npm-Xk3f9Q",
                Dir [ ("completions",
                       Dir [ ("curlpit.bash", File "complete -F" 420) ]);
                      ("curlpit", File "ELF" 493) ]) ]) ].

(** [rest] is empty or begins with white space: a token before it ends
    there. *)
Definition ends_token (rest : string) : bool :=
  match rest with
  | EmptyString => true
  | String c _ => Download.is_space c
  end.

Definition line_feed : string := String (ascii_of_nat 10) EmptyString.

(** ** The digest text of the standalone Deno installer *)

Module DenoDigest.

(** [b.toString(16)] for a non-negative integer. *)
Definition toString16 (n : N) : string :=
  HexadecimalString.NilZero.string_of_uint (N.to_hex_uint n).

Fixpoint repeat_char (n : nat) (c : ascii) : string :=
  match n with
  | O => EmptyString
  | S n' => String c (repeat_char n' c)
  end.

(** [s.padStart(target, c)] with a one-character pad string. *)
Definition padStart (target : nat) (c : ascii) (s : string) : string :=
  repeat_char (target - String.length s) c ++ s.

(** [Array.from(bytes).map((b) => b.toString(16).padStart(2, "0")).join("")] *)
Fixpoint bufferToHex (buffer : bytes) : string :=
  match buffer with
  | EmptyString => EmptyString
  | String b rest =>
      padStart 2 "0" (toString16 (N_of_ascii b)) ++ bufferToHex rest
  end.

End DenoDigest.

(** Reading hexadecimal text back into bytes. *)
Definition hex_value (c : ascii) : option N :=
  let n := N_of_ascii c in
  if ((48 <=? n) && (n <=? 57))%N then Some (n - 48)%N
  else if ((97 <=? n) && (n <=? 102))%N then Some (n - 87)%N
  else None.

Fixpoint unhex (s : string) : option bytes :=
  match s with
  | EmptyString => Some EmptyString
  | String hi (String lo rest) =>
      match hex_value hi, hex_value lo, unhex rest with
      | Some h, Some l, Some tail =>
          Some (String (ascii_of_N (16 * h + l)) tail)
      | _, _, _ => None
      end
  | String _ EmptyString => None
  end.

(** A server whose every response is a [sha256sum] line for the archive. *)
Definition checksum_host : Host :=
  with_http offline_host
    (fun _ =>
       Ok {| status := 200; statusText := "OK";
             body :=
               Some (Download.hex (Sha256.digest "xz-archive-bytes")
                     ++ "  " ++ linux_archive_name ++ line_feed) |}).

(** [m] never ends the process, except possibly with status [code]. *)
Definition exits_only_with (code : Z) {A : Type} (m : Action A) : Prop :=
  forall h w c w', m h w = (Exited c, w') -> c = code.

(** Every effect [m] requests satisfies [allowed]. *)
Definition footprint (allowed : Event -> bool) {A : Type} (m : Action A) : Prop :=
  forall h w,
    exists events,
      trace (snd (m h w)) = (trace w ++ events)%list /\
      forallb allowed events = true.

(** Every effect but the removal of a file tree. *)
Definition keeps_files (e : Event) : bool :=
  match e with
  | EvRm _ => false
  | _ => true
  end.

(** The visible ASCII characters: no white space in any reading of [\s]. *)
Definition graphic (c : ascii) : bool :=
  let n := nat_of_ascii c in
  ((33 <=? n) && (n <=? 126))%nat.

(** * Properties *)

(** ** Strings *)

Lemma startsWith_v_iff (s : string) :
  Js.startsWith s "v" = true <-> exists rest, s = String "v" rest.
Proof.
  split.
  - destruct s as [|c rest]; cbn [Js.startsWith]; [discriminate|].
    destruct (Ascii.eqb_spec "v" c) as [<-|]; [|discriminate].
    intros _. now exists rest.
  - intros [rest ->]. reflexivity.
Qed.

Lemma replace_trailing_slash_cons (c d : ascii) (s : string) :
  Js.replace_trailing_slash (String c (String d s))
  = String c (Js.replace_trailing_slash (String d s)).
Proof. reflexivity. Qed.

Lemma replace_trailing_slash_app (b : string) :
  Js.replace_trailing_slash (b ++ "/") = b.
Proof.
  induction b as [|c b IH]; [reflexivity|].
  destruct b as [|d b]; [reflexivity|].
  change ((String c (String d b)) ++ "/")
    with (String c (String d (b ++ "/"))).
  rewrite replace_trailing_slash_cons. f_equal. exact IH.
Qed.

Lemma endsWith_cons (c d : ascii) (s p : string) :
  String.length p = 1 ->
  Js.endsWith (String c (String d s)) p = Js.endsWith (String d s) p.
Proof.
  intros Hp. unfold Js.endsWith. rewrite Hp. simpl.
  now rewrite Nat.sub_0_r.
Qed.

Lemma replace_trailing_slash_id (b : string) :
  Js.endsWith b "/" = false -> Js.replace_trailing_slash b = b.
Proof.
  induction b as [|c b IH]; [reflexivity|].
  destruct b as [|d b].
  - unfold Js.endsWith. simpl.
    destruct (Ascii.eqb_spec c "/") as [->|]; [discriminate|reflexivity].
  - rewrite endsWith_cons by reflexivity. intros H.
    rewrite replace_trailing_slash_cons. now rewrite IH.
Qed.

(** ** Release planning *)

(** The shape of every successful plan. *)
Lemma planRelease_ok (input : InstallContext) (plan : ReleasePlan) :
  Release.planRelease input = Ok plan ->
  exists p a target,
    resolves input = Some (p, a, target) /\
    plan =
      {| plan_platform := p; plan_arch := a; plan_target := target;
         plan_tag := Release.make_tag (ctx_version input);
         plan_artifactUrl :=
           Js.replace_trailing_slash (ctx_baseUrl input) ++ "/"
           ++ ctx_repo input ++ "/releases/download/"
           ++ Release.make_tag (ctx_version input) ++ "/" ++ artifact target;
         plan_checksumUrl :=
           (Js.replace_trailing_slash (ctx_baseUrl input) ++ "/"
            ++ ctx_repo input ++ "/releases/download/"
            ++ Release.make_tag (ctx_version input) ++ "/" ++ artifact target)
           ++ ".sha256" |}.
Proof.
  unfold Release.planRelease, resolves,
    Platform.normalizePlatformOrThrow, Platform.normalizeArchOrThrow.
  destruct (Js.is_undefined (Platform.normalizePlatform _)); [discriminate|].
  cbn [bind_result].
  destruct (Js.is_undefined (Platform.normalizeArch _)); [discriminate|].
  cbn [bind_result].
  destruct (Targets.resolveTarget _ _) as [[[p a] target]|]; [|discriminate].
  intros [= <-]. now exists p, a, target.
Qed.

Lemma planRelease_of_resolves (input : InstallContext) p a target :
  resolves input = Some (p, a, target) ->
  exists plan, Release.planRelease input = Ok plan /\
               plan_platform plan = p /\ plan_arch plan = a /\
               plan_target plan = target.
Proof.
  unfold Release.planRelease, resolves,
    Platform.normalizePlatformOrThrow, Platform.normalizeArchOrThrow.
  destruct (Platform.normalizePlatform _) as [p'| |];
    destruct (Platform.normalizeArch _) as [a'| |];
    cbn [Js.is_undefined bind_result Targets.resolveTarget]; try discriminate.
  intros ->. eexists. split; [reflexivity|]. now cbn.
Qed.

Lemma make_tag_idempotent (v : string) :
  Release.make_tag (Release.make_tag v) = Release.make_tag v.
Proof.
  unfold Release.make_tag.
  destruct (Js.startsWith v "v") eqn:E; [now rewrite E|reflexivity].
Qed.

(** C1.  For platform "linux", architecture "x86_64", version "0.2.7",
    repository "curlpit-sh/cli" and the default base URL
    "https://github.com", [planRelease] returns a plan whose artifact URL is
    the published Linux x86_64 asset of tag v0.2.7 and whose checksum URL is
    that string followed by ".sha256".  The installer builds exactly this
    input when repository and base URL are left to their defaults. *)
Theorem planRelease_linux_x86_64_0_2_7 :
  NpmInstall.install_context scenario_host =
    {| ctx_platform := "linux"; ctx_arch := "x86_64";
       ctx_version := "0.2.7"; ctx_baseUrl := "https://github.com";
       ctx_repo := "curlpit-sh/cli" |} /\
  exists plan,
    Release.planRelease
      {| ctx_platform := "linux"; ctx_arch := "x86_64";
         ctx_version := "0.2.7"; ctx_baseUrl := "https://github.com";
         ctx_repo := "curlpit-sh/cli" |} = Ok plan /\
    plan_artifactUrl plan =
      "https://github.com/curlpit-sh/cli/releases/download/v0.2.7/curlpit-x86_64-unknown-linux-gnu.tar.xz" /\
    plan_checksumUrl plan =
      "https://github.com/curlpit-sh/cli/releases/download/v0.2.7/curlpit-x86_64-unknown-linux-gnu.tar.xz"
      ++ ".sha256".
Proof.
  split; [reflexivity|].
  eexists. split; [reflexivity|]. split; reflexivity.
Qed.

(** C4.  The tag of a plan is the version with "v" put in front when the
    version does not begin with the character 'v', and the version itself
    when it does; normalising a tag again changes nothing, and planning
    with the tag in place of the version yields the same plan. *)
Theorem planRelease_tag (input : InstallContext) (plan : ReleasePlan) :
  Release.planRelease input = Ok plan ->
  ((forall rest, ctx_version input <> String "v" rest) ->
     plan_tag plan = String "v" (ctx_version input)) /\
  ((exists rest, ctx_version input = String "v" rest) ->
     plan_tag plan = ctx_version input) /\
  Release.make_tag (plan_tag plan) = plan_tag plan /\
  Release.planRelease (with_version input (plan_tag plan)) = Ok plan.
Proof.
  intros H. pose proof H as H0.
  apply planRelease_ok in H as (p & a & target & Hres & ->).
  cbn [plan_tag]. repeat split.
  - intros Hno. unfold Release.make_tag.
    destruct (Js.startsWith (ctx_version input) "v") eqn:E; [|reflexivity].
    apply startsWith_v_iff in E as [rest E]. now apply Hno in E.
  - intros Hv. apply startsWith_v_iff in Hv.
    unfold Release.make_tag. now rewrite Hv.
  - apply make_tag_idempotent.
  - rewrite <- H0. unfold Release.planRelease, with_version.
    cbn [ctx_platform ctx_arch ctx_version ctx_baseUrl ctx_repo].
    now rewrite make_tag_idempotent.
Qed.

Lemma planRelease_tag_witness :
  exists plan,
    Release.planRelease
      {| ctx_platform := "Darwin"; ctx_arch := "arm64"; ctx_version := "1.4.0";
         ctx_baseUrl := "https://github.com"; ctx_repo := "curlpit-sh/cli" |}
    = Ok plan /\
    plan_tag plan = "v1.4.0" /\
    Release.make_tag (plan_tag plan) = plan_tag plan.
Proof.
  eexists. split; [reflexivity|].
  split.
  - refine (proj1 (planRelease_tag
             {| ctx_platform := "Darwin"; ctx_arch := "arm64";
                ctx_version := "1.4.0"; ctx_baseUrl := "https://github.com";
                ctx_repo := "curlpit-sh/cli" |} _ eq_refl) _).
    intros rest; discriminate.
  - reflexivity.
Defined.

(** C10.  For a base URL [b] that does not end in "/", planning with [b]
    and planning with [b] followed by one "/" give the same plan, hence the
    same artifact and checksum URLs; the artifact URL is [b], one "/", and
    the release path. *)
Theorem planRelease_trailing_slash
    (input : InstallContext) (b : string) (plan : ReleasePlan) :
  Js.endsWith b "/" = false ->
  Release.planRelease (with_baseUrl input b) = Ok plan ->
  Release.planRelease (with_baseUrl input (b ++ "/")) = Ok plan /\
  plan_artifactUrl plan =
    b ++ "/" ++ ctx_repo input ++ "/releases/download/" ++ plan_tag plan
      ++ "/" ++ artifact (plan_target plan) /\
  plan_checksumUrl plan = plan_artifactUrl plan ++ ".sha256".
Proof.
  intros Hb H. pose proof H as H0.
  apply planRelease_ok in H as (p & a & target & Hres & ->).
  split.
  - rewrite <- H0. unfold Release.planRelease, with_baseUrl.
    cbn [ctx_platform ctx_arch ctx_version ctx_baseUrl ctx_repo].
    now rewrite replace_trailing_slash_app, (replace_trailing_slash_id b Hb).
  - cbn [with_baseUrl ctx_baseUrl ctx_repo ctx_version plan_artifactUrl
         plan_checksumUrl plan_tag plan_target].
    rewrite (replace_trailing_slash_id b Hb). split; reflexivity.
Qed.

Lemma planRelease_trailing_slash_witness :
  exists plan,
    Release.planRelease
      {| ctx_platform := "win32"; ctx_arch := "AMD64"; ctx_version := "v0.3.0";
         ctx_baseUrl := "https://mirror.example/dl/";
         ctx_repo := "curlpit-sh/cli" |} = Ok plan /\
    plan_artifactUrl plan =
      "https://mirror.example/dl/curlpit-sh/cli/releases/download/v0.3.0/curlpit-x86_64-pc-windows-msvc.zip".
Proof.
  eexists.
  pose proof (planRelease_trailing_slash
                {| ctx_platform := "win32"; ctx_arch := "AMD64";
                   ctx_version := "v0.3.0"; ctx_baseUrl := "";
                   ctx_repo := "curlpit-sh/cli" |}
                "https://mirror.example/dl" _ eq_refl eq_refl) as (H & Hu & _).
  split; [exact H | exact Hu].
Defined.

Lemma planRelease_throws (input : InstallContext) :
  resolves input = None ->
  Release.planRelease input = Throw (unsupported_error input).
Proof.
  unfold Release.planRelease, resolves, unsupported_error,
    Platform.normalizePlatformOrThrow, Platform.normalizeArchOrThrow.
  destruct (Platform.normalizePlatform _) as [p| |];
    destruct (Platform.normalizeArch _) as [a| |];
    cbn [Js.is_undefined bind_result Targets.resolveTarget]; try reflexivity.
  destruct (Targets.TARGET_MATRIX p a); [discriminate|reflexivity].
Qed.

Lemma npm_run_plan_failure (h : Host) (w : World) (e : Error) :
  env_truthy (env h "CURLPIT_SKIP_POSTINSTALL") = false ->
  Release.planRelease (NpmInstall.install_context h) = Throw e ->
  NpmInstall.run h w =
    (Exited 1,
     log_line w Stderr
       ("Unexpected error during curlpit installation: " ++ error_stack h e)).
Proof.
  intros Hskip Hplan.
  unfold NpmInstall.run, NpmInstall.unexpected, try_catch, NpmInstall.main,
    bind, ask.
  rewrite Hskip, Hplan. reflexivity.
Qed.

(** C3 (as the code has it).  For every pair that does not resolve to an
    entry of the target matrix, [planRelease] throws and returns no plan.
    The message names the platform alone when the platform is not
    recognised, the architecture alone when only the architecture is not
    recognised, and the pair [platform/arch] when both are recognised but
    the matrix has no entry.  The installer then stops with status 1
    without having requested any effect: the file system and the effect
    trace (in particular, network requests) are unchanged. *)
Theorem planRelease_unsupported (input : InstallContext) :
  resolves input = None ->
  Release.planRelease input = Throw (unsupported_error input) /\
  forall (h : Host) (w : World),
    NpmInstall.install_context h = input ->
    env_truthy (env h "CURLPIT_SKIP_POSTINSTALL") = false ->
    fst (NpmInstall.run h w) = Exited 1 /\
    fs (snd (NpmInstall.run h w)) = fs w /\
    trace (snd (NpmInstall.run h w)) = trace w.
Proof.
  intros Hres. split; [now apply planRelease_throws|].
  intros h w <- Hskip.
  rewrite (npm_run_plan_failure h w _ Hskip (planRelease_throws _ Hres)).
  repeat split.
Qed.

Lemma planRelease_unsupported_witness :
  Release.planRelease
    {| ctx_platform := "win32"; ctx_arch := "arm64"; ctx_version := "0.2.7";
       ctx_baseUrl := "https://github.com"; ctx_repo := "curlpit-sh/cli" |}
  = Throw "Unsupported platform/architecture combination: win32/arm64" /\
  fst (NpmInstall.run windows_arm_host (empty_world machine)) = Exited 1 /\
  fs (snd (NpmInstall.run windows_arm_host (empty_world machine))) = machine /\
  trace (snd (NpmInstall.run windows_arm_host (empty_world machine))) = [].
Proof.
  destruct (planRelease_unsupported
              {| ctx_platform := "win32"; ctx_arch := "arm64";
                 ctx_version := "0.2.7"; ctx_baseUrl := "https://github.com";
                 ctx_repo := "curlpit-sh/cli" |} eq_refl) as [Hplan Hrun].
  split; [exact Hplan|].
  exact (Hrun windows_arm_host (empty_world machine) eq_refl eq_refl).
Defined.

(** C3 as stated fails: for an unrecognised platform the error does not
    name the pair, it does not even mention the architecture. *)
Lemma planRelease_unrecognized_platform_names_no_pair :
  let input :=
    {| ctx_platform := "solaris"; ctx_arch := "sparc"; ctx_version := "0.2.7";
       ctx_baseUrl := "https://github.com"; ctx_repo := "curlpit-sh/cli" |} in
  resolves input = None /\
  Release.planRelease input = Throw "Unsupported platform: solaris" /\
  Js.includes "Unsupported platform: solaris" "solaris/sparc" = false /\
  Js.includes "Unsupported platform: solaris" "sparc" = false.
Proof.
  repeat split; reflexivity.
Qed.

(** ** Platform and architecture names *)

Lemma lower_ascii_idempotent (c : ascii) :
  Js.lower_ascii (Js.lower_ascii c) = Js.lower_ascii c.
Proof.
  destruct c as [[] [] [] [] [] [] [] []]; reflexivity.
Qed.

Lemma toLowerCase_idempotent (s : string) :
  Js.toLowerCase (Js.toLowerCase s) = Js.toLowerCase s.
Proof.
  induction s as [|c s IH]; [reflexivity|].
  cbn [Js.toLowerCase]. now rewrite lower_ascii_idempotent, IH.
Qed.

(** A lower-cased key can only be one of the two all-lower-case members of
    [Object.prototype]. *)
Lemma lowered_prototype_key (s : string) :
  Js.mem_string (Js.toLowerCase s) Js.object_prototype_keys =
  String.eqb (Js.toLowerCase s) "constructor"
  || String.eqb (Js.toLowerCase s) "__proto__".
Proof.
  unfold Js.mem_string, Js.object_prototype_keys. cbn [existsb].
  pose proof (toLowerCase_idempotent s) as Hid.
  repeat match goal with
  | |- context [String.eqb (Js.toLowerCase s) ?k] =>
      lazymatch k with
      | "constructor" => fail
      | "__proto__" => fail
      | _ =>
          destruct (String.eqb_spec (Js.toLowerCase s) k) as [E|_];
          [rewrite E in Hid; discriminate Hid|]
      end
  end.
  now rewrite !orb_false_r.
Qed.

(** Aliases are matched without regard to case, and an unrecognised name
    is reported by a value, never by an exception. *)
Lemma normalizeArch_alias (s : string) (a : NormalizedArch) :
  Js.own_property Platform.ARCH_ALIASES (Js.toLowerCase s) = Some a ->
  Platform.normalizeArch (Some s) = Js.Own a.
Proof.
  intros H. unfold Platform.normalizeArch, Js.get.
  destruct s; [discriminate|]. cbn [Js.truthy negb]. now rewrite H.
Qed.

Lemma normalizePlatform_alias (s : string) (p : NormalizedPlatform) :
  Js.own_property Platform.PLATFORM_ALIASES (Js.toLowerCase s) = Some p ->
  Platform.normalizePlatform (Some s) = Js.Own p.
Proof.
  intros H. unfold Platform.normalizePlatform, Js.get.
  destruct s; [discriminate|]. cbn [Js.truthy negb]. now rewrite H.
Qed.

Lemma normalize_aliases_case_insensitive (s : string) :
  (Js.toLowerCase s = "x86_64" \/ Js.toLowerCase s = "amd64" ->
     Platform.normalizeArch (Some s) = Js.Own x64) /\
  (Js.toLowerCase s = "aarch64" \/ Js.toLowerCase s = "arm64" ->
     Platform.normalizeArch (Some s) = Js.Own arm64) /\
  (Js.toLowerCase s = "macos" \/ Js.toLowerCase s = "osx" ->
     Platform.normalizePlatform (Some s) = Js.Own darwin) /\
  (Js.toLowerCase s = "windows" \/ Js.toLowerCase s = "win32" ->
     Platform.normalizePlatform (Some s) = Js.Own win32).
Proof.
  repeat split; intros [H|H];
    (apply normalizeArch_alias || apply normalizePlatform_alias);
    now rewrite H.
Qed.

(** Apart from the aliases, the only names that do not normalise to
    [undefined] are the two inherited keys. *)
Lemma normalizePlatform_undefined (s : string) :
  Js.own_property Platform.PLATFORM_ALIASES (Js.toLowerCase s) = None ->
  Js.toLowerCase s <> "constructor" ->
  Js.toLowerCase s <> "__proto__" ->
  Platform.normalizePlatform (Some s) = Js.Undefined.
Proof.
  intros Hown Hc Hp. unfold Platform.normalizePlatform, Js.get.
  destruct (negb (Js.truthy s)); [reflexivity|].
  rewrite Hown, lowered_prototype_key.
  apply String.eqb_neq in Hc, Hp. now rewrite Hc, Hp.
Qed.

(** C8 fails on the code at the names inherited from [Object.prototype]:
    "constructor" and "__proto__" (in any letter case) are not aliases, yet
    both normalisers return the inherited member instead of [undefined],
    and the strict variants accept it. *)
Theorem normalize_inherited_names :
  Platform.normalizePlatform (Some "constructor") = Js.Inherited "constructor" /\
  Platform.normalizeArch (Some "constructor") = Js.Inherited "constructor" /\
  Platform.normalizePlatform (Some "__PROTO__") = Js.Inherited "__proto__" /\
  Platform.normalizeArch (Some "__proto__") = Js.Inherited "__proto__" /\
  Platform.normalizePlatformOrThrow "constructor"
    = Ok (Js.Inherited "constructor") /\
  Release.planRelease
    {| ctx_platform := "constructor"; ctx_arch := "x64"; ctx_version := "0.2.7";
       ctx_baseUrl := "https://github.com"; ctx_repo := "curlpit-sh/cli" |}
  = Throw "Unsupported platform/architecture combination: constructor/x64".
Proof.
  repeat split; reflexivity.
Qed.

(** ** Checksum verification *)

Lemma hex_digits_lowercase (c : ascii) :
  lower_hex_digit (Download.hex_digit (N_of_ascii c / 16))
  && lower_hex_digit (Download.hex_digit (N_of_ascii c mod 16)) = true.
Proof.
  destruct c as [[] [] [] [] [] [] [] []]; vm_compute; reflexivity.
Qed.

Lemma hex_lowercase (b : bytes) :
  all_chars lower_hex_digit (Download.hex b) = true.
Proof.
  induction b as [|c b IH]; [reflexivity|].
  cbn [Download.hex all_chars]. rewrite IH, andb_true_r.
  apply hex_digits_lowercase.
Qed.

Lemma hex_length (b : bytes) :
  String.length (Download.hex b) = 2 * String.length b.
Proof.
  induction b as [|c b IH]; [reflexivity|].
  cbn [Download.hex String.length]. rewrite IH. lia.
Qed.

Lemma verifyChecksum_run (h : Host) (w : World) (filePath : path)
                         (expected : string) (content : bytes) (mode : N) :
  Fs.lookup (fs w) filePath = Some (File content mode) ->
  Download.verifyChecksum filePath expected h w =
    ((if String.eqb (Download.hex (sha256 h content)) expected
      then Returned tt
      else Thrown ("Checksum mismatch: expected " ++ expected ++ ", got "
                   ++ Download.hex (sha256 h content))),
     traced w [EvReadFile filePath]).
Proof.
  intros Hfile.
  unfold Download.verifyChecksum, Prim.readFile, Prim.emit, Prim.get_fs,
    bind, ask, ret, throw.
  cbn [fs]. rewrite Hfile.
  now destruct (String.eqb _ expected).
Qed.

(** C5.  For a readable file, [verifyChecksum] succeeds exactly when the
    lower-case hexadecimal digest of the file's contents equals the
    expected digest as a string; otherwise it throws a mismatch error whose
    message contains the expected and the actual digest. *)
Theorem verifyChecksum_iff (h : Host) (w : World) (filePath : path)
                           (expected : string) (content : bytes) (mode : N) :
  Fs.lookup (fs w) filePath = Some (File content mode) ->
  (fst (Download.verifyChecksum filePath expected h w) = Returned tt
   <-> Download.hex (sha256 h content) = expected) /\
  (Download.hex (sha256 h content) <> expected ->
   fst (Download.verifyChecksum filePath expected h w) =
     Thrown ("Checksum mismatch: expected " ++ expected ++ ", got "
             ++ Download.hex (sha256 h content))) /\
  all_chars lower_hex_digit (Download.hex (sha256 h content)) = true.
Proof.
  intros Hfile. rewrite (verifyChecksum_run h w _ _ _ _ Hfile). cbn [fst].
  split; [|split; [|apply hex_lowercase]].
  - destruct (String.eqb_spec (Download.hex (sha256 h content)) expected);
      split; intros H; auto; try discriminate; contradiction.
  - intros Hne.
    destruct (String.eqb_spec (Download.hex (sha256 h content)) expected);
      [contradiction|reflexivity].
Qed.

Lemma verifyChecksum_iff_witness :
  fst (Download.verifyChecksum ["tmp"; "curlpit.tar.xz"]
         "ba7816bf8f01cfea414140de5dae2223b00361a396177a9cb410ff61f20015ad"
         offline_host
         (empty_world (Dir [("tmp", Dir [("curlpit.tar.xz", File "abc" 420)])])))
  = Returned tt.
Proof.
  apply (proj1 (verifyChecksum_iff offline_host
                  (empty_world
                     (Dir [("tmp", Dir [("curlpit.tar.xz", File "abc" 420)])]))
                  ["tmp"; "curlpit.tar.xz"] _ "abc" 420%N eq_refl)).
  vm_compute. reflexivity.
Defined.

Example verifyChecksum_mutated_byte :
  fst (Download.verifyChecksum ["tmp"; "curlpit.tar.xz"]
         "ba7816bf8f01cfea414140de5dae2223b00361a396177a9cb410ff61f20015ad"
         offline_host
         (empty_world (Dir [("tmp", Dir [("curlpit.tar.xz", File "abd" 420)])])))
  = Thrown "Checksum mismatch: expected ba7816bf8f01cfea414140de5dae2223b00361a396177a9cb410ff61f20015ad, got a52d159f262b2c6ddb724a61840befc36eb30c88877a4030b65cbe86298449c9".
Proof. vm_compute. reflexivity. Qed.

(** ** The file-system model *)

Lemma get_set_entry_same (es : list (string * node)) (k : string) (n : node) :
  Fs.get_entry (Fs.set_entry es k n) k = Some n.
Proof.
  induction es as [|[k' old] es IH]; cbn [Fs.set_entry Fs.get_entry].
  - now rewrite String.eqb_refl.
  - destruct (String.eqb_spec k' k) as [->|Hne]; cbn [Fs.get_entry].
    + now rewrite String.eqb_refl.
    + apply String.eqb_neq in Hne. now rewrite Hne.
Qed.

Lemma get_set_entry_other (es : list (string * node)) (k k' : string) (n : node) :
  k <> k' ->
  Fs.get_entry (Fs.set_entry es k n) k' = Fs.get_entry es k'.
Proof.
  intros Hne. induction es as [|[k0 old] es IH]; cbn [Fs.set_entry Fs.get_entry].
  - apply String.eqb_neq in Hne. now rewrite Hne.
  - destruct (String.eqb_spec k0 k) as [->|Hk]; cbn [Fs.get_entry].
    + apply String.eqb_neq in Hne. now rewrite Hne.
    + now rewrite IH.
Qed.

Lemma lookup_put_same (p : path) :
  forall (root root' new : node),
    Fs.put root p new = Some root' -> Fs.lookup root' p = Some new.
Proof.
  induction p as [|seg rest IH]; intros root root' new; [discriminate|].
  cbn [Fs.put]. destruct root as [|es]; [discriminate|].
  destruct rest as [|seg' rest'].
  - intros [= <-]. cbn [Fs.lookup]. now rewrite get_set_entry_same.
  - destruct (Fs.get_entry es seg) as [child|]; [|discriminate].
    destruct (Fs.put child (seg' :: rest') new) as [child'|] eqn:E; [|discriminate].
    intros [= <-]. cbn [Fs.lookup]. rewrite get_set_entry_same.
    exact (IH _ _ _ E).
Qed.

(** A path below an existing directory can be written. *)
Lemma put_below_dir (dir : path) (name : string) (new : node) :
  forall (root : node) (es : list (string * node)),
    Fs.lookup root dir = Some (Dir es) ->
    exists root', Fs.put root (dir ++ [name])%list new = Some root'.
Proof.
  induction dir as [|seg rest IH]; intros root es.
  - cbn. intros [= ->]. eauto.
  - cbn [Fs.lookup app]. destruct root as [|es0]; [discriminate|].
    destruct (Fs.get_entry es0 seg) as [child|] eqn:G; [|discriminate].
    intros Hl. destruct (IH child es Hl) as [child' Hput].
    cbn [Fs.put]. rewrite G.
    destruct (rest ++ [name])%list as [|s l] eqn:E.
    + now destruct rest.
    + rewrite Hput. eauto.
Qed.

Lemma mkdir_p_is_dir (p : path) :
  forall (root root' : node),
    Fs.mkdir_p root p = Some root' ->
    exists es, Fs.lookup root' p = Some (Dir es).
Proof.
  induction p as [|seg rest IH]; intros root root'; cbn [Fs.mkdir_p].
  - destruct root; [discriminate|]. intros [= <-]. cbn. eauto.
  - destruct root as [|es]; [discriminate|].
    destruct (Fs.mkdir_p _ rest) as [child'|] eqn:E; [|discriminate].
    intros [= <-]. cbn [Fs.lookup]. rewrite get_set_entry_same.
    exact (IH _ _ E).
Qed.

(** Creating directories leaves every existing regular file as it is. *)
Lemma mkdir_p_keeps_files (p : path) :
  forall (root root' : node) (q : path) (content : bytes) (mode : N),
    Fs.mkdir_p root p = Some root' ->
    Fs.lookup root q = Some (File content mode) ->
    Fs.lookup root' q = Some (File content mode).
Proof.
  induction p as [|seg rest IH]; intros root root' q content mode;
    cbn [Fs.mkdir_p].
  - destruct root; [discriminate|]. now intros [= <-].
  - destruct root as [|es]; [discriminate|].
    destruct (Fs.mkdir_p _ rest) as [child'|] eqn:E; [|discriminate].
    intros [= <-]. destruct q as [|s q']; [discriminate|].
    cbn [Fs.lookup].
    destruct (String.eqb_spec seg s) as [<-|Hne].
    + rewrite get_set_entry_same.
      destruct (Fs.get_entry es seg) as [child|]; [|discriminate].
      intros Hl. exact (IH _ _ _ _ _ E Hl).
    + now rewrite get_set_entry_other.
Qed.

(** It does not touch the entries of the directory it ensures. *)
Lemma mkdir_p_keeps_below (p : path) (name : string) :
  forall (root root' : node),
    Fs.mkdir_p root p = Some root' ->
    Fs.lookup root' (p ++ [name])%list = Fs.lookup root (p ++ [name])%list.
Proof.
  induction p as [|seg rest IH]; intros root root'; cbn [Fs.mkdir_p].
  - destruct root; [discriminate|]. now intros [= <-].
  - destruct root as [|es]; [discriminate|].
    destruct (Fs.mkdir_p _ rest) as [child'|] eqn:E; [|discriminate].
    intros [= <-]. cbn [Fs.lookup app]. rewrite get_set_entry_same.
    rewrite (IH _ _ E).
    destruct (Fs.get_entry es seg) as [child|]; [reflexivity|].
    destruct rest; reflexivity.
Qed.

(** A path that was written once can be written again. *)
Lemma put_again (p : path) :
  forall (root root' new new2 : node),
    Fs.put root p new = Some root' ->
    exists root'', Fs.put root' p new2 = Some root''.
Proof.
  induction p as [|seg rest IH]; intros root root' new new2; [discriminate|].
  cbn [Fs.put]. destruct root as [|es]; [discriminate|].
  destruct rest as [|seg' rest'].
  - intros [= <-]. eauto.
  - destruct (Fs.get_entry es seg) as [child|]; [|discriminate].
    destruct (Fs.put child (seg' :: rest') new) as [child'|] eqn:E; [|discriminate].
    intros [= <-]. rewrite get_set_entry_same.
    destruct (IH _ _ _ new2 E) as [child'' ->]. eauto.
Qed.

(** ** Running the primitives *)

Lemma bind_returned {A B : Type} (m : Action A) (k : A -> Action B)
      (h : Host) (w w' : World) (a : A) :
  m h w = (Returned a, w') -> bind m k h w = k a h w'.
Proof. intros H. unfold bind. now rewrite H. Qed.

Lemma bind_thrown {A B : Type} (m : Action A) (k : A -> Action B)
      (h : Host) (w w' : World) (e : Error) :
  m h w = (Thrown e, w') -> bind m k h w = (Thrown e, w').
Proof. intros H. unfold bind. now rewrite H. Qed.

Lemma bind_exited {A B : Type} (m : Action A) (k : A -> Action B)
      (h : Host) (w w' : World) (c : Z) :
  m h w = (Exited c, w') -> bind m k h w = (Exited c, w').
Proof. intros H. unfold bind. now rewrite H. Qed.

Lemma mkdir_recursive_run (h : Host) (w : World) (p : path) (root' : node) :
  Fs.mkdir_p (fs w) p = Some root' ->
  Prim.mkdir_recursive p h w =
    (Returned tt,
     {| fs := root'; console := console w;
        trace := (trace w ++ [EvMkdir p])%list |}).
Proof.
  intros H. unfold Prim.mkdir_recursive, Prim.emit, Prim.get_fs, Prim.set_fs,
    bind. cbn. now rewrite H.
Qed.

Lemma copyFile_run (h : Host) (w : World) (src dst : path)
      (content : bytes) (mode : N) (root' : node) :
  Fs.lookup (fs w) src = Some (File content mode) ->
  is_dir (Fs.lookup (fs w) dst) = false ->
  Fs.put (fs w) dst (File content mode) = Some root' ->
  Prim.copyFile src dst h w =
    (Returned tt,
     {| fs := root'; console := console w;
        trace := (trace w ++ [EvCopyFile src dst])%list |}).
Proof.
  intros Hsrc Hdst Hput.
  unfold Prim.copyFile, Prim.emit, Prim.get_fs, Prim.set_fs, bind. cbn.
  rewrite Hsrc.
  destruct (Fs.lookup (fs w) dst) as [[c0 m0|es0]|]; try discriminate;
    now rewrite Hput.
Qed.

Lemma copyFile_directory (h : Host) (w : World) (src dst : path)
      (es : list (string * node)) :
  Fs.lookup (fs w) src = Some (Dir es) ->
  Prim.copyFile src dst h w = (Thrown "EISDIR", traced w [EvCopyFile src dst]).
Proof.
  intros Hsrc.
  unfold Prim.copyFile, Prim.emit, Prim.get_fs, Prim.set_fs, bind. cbn.
  now rewrite Hsrc.
Qed.

Lemma chmod_run (h : Host) (w : World) (p : path)
      (content : bytes) (old mode : N) (root' : node) :
  Fs.lookup (fs w) p = Some (File content old) ->
  Fs.put (fs w) p (File content mode) = Some root' ->
  Prim.chmod p mode h w =
    (Returned tt,
     {| fs := root'; console := console w;
        trace := (trace w ++ [EvChmod p mode])%list |}).
Proof.
  intros Hl Hput.
  unfold Prim.chmod, Prim.emit, Prim.get_fs, Prim.set_fs, bind. cbn.
  now rewrite Hl, Hput.
Qed.

(** ** Installing a local binary *)







(** ** Locating the binary *)

Lemma locate_nil (dir : path) : Extract.locate dir (Dir []) = None.
Proof. reflexivity. Qed.

Lemma locate_cons_file (dir : path) (name : string) (content : bytes) (mode : N)
      (rest : list (string * node)) :
  Extract.locate dir (Dir ((name, File content mode) :: rest)) =
    if Js.startsWith name "curlpit" then Some (Path.join dir name)
    else Extract.locate dir (Dir rest).
Proof. reflexivity. Qed.

Lemma locate_cons_dir (dir : path) (name : string) (sub rest : list (string * node)) :
  Extract.locate dir (Dir ((name, Dir sub) :: rest)) =
    match Extract.locate (Path.join dir name) (Dir sub) with
    | Some nested => Some nested
    | None => Extract.locate dir (Dir rest)
    end.
Proof. reflexivity. Qed.

Lemma files_below_cons_file (dir : path) (name : string) (content : bytes)
      (mode : N) (rest : list (string * node)) :
  files_below dir (Dir ((name, File content mode) :: rest)) =
    (Path.join dir name, name) :: files_below dir (Dir rest).
Proof. reflexivity. Qed.

Lemma files_below_cons_dir (dir : path) (name : string)
      (sub rest : list (string * node)) :
  files_below dir (Dir ((name, Dir sub) :: rest)) =
    (files_below (Path.join dir name) (Dir sub) ++ files_below dir (Dir rest))%list.
Proof. reflexivity. Qed.

(** Induction over trees: a property of a directory may rely on the
    property of each of its entries. *)
Fixpoint node_tree_ind (P : node -> Prop)
    (HFile : forall content mode, P (File content mode))
    (HDir : forall es, Forall (fun e => P (snd e)) es -> P (Dir es))
    (n : node) {struct n} : P n :=
  match n with
  | File content mode => HFile content mode
  | Dir es =>
      HDir es
        ((fix all (l : list (string * node)) : Forall (fun e => P (snd e)) l :=
            match l with
            | [] => Forall_nil _
            | (k, c) :: rest =>
                Forall_cons (k, c) (node_tree_ind P HFile HDir c) (all rest)
            end) es)
  end.

Lemma find_app {A : Type} (f : A -> bool) (l1 l2 : list A) :
  find f (l1 ++ l2)%list =
    match find f l1 with
    | Some a => Some a
    | None => find f l2
    end.
Proof.
  induction l1 as [|a l1 IH]; [reflexivity|].
  cbn [find app]. now destruct (f a).
Qed.

(** [locateBinary] is a depth-first search: it returns the first regular
    file, in walk order, whose name begins with "curlpit". *)
Lemma locate_first_match (n : node) :
  forall dir : path,
    Extract.locate dir n =
      option_map fst (find has_prefix_curlpit (files_below dir n)).
Proof.
  induction n as [content mode|es IH] using node_tree_ind; intros dir;
    [reflexivity|].
  induction es as [|[name child] rest IHrest]; [reflexivity|].
  inversion IH as [|e l Hchild Hrest]; subst.
  specialize (IHrest Hrest). cbn [snd] in Hchild.
  destruct child as [content mode|sub].
  - rewrite locate_cons_file, files_below_cons_file. cbn [find].
    unfold has_prefix_curlpit at 1. cbn [snd].
    destruct (Js.startsWith name "curlpit"); [reflexivity|exact IHrest].
  - rewrite locate_cons_dir, files_below_cons_dir, find_app, Hchild.
    destruct (find has_prefix_curlpit (files_below (Path.join dir name) (Dir sub)));
      [reflexivity|exact IHrest].
Qed.

(** Every artifact of the target matrix carries the product prefix, so the
    downloaded archive is itself a candidate of the search. *)
Lemma artifact_has_prefix (p : NormalizedPlatform) (a : NormalizedArch)
      (t : TargetDescriptor) :
  Targets.TARGET_MATRIX p a = Some t ->
  Js.startsWith (artifact t) "curlpit" = true.
Proof.
  destruct p, a; cbn; intros [= <-]; reflexivity.
Qed.

(** With a prefixed regular file at the top of the scratch directory the
    search never comes back empty. *)
Lemma locate_with_archive (dir : path) (es : list (string * node))
      (name : string) (content : bytes) (mode : N) :
  In (name, File content mode) es ->
  Js.startsWith name "curlpit" = true ->
  Extract.locate dir (Dir es) <> None.
Proof.
  intros Hin Hpre. induction es as [|[k child] rest IH]; [contradiction|].
  destruct Hin as [[= -> ->]|Hin].
  - rewrite locate_cons_file, Hpre. discriminate.
  - destruct child as [c m|sub].
    + rewrite locate_cons_file.
      destruct (Js.startsWith k "curlpit"); [discriminate|auto].
    + rewrite locate_cons_dir.
      destruct (Extract.locate (Path.join dir k) (Dir sub));
        [discriminate|auto].
Qed.

(** C2 fails on the shared extractor: the archive is not excluded from the
    search.  After a successful extraction of an archive that holds no file
    with the prefix, [extractArchive] returns the path of the archive
    itself instead of reporting that the binary is missing, and the
    installer goes on to install the archive's bytes as the executable. *)
Theorem extractArchive_returns_the_archive :
  find has_prefix_curlpit (files_below scratch (Dir defective_payload)) = None /\
  fst (Extract.extractArchive (Path.join scratch linux_archive_name) scratch
         linux None (linux_host defective_payload) (empty_world downloaded))
    = Returned (Path.join scratch linux_archive_name) /\
  (let r := NpmInstall.run (linux_host defective_payload) (empty_world machine) in
   fst r = Returned tt /\
   Fs.lookup (fs (snd r)) ["opt"; "curlpit"; "bin"; "curlpit"]
     = Some (File "xz-archive-bytes" 493)).
Proof.
  repeat split; vm_compute; reflexivity.
Qed.

(** The earlier installer skips the archive by name, and reports the
    missing binary on the same input. *)
Example install_js_skips_the_archive :
  InstallJs.pick scratch linux_archive_name
    [ ("pkg", Dir [ ("README.md", File "curlpit" 420) ]);
      (linux_archive_name, File "xz-archive-bytes" 420) ] = None.
Proof. reflexivity. Qed.

(** ** External extraction tools *)

Lemma runCommand_nonzero (h : Host) (w : World) (command : string)
      (args : list string) (code : Z) :
  child_exit (spawn h command args (fs w)) = ExitCode code ->
  code <> 0%Z ->
  Extract.runCommand command args h w =
    (Thrown (command ++ " exited with code " ++ Z_to_string code),
     after_child w command args (spawn h command args (fs w))).
Proof.
  intros Hexit Hcode.
  unfold Extract.runCommand, Prim.run_child, Prim.emit, Prim.get_fs,
    Prim.set_fs, Prim.print, bind, ask, ret, throw, after_child.
  cbn [fs console trace]. rewrite Hexit.
  destruct (Js.truthy (child_stderr (spawn h command args (fs w))));
    destruct code; try contradiction; cbn [fs console trace];
    rewrite ?app_nil_r; reflexivity.
Qed.

Lemma runCommand_returns (h : Host) (w : World) (command : string)
      (args : list string) :
  fst (Extract.runCommand command args h w) = Returned tt ->
  child_exit (spawn h command args (fs w)) = ExitCode 0.
Proof.
  unfold Extract.runCommand, Prim.run_child, Prim.emit, Prim.get_fs,
    Prim.set_fs, Prim.print, bind, ask, ret, throw.
  cbn [fs console trace].
  destruct (child_exit (spawn h command args (fs w))) as [e|code|sig];
    [ | destruct code | ];
    destruct (Js.truthy (child_stderr (spawn h command args (fs w))));
    cbn [fst]; try discriminate; reflexivity.
Qed.

Lemma check_output_nonzero (h : Host) (w : World) (command : string)
      (args : list string) (code : Z) :
  child_exit (spawn h command args (fs w)) = ExitCode code ->
  code <> 0%Z ->
  exists w',
    DenoInstall.check_output command args h w =
      (Thrown (child_stderr (spawn h command args (fs w))), w').
Proof.
  intros Hexit Hcode.
  unfold DenoInstall.check_output, DenoInstall.command_output, Prim.run_child,
    Prim.emit, Prim.get_fs, Prim.set_fs, bind, ask, ret, throw.
  cbn [fs console trace]. rewrite Hexit.
  destruct code; try contradiction; eexists; reflexivity.
Qed.

Lemma bind_fst_returned {A B : Type} (m : Action A) (k : A -> Action B)
      (h : Host) (w : World) (b : B) :
  fst (bind m k h w) = Returned b ->
  exists a w', m h w = (Returned a, w') /\ fst (k a h w') = Returned b.
Proof.
  unfold bind. destruct (m h w) as [[a|e|c] w']; cbn [fst]; try discriminate.
  intros H. now exists a, w'.
Qed.

(** The shared extractor returns only after the tool selected by the
    extraction table has exited with code 0. *)
Lemma extractArchive_needs_exit_0 (h : Host) (w : World)
      (archivePath tempDir : path) (platform : NormalizedPlatform)
      (tarPath : option string) (found : path) :
  fst (Extract.extractArchive archivePath tempDir platform tarPath h w)
    = Returned found ->
  exists command args,
    extraction_tool archivePath tempDir platform tarPath = Some (command, args) /\
    child_exit (spawn h command args (fs w)) = ExitCode 0.
Proof.
  unfold Extract.extractArchive, extraction_tool. intros H.
  fold (Extract.tar_command tarPath).
  apply bind_fst_returned in H as ([] & w' & Hrun & _).
  assert (Hfst : forall c a,
             Extract.runCommand c a h w = (Returned tt, w') ->
             exists command args,
               Some (c, a) = Some (command, args) /\
               child_exit (spawn h command args (fs w)) = ExitCode 0).
  { intros c a E. exists c, a. split; [reflexivity|].
    apply runCommand_returns. now rewrite E. }
  destruct (Js.endsWith _ ".tar.gz"); [eauto|].
  destruct (Js.endsWith _ ".tar.xz"); [eauto|].
  destruct (Js.endsWith _ ".zip"); [|discriminate].
  destruct platform; eauto.
Qed.

(** A suffix outside the table is refused before any tool is started. *)
Lemma extractArchive_unsupported_format (h : Host) (w : World)
      (archivePath tempDir : path) (platform : NormalizedPlatform)
      (tarPath : option string) :
  extraction_tool archivePath tempDir platform tarPath = None ->
  Extract.extractArchive archivePath tempDir platform tarPath h w =
    (Thrown ("Unsupported archive format: " ++ Path.to_string archivePath), w).
Proof.
  unfold Extract.extractArchive, extraction_tool.
  destruct (Js.endsWith _ ".tar.gz"); [discriminate|].
  destruct (Js.endsWith _ ".tar.xz"); [discriminate|].
  destruct (Js.endsWith _ ".zip"); [destruct platform; discriminate|].
  reflexivity.
Qed.

Lemma extractArchive_tool_failure (h : Host) (w : World)
      (archivePath tempDir : path) (platform : NormalizedPlatform)
      (tarPath : option string) (command : string) (args : list string)
      (code : Z) :
  extraction_tool archivePath tempDir platform tarPath = Some (command, args) ->
  child_exit (spawn h command args (fs w)) = ExitCode code ->
  code <> 0%Z ->
  Extract.extractArchive archivePath tempDir platform tarPath h w
    = (Thrown (command ++ " exited with code " ++ Z_to_string code),
       after_child w command args (spawn h command args (fs w))).
Proof.
  intros Htool Hexit Hcode.
  pose proof (runCommand_nonzero h w command args code Hexit Hcode) as Hrun.
  unfold extraction_tool in Htool. unfold Extract.extractArchive.
  fold (Extract.tar_command tarPath) in Htool.
  destruct (Js.endsWith _ ".tar.gz");
    [injection Htool as <- <-; now rewrite (bind_thrown _ _ _ _ _ _ Hrun)|].
  destruct (Js.endsWith _ ".tar.xz");
    [injection Htool as <- <-; now rewrite (bind_thrown _ _ _ _ _ _ Hrun)|].
  destruct (Js.endsWith _ ".zip"); [|discriminate].
  destruct platform; injection Htool as <- <-;
    now rewrite (bind_thrown _ _ _ _ _ _ Hrun).
Qed.

Lemma deno_extractArchive_tool_failure (h : Host) (w : World)
      (archivePath tempDir : path) (platform : NormalizedPlatform)
      (command : string) (args : list string) (code : Z) :
  extraction_tool archivePath tempDir platform (env h "TAR_PATH")
    = Some (command, args) ->
  child_exit (spawn h command args (fs w)) = ExitCode code ->
  code <> 0%Z ->
  fst (DenoInstall.extractArchive archivePath tempDir (is_win32 platform) h w)
    = Thrown (child_stderr (spawn h command args (fs w))).
Proof.
  intros Htool Hexit Hcode.
  destruct (check_output_nonzero h w command args code Hexit Hcode) as [w' Hrun].
  unfold extraction_tool in Htool.
  unfold DenoInstall.extractArchive, DenoInstall.runTar.
  fold (nullish (env h "TAR_PATH") "tar") in Htool.
  destruct (Js.endsWith _ ".tar.gz").
  { injection Htool as <- <-.
    erewrite bind_thrown; [reflexivity|].
    erewrite bind_returned by reflexivity. exact Hrun. }
  destruct (Js.endsWith _ ".tar.xz").
  { injection Htool as <- <-.
    erewrite bind_thrown; [reflexivity|].
    erewrite bind_returned by reflexivity. exact Hrun. }
  destruct (Js.endsWith _ ".zip"); [|discriminate].
  destruct platform; injection Htool as <- <-; cbn [is_win32];
    now rewrite (bind_thrown _ _ _ _ _ _ Hrun).
Qed.

(** C9 (as the code has it).  Whichever external tool the archive's suffix
    and the platform select (tar, unzip or PowerShell Expand-Archive), a
    non-zero exit of that tool makes the extraction fail: it is never
    ignored.  In the shared extractor the error reads "<command> exited
    with code <code>"; the tool's standard error has gone to the
    installer's own standard error and is not part of the error.  In the
    standalone Deno installer the error message is the tool's captured
    standard-error text. *)
Theorem tool_failure_is_surfaced (h : Host) (w : World)
      (archivePath tempDir : path) (platform : NormalizedPlatform)
      (command : string) (args : list string) (code : Z) :
  extraction_tool archivePath tempDir platform (env h "TAR_PATH")
    = Some (command, args) ->
  child_exit (spawn h command args (fs w)) = ExitCode code ->
  code <> 0%Z ->
  Extract.extractArchive archivePath tempDir platform (env h "TAR_PATH") h w
    = (Thrown (command ++ " exited with code " ++ Z_to_string code),
       after_child w command args (spawn h command args (fs w))) /\
  fst (DenoInstall.extractArchive archivePath tempDir (is_win32 platform) h w)
    = Thrown (child_stderr (spawn h command args (fs w))).
Proof.
  intros Htool Hexit Hcode. split.
  - exact (extractArchive_tool_failure h w _ _ _ _ _ args code
             Htool Hexit Hcode).
  - exact (deno_extractArchive_tool_failure h w _ _ _ _ _ code
             Htool Hexit Hcode).
Qed.

Lemma tool_failure_is_surfaced_witness :
  Extract.extractArchive ["tmp"; "x"; "curlpit.zip"] ["tmp"; "x"] win32
    None broken_tar_host (empty_world downloaded)
  = (Thrown "powershell exited with code 2",
     {| fs := downloaded;
        console := [(Stderr, "tar: Error is not recoverable: exiting now")];
        trace :=
          [EvSpawn "powershell"
             ["-NoProfile"; "-Command";
              "Expand-Archive -Path " ++ dquote ++ "/tmp/x/curlpit.zip" ++ dquote
              ++ " -DestinationPath " ++ dquote ++ "/tmp/x" ++ dquote
              ++ " -Force"]] |}) /\
  fst (DenoInstall.extractArchive ["tmp"; "x"; "curlpit.zip"] ["tmp"; "x"] true
         broken_tar_host (empty_world downloaded))
    = Thrown "tar: Error is not recoverable: exiting now".
Proof.
  refine (tool_failure_is_surfaced broken_tar_host (empty_world downloaded)
            ["tmp"; "x"; "curlpit.zip"] ["tmp"; "x"] win32 _ _ 2
            eq_refl eq_refl _).
  discriminate.
Defined.

(** C9 as stated fails on the shared extractor: the error raised for a
    failed tar run does not carry the tool's standard-error text. *)
Lemma extractArchive_error_omits_stderr :
  let r := Extract.extractArchive (Path.join scratch linux_archive_name)
             scratch linux None broken_tar_host (empty_world downloaded) in
  child_stderr (spawn broken_tar_host "tar" [] downloaded)
    = "tar: Error is not recoverable: exiting now" /\
  fst r = Thrown "tar exited with code 2" /\
  Js.includes "tar exited with code 2"
              "tar: Error is not recoverable: exiting now" = false.
Proof.
  repeat split; vm_compute; reflexivity.
Qed.

(** ** Removing the scratch directory *)

Lemma cleanupTemp_run (h : Host) (w : World) (dir : path) :
  exists w',
    InstallJs.cleanupTemp dir h w = (Returned tt, w') /\
    console w' = console w /\
    (rm_failure h dir <> None -> fs w' = fs w).
Proof.
  unfold InstallJs.cleanupTemp, try_catch, Prim.rm_recursive_force, Prim.emit,
    Prim.get_fs, Prim.set_fs, bind, ask, ret, throw.
  cbn [fs console trace].
  destruct (rm_failure h dir); eexists; (split; [reflexivity|]);
    cbn [fs console]; split; auto. intros H. now elim H.
Qed.

Lemma try_finally_cleanupTemp {A : Type} (body : Action A) (dir : path)
      (h : Host) (w : World) :
  fst (try_finally body (InstallJs.cleanupTemp dir) h w) = fst (body h w) /\
  console (snd (try_finally body (InstallJs.cleanupTemp dir) h w))
    = console (snd (body h w)).
Proof.
  unfold try_finally.
  destruct (body h w) as [[a|e|c] w']; cbn [fst snd]; [| |auto];
    destruct (cleanupTemp_run h w' dir) as (w'' & -> & Hc & _);
    cbn [fst snd]; auto.
Qed.

(** X21.  In the earlier npm installer the removal of the scratch directory
    is wrapped in [cleanupTemp], which catches a removal failure and
    discards it without writing anything to the console.  Whatever the
    removal does, the result of the installation and its console output
    are those of the download-verify-extract-install part. *)
Theorem cleanupTemp_never_masks (h : Host) (w w1 : World) (tempDir : path)
    (platform arch : string) (targetInfo : TargetDescriptor)
    (downloadUrl checksumUrl : string) (vendorDir : path) :
  Prim.mkdtemp (tmpdir h) "curlpit-download-" h w = (Returned tempDir, w1) ->
  (exists w', InstallJs.cleanupTemp tempDir h w1 = (Returned tt, w') /\
              console w' = console w1) /\
  fst (InstallJs.install platform arch targetInfo downloadUrl checksumUrl
                         vendorDir h w)
  = fst (InstallJs.attempt platform arch targetInfo downloadUrl checksumUrl
           tempDir (Path.join tempDir (artifact targetInfo)) vendorDir h w1) /\
  console (snd (InstallJs.install platform arch targetInfo downloadUrl
                                  checksumUrl vendorDir h w))
  = console (snd (InstallJs.attempt platform arch targetInfo downloadUrl
                    checksumUrl tempDir
                    (Path.join tempDir (artifact targetInfo)) vendorDir h w1)).
Proof.
  intros Htemp. split.
  - destruct (cleanupTemp_run h w1 tempDir) as (w' & E & Hc & _). eauto.
  - unfold InstallJs.install.
    erewrite bind_returned by reflexivity.
    erewrite bind_returned by exact Htemp.
    apply try_finally_cleanupTemp.
Qed.

Lemma cleanupTemp_never_masks_witness :
  fst (InstallJs.install "linux" "x64" legacy_linux_target
         "https://github.com/curlpit-sh/cli/releases/download/v0.1.0/curlpit-x86_64-unknown-linux-gnu.tar.gz"
         "https://github.com/curlpit-sh/cli/releases/download/v0.1.0/curlpit-x86_64-unknown-linux-gnu.tar.gz.sha256"
         ["opt"] busy_legacy_host (empty_world machine))
  = Returned tt.
Proof.
  rewrite (proj1 (proj2 (cleanupTemp_never_masks busy_legacy_host
                           (empty_world machine) _ _ "linux" "x64"
                           legacy_linux_target _ _ ["opt"] eq_refl))).
  vm_compute. reflexivity.
Defined.

(** The removal failure that [cleanupTemp] recovers from is not logged:
    the console is as empty after the call as before, while the scratch
    directory is still there. *)
Lemma cleanupTemp_logs_nothing :
  rm_failure busy_legacy_host scratch = Some "EBUSY: resource busy or locked" /\
  InstallJs.cleanupTemp scratch busy_legacy_host (empty_world downloaded)
    = (Returned tt,
       {| fs := downloaded; console := []; trace := [EvRm scratch] |}).
Proof.
  split; reflexivity.
Qed.

(** C7 fails in the shared package.  [cleanup] has no handler of its own
    and the [finally] block of the npm installer awaits it bare: when the
    removal of the scratch directory fails after a successful installation,
    the failure is propagated.  It reaches the top level, which reports an
    unexpected error and ends the process with status 1, although the
    binary has been installed and the success line printed; the same
    installation ends with status 0 when the removal succeeds. *)
Theorem npm_cleanup_failure_changes_outcome :
  fst (Filesystem.cleanup scratch busy_linux_host (empty_world downloaded))
    = Thrown "EBUSY: resource busy or locked" /\
  (let r := NpmInstall.run (linux_host release_payload) (empty_world machine) in
   fst r = Returned tt /\
   Fs.lookup (fs (snd r)) ["opt"; "curlpit"; "bin"; "curlpit"]
     = Some (File "ELF-curlpit-0.2.7" 493)) /\
  (let r := NpmInstall.run busy_linux_host (empty_world machine) in
   fst r = Exited 1 /\
   Fs.lookup (fs (snd r)) ["opt"; "curlpit"; "bin"; "curlpit"]
     = Some (File "ELF-curlpit-0.2.7" 493) /\
   console (snd r) =
     [ (Stdout, "Downloading curlpit binary (linux/x64) from https://github.com/curlpit-sh/cli/releases/download/v0.2.7/curlpit-x86_64-unknown-linux-gnu.tar.xz");
       (Stdout, "curlpit binary installed to /opt/curlpit/bin/curlpit");
       (Stderr,
        "Unexpected error during curlpit installation: "
        ++ error_stack busy_linux_host "EBUSY: resource busy or locked") ]).
Proof.
  repeat split; vm_compute; reflexivity.
Qed.

(** * Further properties of the installer *)

(** ** The planner and the target matrix *)

Lemma planRelease_resolved (input : InstallContext) p a target :
  resolves input = Some (p, a, target) ->
  Release.planRelease input =
    Ok {| plan_platform := p; plan_arch := a; plan_target := target;
          plan_tag := Release.make_tag (ctx_version input);
          plan_artifactUrl :=
            Js.replace_trailing_slash (ctx_baseUrl input) ++ "/"
            ++ ctx_repo input ++ "/releases/download/"
            ++ Release.make_tag (ctx_version input) ++ "/" ++ artifact target;
          plan_checksumUrl :=
            (Js.replace_trailing_slash (ctx_baseUrl input) ++ "/"
             ++ ctx_repo input ++ "/releases/download/"
             ++ Release.make_tag (ctx_version input) ++ "/" ++ artifact target)
            ++ ".sha256" |}.
Proof.
  unfold Release.planRelease, resolves,
    Platform.normalizePlatformOrThrow, Platform.normalizeArchOrThrow.
  destruct (Platform.normalizePlatform _) as [p'| |];
    destruct (Platform.normalizeArch _) as [a'| |];
    cbn [Js.is_undefined bind_result Targets.resolveTarget]; try discriminate.
  now intros ->.
Qed.

(** X1.  A plan depends on the platform and architecture strings only through
    what they normalise to: two spellings with the same normalisation
    (another letter case, an alias) give the same plan. *)
Theorem planRelease_alias_insensitive
    (input : InstallContext) (p a : string) (plan : ReleasePlan) :
  Platform.normalizePlatform (Some p)
    = Platform.normalizePlatform (Some (ctx_platform input)) ->
  Platform.normalizeArch (Some a)
    = Platform.normalizeArch (Some (ctx_arch input)) ->
  Release.planRelease input = Ok plan ->
  Release.planRelease (with_names input p a) = Ok plan.
Proof.
  intros Hp Ha H.
  apply planRelease_ok in H as (p0 & a0 & target & Hres & ->).
  apply (planRelease_resolved (with_names input p a)).
  unfold resolves, with_names in *. cbn [ctx_platform ctx_arch].
  now rewrite Hp, Ha.
Qed.

Lemma planRelease_alias_insensitive_witness :
  Release.planRelease
    {| ctx_platform := "MacOS"; ctx_arch := "AArch64"; ctx_version := "0.3.0";
       ctx_baseUrl := "https://github.com"; ctx_repo := "curlpit-sh/cli" |}
  = Release.planRelease
      {| ctx_platform := "darwin"; ctx_arch := "arm64"; ctx_version := "0.3.0";
         ctx_baseUrl := "https://github.com"; ctx_repo := "curlpit-sh/cli" |}.
Proof.
  exact (planRelease_alias_insensitive
           {| ctx_platform := "darwin"; ctx_arch := "arm64";
              ctx_version := "0.3.0"; ctx_baseUrl := "https://github.com";
              ctx_repo := "curlpit-sh/cli" |}
           "MacOS" "AArch64" _ eq_refl eq_refl eq_refl).
Defined.

(** X2.  The launcher's [determineBinaryName] and the installer's plan agree:
    the name is defined exactly when planning succeeds, and it is then the
    binary name of the planned target, whatever version, base URL and
    repository are. *)
Theorem determineBinaryName_matches_plan (input : InstallContext) :
  Targets.determineBinaryName (ctx_platform input) (ctx_arch input) =
    match Release.planRelease input with
    | Ok plan => Some (binaryName (plan_target plan))
    | Throw _ => None
    end.
Proof.
  unfold Targets.determineBinaryName, Release.planRelease,
    Platform.normalizePlatformOrThrow, Platform.normalizeArchOrThrow.
  destruct (Platform.normalizePlatform _) as [p| |];
    destruct (Platform.normalizeArch _) as [a| |];
    cbn [Js.is_undefined bind_result orb Targets.resolveTarget option_map];
    try reflexivity.
  now destruct (Targets.TARGET_MATRIX p a).
Qed.

(** ** More on strings and paths *)

Lemma string_app_assoc (a b c : string) : (a ++ b) ++ c = a ++ (b ++ c).
Proof.
  induction a as [|x a IH]; [reflexivity|]. cbn. now rewrite IH.
Qed.

Lemma string_app_nil_r (a : string) : a ++ "" = a.
Proof.
  induction a as [|x a IH]; [reflexivity|]. cbn. now rewrite IH.
Qed.

Lemma string_length_app (a b : string) :
  String.length (a ++ b) = String.length a + String.length b.
Proof.
  induction a as [|x a IH]; [reflexivity|]. cbn. now rewrite IH.
Qed.

Lemma endsWith_app (a b p : string) :
  String.length p <= String.length b ->
  Js.endsWith (a ++ b) p = Js.endsWith b p.
Proof.
  intros Hlen. induction a as [|c a IH]; [reflexivity|].
  rewrite <- IH. unfold Js.endsWith.
  change ((String c a) ++ b) with (String c (a ++ b)).
  cbn [String.length].
  assert (Hle : String.length p <= String.length (a ++ b))
    by (rewrite string_length_app; lia).
  destruct (Nat.leb_spec (String.length p) (String.length (a ++ b))); [|lia].
  destruct (Nat.leb_spec (String.length p) (S (String.length (a ++ b)))); [|lia].
  replace (S (String.length (a ++ b)) - String.length p)
    with (S (String.length (a ++ b) - String.length p)) by lia.
  reflexivity.
Qed.

Lemma to_string_join (dir : path) (name : string) :
  Path.to_string (Path.join dir name) = Path.to_string dir ++ "/" ++ name.
Proof.
  unfold Path.join. induction dir as [|seg rest IH]; cbn [app Path.to_string].
  - cbn. now rewrite string_app_nil_r.
  - rewrite IH.
    change ("/" ++ seg ++ Path.to_string rest ++ "/" ++ name)
      with (String "/" (seg ++ Path.to_string rest ++ "/" ++ name)).
    change (("/" ++ seg ++ Path.to_string rest) ++ "/" ++ name)
      with (String "/" ((seg ++ Path.to_string rest) ++ "/" ++ name)).
    now rewrite string_app_assoc.
Qed.

(** ** The shared extractor, step by step *)

(** Whatever the tool does, the world after [runCommand] is the world the
    child left, with its standard error on the console. *)
Lemma runCommand_world (h : Host) (w : World) (command : string)
      (args : list string) :
  snd (Extract.runCommand command args h w)
    = after_child w command args (spawn h command args (fs w)).
Proof.
  unfold Extract.runCommand, Prim.run_child, Prim.emit, Prim.get_fs,
    Prim.set_fs, Prim.print, bind, ask, ret, throw, after_child.
  cbn [fs console trace].
  destruct (Js.truthy (child_stderr (spawn h command args (fs w))));
    destruct (child_exit (spawn h command args (fs w))) as [e|[|c|c]|sig];
    cbn [fs console trace snd]; rewrite ?app_nil_r; reflexivity.
Qed.

Lemma runCommand_exit_0 (h : Host) (w : World) (command : string)
      (args : list string) :
  child_exit (spawn h command args (fs w)) = ExitCode 0 ->
  Extract.runCommand command args h w
    = (Returned tt, after_child w command args (spawn h command args (fs w))).
Proof.
  intros Hexit. rewrite <- runCommand_world.
  unfold Extract.runCommand, Prim.run_child, Prim.emit, Prim.get_fs,
    Prim.set_fs, Prim.print, bind, ask, ret, throw.
  cbn [fs console trace]. rewrite Hexit.
  now destruct (Js.truthy (child_stderr (spawn h command args (fs w)))).
Qed.

Lemma traced_traced (w : World) (a b : list Event) :
  traced (traced w a) b = traced w (a ++ b).
Proof. unfold traced. cbn [fs console trace]. now rewrite app_assoc. Qed.

Lemma traced_nil (w : World) : traced w [] = w.
Proof. destruct w. unfold traced. cbn [fs console trace]. now rewrite app_nil_r. Qed.

Lemma emit_run (h : Host) (w : World) (e : Event) :
  Prim.emit e h w = (Returned tt, traced w [e]).
Proof. reflexivity. Qed.

(** The walk answers with [Extract.locate], and its effects are the reads
    of the directories it enters, the first of them [dir] itself. *)
Lemma locateBinary_in_run (n : node) :
  forall (dir : path) (h : Host) (w : World),
  exists dirs,
    Extract.locateBinary_in dir n h w =
      (match n with
       | File _ _ => Thrown "ENOTDIR"
       | Dir _ => Returned (Extract.locate dir n)
       end,
       traced w (map EvReaddir (dir :: dirs))).
Proof.
  induction n as [content mode|es IH] using node_tree_ind; intros dir h w.
  - exists []. reflexivity.
  - assert (Hloop : forall w0, exists dirs,
               Extract.scan Extract.locateBinary_in dir es h w0 =
                 (Returned (Extract.locate dir (Dir es)),
                  traced w0 (map EvReaddir dirs))).
    { induction es as [|[name child] rest IHrest]; intros w0.
      - exists []. cbn [map]. now rewrite traced_nil.
      - inversion IH as [|e l Hchild Hrest]; subst.
        specialize (IHrest Hrest). cbn [snd] in Hchild.
        destruct child as [content mode|sub].
        + rewrite locate_cons_file. cbn [Extract.scan].
          destruct (Js.startsWith name "curlpit").
          * exists []. cbn [map]. now rewrite traced_nil.
          * apply IHrest.
        + rewrite locate_cons_dir. cbn [Extract.scan].
          destruct (Hchild (Path.join dir name) h w0) as (d1 & E1).
          rewrite (bind_returned _ _ _ _ _ _ E1).
          destruct (Extract.locate (Path.join dir name) (Dir sub)).
          * eexists. reflexivity.
          * destruct (IHrest (traced w0 (map EvReaddir (Path.join dir name :: d1))))
              as (d2 & E2).
            exists ((Path.join dir name :: d1) ++ d2)%list.
            now rewrite E2, traced_traced, map_app. }
    destruct (Hloop (traced w [EvReaddir dir])) as (dirs & E).
    exists dirs.
    change (Extract.locateBinary_in dir (Dir es))
      with (Prim.emit (EvReaddir dir) ;;;
            Extract.scan Extract.locateBinary_in dir es).
    rewrite (bind_returned _ _ _ _ _ _ (emit_run h w (EvReaddir dir))).
    now rewrite E, traced_traced.
Qed.

Lemma locateBinary_run (h : Host) (w : World) (dir : path) :
  exists dirs,
    Extract.locateBinary dir h w =
      (match Fs.lookup (fs w) dir with
       | Some (Dir es) => Returned (Extract.locate dir (Dir es))
       | Some (File _ _) => Thrown "ENOTDIR"
       | None => Thrown "ENOENT"
       end,
       traced w (map EvReaddir (dir :: dirs))).
Proof.
  unfold Extract.locateBinary.
  rewrite (bind_returned _ _ h w w (fs w) eq_refl).
  destruct (Fs.lookup (fs w) dir) as [n|].
  - destruct (locateBinary_in_run n dir h w) as (dirs & E).
    exists dirs. rewrite E. now destruct n.
  - exists []. reflexivity.
Qed.

(** X3.  [locateBinary] answers with the first regular file, in depth-first
    listing order, whose name begins with "curlpit"; it answers [undefined]
    exactly when the tree holds no such file.  It changes nothing: its only
    effects are reads of directories, the first of them the directory it
    was called on. *)
Theorem locateBinary_depth_first (h : Host) (w : World) (dir : path)
      (es : list (string * node)) :
  Fs.lookup (fs w) dir = Some (Dir es) ->
  exists dirs,
    Extract.locateBinary dir h w =
      (Returned (option_map fst
                   (find has_prefix_curlpit (files_below dir (Dir es)))),
       traced w (map EvReaddir (dir :: dirs))).
Proof.
  intros Hdir. destruct (locateBinary_run h w dir) as (dirs & E).
  exists dirs. now rewrite E, Hdir, locate_first_match.
Qed.

Lemma locateBinary_depth_first_witness :
  fst (Extract.locateBinary scratch offline_host
         (empty_world unpacked_with_completions))
  = Returned (Some ["tmp"; "curlpit-npm-Xk3f9Q"; "completions"; "curlpit.bash"]).
Proof.
  destruct (locateBinary_depth_first offline_host
              (empty_world unpacked_with_completions) scratch _ eq_refl)
    as (dirs & E).
  rewrite E. reflexivity.
Defined.

(** X4.  An archive whose name ends in none of ".tar.gz", ".tar.xz" and ".zip"
    is refused at once: no tool is started, nothing is read, and the world
    is left as it was. *)
Theorem extractArchive_refuses_other_suffixes (h : Host) (w : World)
      (archivePath tempDir : path) (platform : NormalizedPlatform)
      (tarPath : option string) :
  Js.endsWith (Path.to_string archivePath) ".tar.gz" = false ->
  Js.endsWith (Path.to_string archivePath) ".tar.xz" = false ->
  Js.endsWith (Path.to_string archivePath) ".zip" = false ->
  Extract.extractArchive archivePath tempDir platform tarPath h w =
    (Thrown ("Unsupported archive format: " ++ Path.to_string archivePath), w).
Proof.
  intros Hgz Hxz Hzip. unfold Extract.extractArchive.
  now rewrite Hgz, Hxz, Hzip.
Qed.

Lemma extractArchive_refuses_other_suffixes_witness :
  Extract.extractArchive ["tmp"; "x"; "curlpit.tar.bz2"] ["tmp"; "x"] linux None
    (linux_host release_payload) (empty_world downloaded)
  = (Thrown "Unsupported archive format: /tmp/x/curlpit.tar.bz2",
     empty_world downloaded).
Proof.
  exact (extractArchive_refuses_other_suffixes (linux_host release_payload)
           (empty_world downloaded) ["tmp"; "x"; "curlpit.tar.bz2"]
           ["tmp"; "x"] linux None eq_refl eq_refl eq_refl).
Defined.

Lemma extractArchive_dispatch (h : Host) (w : World)
      (archivePath tempDir : path) (platform : NormalizedPlatform)
      (tarPath : option string) (command : string) (args : list string) :
  extraction_tool archivePath tempDir platform tarPath = Some (command, args) ->
  Extract.extractArchive archivePath tempDir platform tarPath h w =
    (Extract.runCommand command args ;;;
     binaryPath <- Extract.locateBinary tempDir ;;
     match binaryPath with
     | None => throw "Archive did not contain a curlpit binary"
     | Some found => ret found
     end) h w.
Proof.
  unfold extraction_tool, Extract.extractArchive.
  fold (Extract.tar_command tarPath).
  destruct (Js.endsWith _ ".tar.gz"); [now intros [= <- <-]|].
  destruct (Js.endsWith _ ".tar.xz"); [now intros [= <- <-]|].
  destruct (Js.endsWith _ ".zip"); [|discriminate].
  destruct platform; now intros [= <- <-].
Qed.

(** X5.  Extraction returns a path exactly when the selected tool exits with
    code 0 and the scratch directory, as the tool left it, holds a regular
    file whose name begins with "curlpit"; the path returned is the first
    such file in depth-first listing order. *)
Theorem extractArchive_returns_iff (h : Host) (w : World)
      (archivePath tempDir : path) (platform : NormalizedPlatform)
      (tarPath : option string) (command : string) (args : list string)
      (found : path) :
  extraction_tool archivePath tempDir platform tarPath = Some (command, args) ->
  (fst (Extract.extractArchive archivePath tempDir platform tarPath h w)
     = Returned found
   <->
   child_exit (spawn h command args (fs w)) = ExitCode 0 /\
   exists es,
     Fs.lookup (child_fs (spawn h command args (fs w))) tempDir = Some (Dir es) /\
     option_map fst (find has_prefix_curlpit (files_below tempDir (Dir es)))
       = Some found).
Proof.
  intros Htool. rewrite (extractArchive_dispatch h w _ _ _ _ _ _ Htool).
  split.
  - intros H. apply bind_fst_returned in H as ([] & w1 & Hrun & H).
    assert (Hexit : child_exit (spawn h command args (fs w)) = ExitCode 0)
      by (apply runCommand_returns; now rewrite Hrun).
    split; [exact Hexit|].
    rewrite (runCommand_exit_0 h w _ _ Hexit) in Hrun.
    injection Hrun as <-.
    apply bind_fst_returned in H as (r & w2 & Hloc & H).
    match type of Hloc with
    | Extract.locateBinary _ _ ?w0 = _ =>
        destruct (locateBinary_run h w0 tempDir) as (dirs & E)
    end.
    rewrite E in Hloc. cbn [after_child fs] in Hloc.
    destruct (Fs.lookup _ tempDir) as [[c m|es]|]; try discriminate.
    assert (Hr : Extract.locate tempDir (Dir es) = r)
      by (pose proof (f_equal fst Hloc) as E'; cbn [fst] in E'; congruence).
    exists es. split; [reflexivity|].
    rewrite <- locate_first_match, Hr.
    destruct r; cbn in H; [now injection H as ->|discriminate].
  - intros (Hexit & es & Hdir & Hfind).
    erewrite bind_returned by (apply runCommand_exit_0; exact Hexit).
    destruct (locateBinary_run h
                (after_child w command args (spawn h command args (fs w)))
                tempDir) as (dirs & E).
    cbn [after_child fs] in E. rewrite Hdir in E.
    erewrite bind_returned by exact E.
    now rewrite locate_first_match, Hfind.
Qed.

Lemma extractArchive_returns_iff_witness :
  fst (Extract.extractArchive (Path.join scratch linux_archive_name) scratch
         linux None (linux_host release_payload) (empty_world downloaded))
  = Returned ["tmp"; "curlpit-npm-Xk3f9Q";
              "curlpit-x86_64-unknown-linux-gnu"; "curlpit"].
Proof.
  apply (proj2 (extractArchive_returns_iff (linux_host release_payload)
                  (empty_world downloaded)
                  (Path.join scratch linux_archive_name) scratch linux None
                  _ _ _ eq_refl)).
  split; [reflexivity|]. eexists. split; reflexivity.
Defined.

Lemma extractArchive_trace (h : Host) (w : World)
      (archivePath tempDir : path) (platform : NormalizedPlatform)
      (tarPath : option string) (command : string) (args : list string) :
  extraction_tool archivePath tempDir platform tarPath = Some (command, args) ->
  exists rest,
    trace (snd (Extract.extractArchive archivePath tempDir platform tarPath h w))
      = (trace w ++ EvSpawn command args :: rest)%list.
Proof.
  intros Htool. rewrite (extractArchive_dispatch h w _ _ _ _ _ _ Htool).
  pose proof (runCommand_world h w command args) as Hw.
  unfold bind at 1.
  destruct (Extract.runCommand command args h w) as [[[]|e|c] w1];
    cbn [snd] in Hw; subst w1; cbn [snd after_child trace];
    try (now exists []).
  unfold bind.
  match goal with
  | |- context [Extract.locateBinary tempDir h ?w0] =>
      destruct (locateBinary_run h w0 tempDir) as (dirs & E); rewrite E
  end.
  destruct (Fs.lookup _ tempDir) as [[c m|es]|];
    [ | destruct (Extract.locate tempDir (Dir es)) | ];
    cbn [snd traced trace after_child ret throw];
    exists (map EvReaddir (tempDir :: dirs)); now rewrite <- app_assoc.
Qed.

Lemma planned_tool (p : NormalizedPlatform) (a : NormalizedArch)
      (t : TargetDescriptor) (tempDir : path) (tarPath : option string) :
  Targets.TARGET_MATRIX p a = Some t ->
  exists args,
    extraction_tool (Path.join tempDir (artifact t)) tempDir p tarPath
      = Some (if is_win32 p then "powershell" else Extract.tar_command tarPath,
              args) /\
    (is_win32 p = false ->
     args = ["-xJf"; Path.to_string (Path.join tempDir (artifact t)); "-C";
             Path.to_string tempDir]).
Proof.
  intros Ht. unfold extraction_tool. fold (Extract.tar_command tarPath).
  rewrite to_string_join.
  rewrite <- (string_app_assoc (Path.to_string tempDir) "/" (artifact t)).
  destruct p, a; cbn in Ht; try discriminate; injection Ht as <-;
    cbn [artifact];
    rewrite !endsWith_app by (cbn; lia);
    cbn [is_win32]; eexists; (split; [reflexivity|]); intros; try discriminate;
    reflexivity.
Qed.

(** X6.  Every artifact the planner can name is one the extractor accepts: for a
    planned target the first thing [extractArchive] does is to start
    PowerShell (on win32) or tar with [-xJf] (elsewhere); the ".tar.gz" and
    unzip branches are never taken for planned artifacts. *)
Theorem planned_artifact_is_unpacked (h : Host) (w : World)
      (input : InstallContext) (plan : ReleasePlan) (tempDir : path)
      (tarPath : option string) :
  Release.planRelease input = Ok plan ->
  exists args rest,
    trace (snd (Extract.extractArchive
                  (Path.join tempDir (artifact (plan_target plan))) tempDir
                  (plan_platform plan) tarPath h w))
      = (trace w
         ++ EvSpawn (if is_win32 (plan_platform plan) then "powershell"
                     else Extract.tar_command tarPath) args :: rest)%list /\
    (is_win32 (plan_platform plan) = false ->
     args = ["-xJf";
             Path.to_string (Path.join tempDir (artifact (plan_target plan)));
             "-C"; Path.to_string tempDir]).
Proof.
  intros H. apply planRelease_ok in H as (p & a & target & Hres & ->).
  cbn [plan_target plan_platform].
  assert (Ht : Targets.TARGET_MATRIX p a = Some target).
  { unfold resolves, Targets.resolveTarget in Hres.
    destruct (Platform.normalizePlatform _) as [p'| |]; try discriminate.
    destruct (Platform.normalizeArch _) as [a'| |]; try discriminate.
    destruct (Targets.TARGET_MATRIX p' a') eqn:E; [|discriminate].
    now injection Hres as -> -> ->. }
  destruct (planned_tool p a target tempDir tarPath Ht) as (args & Htool & Hargs).
  destruct (extractArchive_trace h w _ _ _ _ _ _ Htool) as [rest Htrace].
  now exists args, rest.
Qed.

Lemma planned_artifact_is_unpacked_witness :
  exists rest,
    trace (snd (Extract.extractArchive
                  ["tmp"; "x"; "curlpit-aarch64-apple-darwin.tar.xz"]
                  ["tmp"; "x"] darwin (Some "/usr/bin/bsdtar")
                  offline_host (empty_world machine)))
    = EvSpawn "/usr/bin/bsdtar"
        ["-xJf"; "/tmp/x/curlpit-aarch64-apple-darwin.tar.xz"; "-C"; "/tmp/x"]
      :: rest.
Proof.
  destruct (planned_artifact_is_unpacked offline_host (empty_world machine)
              {| ctx_platform := "osx"; ctx_arch := "arm64";
                 ctx_version := "0.3.0"; ctx_baseUrl := "https://github.com";
                 ctx_repo := "curlpit-sh/cli" |} _ ["tmp"; "x"]
              (Some "/usr/bin/bsdtar") eq_refl) as (args & rest & Ht & Hargs).
  rewrite (Hargs eq_refl) in Ht. exists rest. exact Ht.
Defined.

(** X7.  The downloaded archive is never set apart from the candidates: for a
    planned target, when the tool has exited with code 0 and the archive is
    still listed in the scratch directory, [extractArchive] returns some
    path; it cannot report that the archive did not contain the binary. *)
Theorem extractArchive_never_empty_beside_archive (h : Host) (w : World)
      (input : InstallContext) (plan : ReleasePlan) (tempDir : path)
      (tarPath : option string) (command : string) (args : list string)
      (es : list (string * node)) (content : bytes) (mode : N) :
  Release.planRelease input = Ok plan ->
  extraction_tool (Path.join tempDir (artifact (plan_target plan))) tempDir
                  (plan_platform plan) tarPath = Some (command, args) ->
  child_exit (spawn h command args (fs w)) = ExitCode 0 ->
  Fs.lookup (child_fs (spawn h command args (fs w))) tempDir = Some (Dir es) ->
  In (artifact (plan_target plan), File content mode) es ->
  exists found,
    fst (Extract.extractArchive
           (Path.join tempDir (artifact (plan_target plan))) tempDir
           (plan_platform plan) tarPath h w) = Returned found.
Proof.
  intros Hplan Htool Hexit Hdir Hin.
  assert (Hpre : Js.startsWith (artifact (plan_target plan)) "curlpit" = true).
  { apply planRelease_ok in Hplan as (p & a & target & Hres & ->).
    cbn [plan_target]. unfold resolves, Targets.resolveTarget in Hres.
    destruct (Platform.normalizePlatform _) as [p'| |]; try discriminate.
    destruct (Platform.normalizeArch _) as [a'| |]; try discriminate.
    destruct (Targets.TARGET_MATRIX p' a') eqn:E; [|discriminate].
    injection Hres as -> -> ->. exact (artifact_has_prefix _ _ _ E). }
  pose proof (locate_with_archive tempDir es _ content mode Hin Hpre) as Hne.
  destruct (Extract.locate tempDir (Dir es)) as [found|] eqn:Hloc;
    [|now elim Hne].
  exists found.
  rewrite (extractArchive_dispatch h w _ _ _ _ _ _ Htool).
  erewrite bind_returned by (apply runCommand_exit_0; exact Hexit).
  destruct (locateBinary_run h
              (after_child w command args (spawn h command args (fs w)))
              tempDir) as (dirs & E).
  cbn [after_child fs] in E. rewrite Hdir in E.
  erewrite bind_returned by exact E.
  now rewrite Hloc.
Qed.

Lemma extractArchive_never_empty_beside_archive_witness :
  exists found,
    fst (Extract.extractArchive (Path.join scratch linux_archive_name) scratch
           linux None (linux_host defective_payload) (empty_world downloaded))
    = Returned found.
Proof.
  refine (extractArchive_never_empty_beside_archive
            (linux_host defective_payload) (empty_world downloaded)
            {| ctx_platform := "linux"; ctx_arch := "x64";
               ctx_version := "0.2.7"; ctx_baseUrl := "https://github.com";
               ctx_repo := "curlpit-sh/cli" |} _ scratch None _ _ _
            "xz-archive-bytes" 420%N eq_refl eq_refl eq_refl eq_refl _).
  right. left. reflexivity.
Defined.

(** ** The checksum file *)

Lemma first_field_trim_end (s : string) :
  Download.first_field (Download.trim_end s) = Download.first_field s.
Proof.
  induction s as [|c s IH]; [reflexivity|].
  cbn [Download.trim_end Download.first_field].
  destruct (Download.trim_end s) as [|k kept] eqn:E.
  - destruct (Download.is_space c) eqn:Hc; cbn [Download.first_field].
    + reflexivity.
    + rewrite Hc. now rewrite <- IH.
  - cbn [Download.first_field].
    destruct (Download.is_space c); [reflexivity|]. now rewrite <- IH.
Qed.

Lemma trim_start_spaces (lead x : string) :
  all_chars Download.is_space lead = true ->
  Download.trim_start (lead ++ x) = Download.trim_start x.
Proof.
  induction lead as [|c lead IH]; [reflexivity|].
  cbn [all_chars]. intros [Hc Hl]%andb_prop.
  change ((String c lead) ++ x) with (String c (lead ++ x)).
  cbn [Download.trim_start]. rewrite Hc. now apply IH.
Qed.

Lemma trim_start_blank (s : string) :
  all_chars Download.is_space s = true -> Download.trim_start s = "".
Proof.
  intros H. rewrite <- (string_app_nil_r s). now rewrite trim_start_spaces.
Qed.

Lemma first_field_token (token rest : string) :
  all_chars not_space token = true ->
  ends_token rest = true ->
  Download.first_field (token ++ rest) = token.
Proof.
  intros Ht Hr. induction token as [|c token IH].
  - destruct rest as [|d rest]; [reflexivity|].
    cbn in Hr |- *. now rewrite Hr.
  - cbn [all_chars] in Ht. apply andb_prop in Ht as [Hc Ht].
    change ((String c token) ++ rest) with (String c (token ++ rest)).
    cbn [Download.first_field]. unfold not_space in Hc.
    apply negb_true_iff in Hc. rewrite Hc. now rewrite IH.
Qed.

Lemma trim_end_keeps_head (c : ascii) (s : string) :
  Download.is_space c = false ->
  Js.truthy (Download.trim_end (String c s)) = true.
Proof.
  intros Hc. cbn [Download.trim_end].
  destruct (Download.trim_end s); [now rewrite Hc|reflexivity].
Qed.

Lemma fetch_run (h : Host) (w : World) (url : string) :
  Prim.fetch url h w =
    (match http_get h url with
     | Ok r => Returned r
     | Throw e => Thrown e
     end, traced w [EvFetch url]).
Proof.
  unfold Prim.fetch, Prim.emit, bind, ask, lift, ret, throw, traced.
  now destruct (http_get h url).
Qed.

Lemma fetchChecksumText_token (h : Host) (w : World) (url : string)
      (r : Response) (lead token rest : string) :
  http_get h url = Ok r ->
  response_ok r = true ->
  body r = Some (lead ++ token ++ rest) ->
  all_chars Download.is_space lead = true ->
  Js.truthy token = true ->
  all_chars not_space token = true ->
  ends_token rest = true ->
  Download.fetchChecksumText url h w = (Returned token, traced w [EvFetch url]).
Proof.
  intros Hget Hok Hbody Hlead Hne Htok Hrest.
  unfold Download.fetchChecksumText.
  erewrite bind_returned by (rewrite fetch_run, Hget; reflexivity).
  rewrite Hok, Hbody. cbn [negb]. unfold Download.trim.
  rewrite (trim_start_spaces lead _ Hlead).
  destruct token as [|c token]; [discriminate|].
  pose proof Htok as Htok'. cbn [all_chars] in Htok'.
  apply andb_prop in Htok' as [Hc _]. unfold not_space in Hc.
  apply negb_true_iff in Hc.
  change ((String c token) ++ rest) with (String c (token ++ rest)).
  cbn [Download.trim_start]. rewrite Hc.
  rewrite (trim_end_keeps_head c _ Hc). cbn [negb].
  rewrite first_field_trim_end.
  change (String c (token ++ rest)) with ((String c token) ++ rest).
  now rewrite (first_field_token _ _ Htok Hrest).
Qed.

Lemma all_chars_impl (f g : ascii -> bool) (s : string) :
  (forall c, f c = true -> g c = true) ->
  all_chars f s = true -> all_chars g s = true.
Proof.
  intros Hfg. induction s as [|c s IH]; [reflexivity|].
  cbn [all_chars]. intros [Hc Hs]%andb_prop.
  now rewrite (Hfg c Hc), IH.
Qed.

Lemma graphic_not_space (c : ascii) : graphic c = true -> not_space c = true.
Proof.
  destruct c as [[] [] [] [] [] [] [] []]; vm_compute; trivial.
Qed.

(** X8.  From a successful response [fetchChecksumText] returns the first
    white-space delimited token of the body: for a token of visible ASCII
    characters, leading white space and everything after the token (a file
    name, a line end) are ignored.  Its only effect is the one request. *)
Theorem fetchChecksumText_first_token (h : Host) (w : World) (url : string)
      (r : Response) (lead token rest : string) :
  http_get h url = Ok r ->
  response_ok r = true ->
  body r = Some (lead ++ token ++ rest) ->
  all_chars Download.is_space lead = true ->
  Js.truthy token = true ->
  all_chars graphic token = true ->
  ends_token rest = true ->
  Download.fetchChecksumText url h w = (Returned token, traced w [EvFetch url]).
Proof.
  intros Hget Hok Hbody Hlead Hne Htok Hrest.
  exact (fetchChecksumText_token h w url r lead token rest
           Hget Hok Hbody Hlead Hne
           (all_chars_impl graphic not_space token graphic_not_space Htok)
           Hrest).
Qed.

Lemma fetchChecksumText_first_token_witness :
  fst (Download.fetchChecksumText
         "https://github.com/curlpit-sh/cli/releases/download/v0.2.7/curlpit-x86_64-unknown-linux-gnu.tar.xz.sha256"
         (linux_host release_payload) (empty_world machine))
  = Returned "45242d7226539cb02caa983736125dfb5de2f11a0536a2317c291b3c39bb37c5".
Proof.
  erewrite (fetchChecksumText_first_token (linux_host release_payload)
              (empty_world machine) _ _ ""
              "45242d7226539cb02caa983736125dfb5de2f11a0536a2317c291b3c39bb37c5"
              ("  " ++ linux_archive_name));
    reflexivity.
Defined.

(** X9.  [fetchChecksumText] fails with the HTTP status in the message when the
    response is not successful, and with "Checksum file was empty" when a
    successful response has no body or only white space; nothing is written
    in either case. *)
Theorem fetchChecksumText_failures (h : Host) (w : World) (url : string)
      (r : Response) :
  http_get h url = Ok r ->
  (response_ok r = false ->
   Download.fetchChecksumText url h w =
     (Thrown ("Failed to download checksum (" ++ N_to_string (status r) ++ " "
              ++ statusText r ++ ")"),
      traced w [EvFetch url])) /\
  (response_ok r = true ->
   all_chars Download.is_space
     (match body r with Some t => t | None => "" end) = true ->
   Download.fetchChecksumText url h w =
     (Thrown "Checksum file was empty", traced w [EvFetch url])).
Proof.
  intros Hget. unfold Download.fetchChecksumText. split.
  - intros Hok.
    erewrite bind_returned by (rewrite fetch_run, Hget; reflexivity).
    now rewrite Hok.
  - intros Hok Hblank.
    erewrite bind_returned by (rewrite fetch_run, Hget; reflexivity).
    rewrite Hok. cbn [negb]. unfold Download.trim.
    now rewrite (trim_start_blank _ Hblank).
Qed.

Lemma fetchChecksumText_failures_witness :
  Download.fetchChecksumText "https://example.invalid/x.sha256"
    (with_http offline_host
       (fun _ => Ok {| status := 404; statusText := "Not Found";
                       body := Some "missing" |}))
    (empty_world machine)
  = (Thrown "Failed to download checksum (404 Not Found)",
     traced (empty_world machine) [EvFetch "https://example.invalid/x.sha256"]).
Proof.
  exact (proj1 (fetchChecksumText_failures
                  (with_http offline_host
                     (fun _ => Ok {| status := 404; statusText := "Not Found";
                                     body := Some "missing" |}))
                  (empty_world machine) "https://example.invalid/x.sha256" _
                  eq_refl) eq_refl).
Defined.

(** ** Hexadecimal digests *)

Lemma bufferToHex_byte (c : ascii) :
  DenoDigest.padStart 2 "0" (DenoDigest.toString16 (N_of_ascii c)) =
    String (Download.hex_digit (N_of_ascii c / 16))
           (String (Download.hex_digit (N_of_ascii c mod 16)) "").
Proof.
  destruct c as [[] [] [] [] [] [] [] []]; vm_compute; reflexivity.
Qed.

Lemma unhex_byte (c : ascii) :
  match hex_value (Download.hex_digit (N_of_ascii c / 16)),
        hex_value (Download.hex_digit (N_of_ascii c mod 16)) with
  | Some h, Some l => ascii_of_N (16 * h + l) = c
  | _, _ => False
  end.
Proof.
  destruct c as [[] [] [] [] [] [] [] []]; vm_compute; reflexivity.
Qed.

Lemma unhex_hex (b : bytes) : unhex (Download.hex b) = Some b.
Proof.
  induction b as [|c b IH]; [reflexivity|].
  cbn [Download.hex unhex]. rewrite IH.
  pose proof (unhex_byte c) as H.
  destruct (hex_value (Download.hex_digit (N_of_ascii c / 16))); [|contradiction].
  destruct (hex_value (Download.hex_digit (N_of_ascii c mod 16))); [|contradiction].
  now rewrite H.
Qed.

(** X10.  The Deno installer's [bufferToHex] writes the same text as the digest
    encoding of the shared package: two lower-case hexadecimal digits per
    byte, from which the bytes can be read back, so that different digests
    never print alike. *)
Theorem bufferToHex_round_trip (buffer : bytes) :
  DenoDigest.bufferToHex buffer = Download.hex buffer /\
  String.length (DenoDigest.bufferToHex buffer) = 2 * String.length buffer /\
  unhex (DenoDigest.bufferToHex buffer) = Some buffer.
Proof.
  assert (E : DenoDigest.bufferToHex buffer = Download.hex buffer).
  { induction buffer as [|c b IH]; [reflexivity|].
    cbn [DenoDigest.bufferToHex Download.hex].
    now rewrite bufferToHex_byte, IH. }
  rewrite E. split; [reflexivity|]. split; [apply hex_length|apply unhex_hex].
Qed.

Lemma hex_digit_not_space (c : ascii) :
  lower_hex_digit c = true -> not_space c = true.
Proof.
  destruct c as [[] [] [] [] [] [] [] []]; vm_compute; trivial.
Qed.

Lemma hex_truthy (b : bytes) :
  Js.truthy b = true -> Js.truthy (Download.hex b) = true.
Proof. now destruct b. Qed.

(** X11.  A checksum file in the format of [sha256sum] (the digest, two spaces,
    the file name, a line end) that carries the digest of the downloaded
    file is accepted: fetching the expected digest and verifying the file
    against it succeeds, with one request and one read of the file. *)
Theorem published_checksum_verifies (h : Host) (w : World) (url : string)
      (r : Response) (filePath : path) (content : bytes) (mode : N)
      (name : string) :
  http_get h url = Ok r ->
  response_ok r = true ->
  body r = Some (Download.hex (sha256 h content) ++ "  " ++ name ++ line_feed) ->
  Js.truthy (sha256 h content) = true ->
  Fs.lookup (fs w) filePath = Some (File content mode) ->
  (expected <- Download.fetchChecksumText url ;;
   Download.verifyChecksum filePath expected) h w
  = (Returned tt, traced w [EvFetch url; EvReadFile filePath]).
Proof.
  intros Hget Hok Hbody Hne Hfile.
  erewrite bind_returned
    by (apply (fetchChecksumText_token h w url r ""
                 (Download.hex (sha256 h content)) ("  " ++ name ++ line_feed));
        [ exact Hget | exact Hok | exact Hbody | reflexivity
        | now apply hex_truthy
        | apply (all_chars_impl lower_hex_digit);
          [exact hex_digit_not_space | apply hex_lowercase]
        | reflexivity ]).
  rewrite (verifyChecksum_run h _ filePath _ content mode) by exact Hfile.
  now rewrite String.eqb_refl, traced_traced.
Qed.

Lemma published_checksum_verifies_witness :
  fst ((expected <-
          Download.fetchChecksumText
            "https://github.com/curlpit-sh/cli/releases/download/v0.2.7/curlpit-x86_64-unknown-linux-gnu.tar.xz.sha256" ;;
        Download.verifyChecksum (Path.join scratch linux_archive_name) expected)
         checksum_host (empty_world downloaded))
  = Returned tt.
Proof.
  assert (Hne : Js.truthy (Sha256.digest "xz-archive-bytes") = true)
    by (vm_compute; reflexivity).
  rewrite (published_checksum_verifies checksum_host (empty_world downloaded)
             _ _ (Path.join scratch linux_archive_name) "xz-archive-bytes"
             420%N linux_archive_name eq_refl eq_refl eq_refl Hne eq_refl).
  reflexivity.
Defined.

(** ** Downloading *)

Lemma writeFile_run (h : Host) (w : World) (dir : path) (name : string)
      (payload : bytes) (es : list (string * node)) :
  Fs.lookup (fs w) dir = Some (Dir es) ->
  is_dir (Fs.lookup (fs w) (Path.join dir name)) = false ->
  exists root' mode,
    Prim.writeFile (Path.join dir name) payload h w =
      (Returned tt,
       {| fs := root'; console := console w;
          trace := (trace w ++ [EvWriteFile (Path.join dir name)])%list |}) /\
    Fs.lookup root' (Path.join dir name) = Some (File payload mode).
Proof.
  intros Hdir Hnd.
  unfold Prim.writeFile, Prim.emit, Prim.get_fs, Prim.set_fs, bind, ret, throw.
  cbn [fs console trace].
  destruct (Fs.lookup (fs w) (Path.join dir name)) as [[c m|es0]|] eqn:E;
    try discriminate.
  - destruct (put_below_dir dir name (File payload m) _ _ Hdir) as [root' Hput].
    exists root', m. unfold Path.join. rewrite Hput. split; [reflexivity|].
    exact (lookup_put_same _ _ _ _ Hput).
  - destruct (put_below_dir dir name (File payload Fs.mode_644) _ _ Hdir)
      as [root' Hput].
    exists root', Fs.mode_644. unfold Path.join. rewrite Hput.
    split; [reflexivity|]. exact (lookup_put_same _ _ _ _ Hput).
Qed.

(** X12.  [downloadArtifact] writes nothing unless the response is successful and
    has a body: otherwise it throws "Failed to download <url> (<status>
    <reason>)" after the one request, the file system being as before.  With
    a successful response, an existing directory and a destination that is
    not a directory, the destination file holds exactly the response body
    afterwards. *)
Theorem downloadArtifact_all_or_nothing (h : Host) (w : World) (url : string)
      (r : Response) (dir : path) (name : string) :
  http_get h url = Ok r ->
  (response_ok r = false \/ body r = None ->
   Download.downloadArtifact url (Path.join dir name) h w =
     (Thrown ("Failed to download " ++ url ++ " (" ++ N_to_string (status r)
              ++ " " ++ statusText r ++ ")"),
      traced w [EvFetch url])) /\
  (forall (payload : bytes) (es : list (string * node)),
     response_ok r = true ->
     body r = Some payload ->
     Fs.lookup (fs w) dir = Some (Dir es) ->
     is_dir (Fs.lookup (fs w) (Path.join dir name)) = false ->
     exists w' mode,
       Download.downloadArtifact url (Path.join dir name) h w
         = (Returned tt, w') /\
       Fs.lookup (fs w') (Path.join dir name) = Some (File payload mode) /\
       console w' = console w /\
       trace w' = (trace w ++ [EvFetch url; EvWriteFile (Path.join dir name)])%list).
Proof.
  intros Hget. unfold Download.downloadArtifact. split.
  - intros Hbad.
    erewrite bind_returned by (rewrite fetch_run, Hget; reflexivity).
    destruct Hbad as [Hok|Hbody].
    + now rewrite Hok.
    + rewrite Hbody. now destruct (response_ok r).
  - intros payload es Hok Hbody Hdir Hnd.
    erewrite bind_returned by (rewrite fetch_run, Hget; reflexivity).
    rewrite Hok, Hbody.
    destruct (writeFile_run h (traced w [EvFetch url]) dir name payload es
                Hdir Hnd) as (root' & mode & Hrun & Hl).
    rewrite Hrun. eexists. exists mode.
    split; [reflexivity|]. cbn [fs console trace traced].
    split; [exact Hl|]. split; [reflexivity|]. now rewrite <- app_assoc.
Qed.

Lemma downloadArtifact_all_or_nothing_witness :
  Download.downloadArtifact "https://example.invalid/curlpit.tar.xz"
    ["tmp"; "curlpit.tar.xz"]
    (with_http offline_host
       (fun _ => Ok {| status := 503; statusText := "Service Unavailable";
                       body := Some "try later" |}))
    (empty_world machine)
  = (Thrown "Failed to download https://example.invalid/curlpit.tar.xz (503 Service Unavailable)",
     traced (empty_world machine)
            [EvFetch "https://example.invalid/curlpit.tar.xz"]) /\
  exists w' mode,
    Download.downloadArtifact "https://example.invalid/curlpit.tar.xz"
      ["tmp"; "curlpit.tar.xz"]
      (with_http offline_host (release_server "xz-archive-bytes"))
      (empty_world machine) = (Returned tt, w') /\
    Fs.lookup (fs w') ["tmp"; "curlpit.tar.xz"]
      = Some (File "xz-archive-bytes" mode).
Proof.
  split.
  - exact (proj1 (downloadArtifact_all_or_nothing
                    (with_http offline_host
                       (fun _ => Ok {| status := 503;
                                       statusText := "Service Unavailable";
                                       body := Some "try later" |}))
                    (empty_world machine) _ _ ["tmp"] "curlpit.tar.xz" eq_refl)
                 (or_introl eq_refl)).
  - destruct (proj2 (downloadArtifact_all_or_nothing
                       (with_http offline_host (release_server "xz-archive-bytes"))
                       (empty_world machine)
                       "https://example.invalid/curlpit.tar.xz" _
                       ["tmp"] "curlpit.tar.xz" eq_refl)
                    "xz-archive-bytes" [] eq_refl eq_refl eq_refl eq_refl)
      as (w' & mode & Hrun & Hl & _).
    exists w', mode. split; [exact Hrun | exact Hl].
Defined.

(** ** More on the file-system model *)

Lemma set_entry_same (es : list (string * node)) (k : string) (n : node) :
  Fs.get_entry es k = Some n -> Fs.set_entry es k n = es.
Proof.
  induction es as [|[k' old] es IH]; cbn [Fs.get_entry Fs.set_entry];
    [discriminate|].
  destruct (String.eqb_spec k' k) as [->|Hne].
  - now intros [= ->].
  - intros H. now rewrite IH.
Qed.

Lemma set_entry_twice (es : list (string * node)) (k : string) (a b : node) :
  Fs.set_entry (Fs.set_entry es k a) k b = Fs.set_entry es k b.
Proof.
  induction es as [|[k' old] es IH]; cbn [Fs.set_entry].
  - now rewrite String.eqb_refl.
  - destruct (String.eqb_spec k' k) as [->|Hne]; cbn [Fs.set_entry].
    + now rewrite String.eqb_refl.
    + apply String.eqb_neq in Hne. now rewrite Hne, IH.
Qed.

Lemma del_set_entry_new (es : list (string * node)) (k : string) (n : node) :
  Fs.get_entry es k = None -> Fs.del_entry (Fs.set_entry es k n) k = es.
Proof.
  induction es as [|[k' old] es IH]; cbn [Fs.get_entry Fs.set_entry Fs.del_entry].
  - now rewrite String.eqb_refl.
  - destruct (String.eqb_spec k' k) as [->|Hne]; [discriminate|].
    intros H. cbn [Fs.del_entry]. apply String.eqb_neq in Hne.
    now rewrite Hne, IH.
Qed.

Lemma put_put (p : path) :
  forall (root root' n n' : node),
    Fs.put root p n = Some root' -> Fs.put root' p n' = Fs.put root p n'.
Proof.
  induction p as [|seg rest IH]; intros root root' n n'; [discriminate|].
  cbn [Fs.put]. destruct root as [|es]; [discriminate|].
  destruct rest as [|seg' rest'].
  - intros [= <-]. now rewrite set_entry_twice.
  - destruct (Fs.get_entry es seg) as [child|]; [|discriminate].
    destruct (Fs.put child (seg' :: rest') n) as [child'|] eqn:E; [|discriminate].
    intros [= <-]. rewrite get_set_entry_same, (IH _ _ _ n' E).
    destruct (Fs.put child (seg' :: rest') n'); [|reflexivity].
    now rewrite set_entry_twice.
Qed.

Lemma remove_below (es : list (string * node)) (seg seg' : string)
      (rest : path) :
  Fs.remove (Dir es) (seg :: seg' :: rest) =
    match Fs.get_entry es seg with
    | Some child => Dir (Fs.set_entry es seg (Fs.remove child (seg' :: rest)))
    | None => Dir es
    end.
Proof. reflexivity. Qed.

(** Removing a freshly created path gives the tree back. *)
Lemma remove_put_new (p : path) :
  forall (root root' n : node),
    Fs.lookup root p = None ->
    Fs.put root p n = Some root' ->
    Fs.remove root' p = root.
Proof.
  induction p as [|seg rest IH]; intros root root' n; [discriminate|].
  cbn [Fs.lookup Fs.put]. destruct root as [|es]; [discriminate|].
  destruct rest as [|seg' rest'].
  - destruct (Fs.get_entry es seg) eqn:G; [discriminate|].
    intros _ [= <-]. cbn [Fs.remove]. now rewrite del_set_entry_new.
  - destruct (Fs.get_entry es seg) as [child|] eqn:G; [|discriminate].
    destruct (Fs.put child (seg' :: rest') n) as [child'|] eqn:E; [|discriminate].
    intros Hl [= <-]. rewrite remove_below, get_set_entry_same.
    rewrite (IH _ _ _ Hl E), set_entry_twice.
    now rewrite set_entry_same.
Qed.

Lemma mkdir_p_existing (p : path) :
  forall (root : node) (es : list (string * node)),
    Fs.lookup root p = Some (Dir es) -> Fs.mkdir_p root p = Some root.
Proof.
  induction p as [|seg rest IH]; intros root es; cbn [Fs.lookup Fs.mkdir_p].
  - now intros [= ->].
  - destruct root as [|es0]; [discriminate|].
    destruct (Fs.get_entry es0 seg) as [child|] eqn:G; [|discriminate].
    intros Hl. rewrite (IH _ _ Hl). now rewrite set_entry_same.
Qed.

Lemma put_below (es : list (string * node)) (seg name : string) (rest : path)
      (n : node) :
  Fs.put (Dir es) (seg :: rest ++ [name])%list n =
    match Fs.get_entry es seg with
    | Some child =>
        match Fs.put child (rest ++ [name])%list n with
        | Some child' => Some (Dir (Fs.set_entry es seg child'))
        | None => None
        end
    | None => None
    end.
Proof. now destruct rest. Qed.

Lemma put_parent_dir (dir : path) (name : string) :
  forall (root root' n : node),
    Fs.put root (dir ++ [name])%list n = Some root' ->
    exists es, Fs.lookup root' dir = Some (Dir es).
Proof.
  induction dir as [|seg rest IH]; intros root root' n.
  - cbn. destruct root; [discriminate|]. intros [= <-]. eauto.
  - destruct root as [|es]; [discriminate|].
    change ((seg :: rest) ++ [name])%list with (seg :: rest ++ [name])%list.
    rewrite put_below.
    destruct (Fs.get_entry es seg) as [child|]; [|discriminate].
    destruct (Fs.put child (rest ++ [name])%list n) as [child'|] eqn:P;
      [|discriminate].
    intros [= <-]. cbn [Fs.lookup]. rewrite get_set_entry_same.
    exact (IH _ _ _ P).
Qed.

(** Writing at a path that is not a directory leaves every other regular
    file as it is. *)
Lemma lookup_put_other (p : path) :
  forall (root root' n : node) (q : path) (content : bytes) (mode : N),
    Fs.put root p n = Some root' ->
    is_dir (Fs.lookup root p) = false ->
    Fs.lookup root q = Some (File content mode) ->
    q <> p ->
    Fs.lookup root' q = Some (File content mode).
Proof.
  induction p as [|seg rest IH]; intros root root' n q content mode;
    [discriminate|].
  cbn [Fs.put Fs.lookup]. destruct root as [|es]; [discriminate|].
  destruct q as [|s q']; [discriminate|]. cbn [Fs.lookup].
  destruct rest as [|seg' rest'].
  - intros [= <-] Hnd Hq Hne.
    destruct (String.eqb_spec seg s) as [<-|Hs].
    + destruct (Fs.get_entry es seg) as [child|]; [|discriminate].
      destruct q' as [|s' q'']; [now elim Hne|].
      destruct child as [c m|sub]; [discriminate|]. discriminate.
    + cbn [Fs.lookup]. now rewrite get_set_entry_other.
  - destruct (Fs.get_entry es seg) as [child|] eqn:G; [|discriminate].
    destruct (Fs.put child (seg' :: rest') n) as [child'|] eqn:P; [|discriminate].
    intros [= <-] Hnd Hq Hne. cbn [Fs.lookup].
    destruct (String.eqb_spec seg s) as [<-|Hs].
    + rewrite get_set_entry_same. rewrite G in Hq.
      apply (IH _ _ _ _ _ _ P Hnd Hq). intros ->. now elim Hne.
    + now rewrite get_set_entry_other.
Qed.

(** ** The scratch directory *)

Lemma createTempDir_inv (h : Host) (w w1 : World) (prefix : string) (t : path) :
  Filesystem.createTempDir prefix h w = (Returned t, w1) ->
  t = Path.join (tmpdir h) (prefix ++ temp_suffix h) /\
  Fs.lookup (fs w) t = None /\
  Fs.put (fs w) t (Dir []) = Some (fs w1) /\
  console w1 = console w /\
  trace w1 = (trace w ++ [EvMkdtemp t])%list.
Proof.
  unfold Filesystem.createTempDir, Prim.mkdtemp, Prim.emit, Prim.get_fs,
    Prim.set_fs, bind, ask, ret, throw.
  cbn [fs console trace].
  destruct (Fs.lookup (fs w) _) eqn:L; [discriminate|].
  destruct (Fs.put (fs w) _ (Dir [])) eqn:P; [|discriminate].
  intros [= <- <-]. cbn [fs console trace]. auto.
Qed.

Lemma cleanup_run (h : Host) (w : World) (p : path) :
  rm_failure h p = None ->
  Filesystem.cleanup p h w =
    (Returned tt,
     {| fs := Fs.remove (fs w) p; console := console w;
        trace := (trace w ++ [EvRm p])%list |}).
Proof.
  intros Hrm.
  unfold Filesystem.cleanup, Prim.rm_recursive_force, Prim.emit, Prim.get_fs,
    Prim.set_fs, bind, ask, ret, throw.
  cbn [fs console trace]. now rewrite Hrm.
Qed.

(** X13.  [createTempDir] followed by [cleanup] is a round trip on the file
    system: whatever the installation has put into the scratch directory in
    between, a removal that does not fail gives back the tree that was
    there before the directory was created. *)
Theorem createTempDir_cleanup_round_trip (h : Host) (w w1 w2 : World)
      (prefix : string) (t : path) (contents : node) :
  Filesystem.createTempDir prefix h w = (Returned t, w1) ->
  Fs.put (fs w1) t contents = Some (fs w2) ->
  rm_failure h t = None ->
  exists w3,
    Filesystem.cleanup t h w2 = (Returned tt, w3) /\
    fs w3 = fs w /\
    console w3 = console w2.
Proof.
  intros Hcreate Hfill Hrm.
  apply createTempDir_inv in Hcreate as (_ & Hnew & Hput & _ & _).
  rewrite (put_put _ _ _ _ contents Hput) in Hfill.
  rewrite (cleanup_run h w2 t Hrm). eexists. split; [reflexivity|].
  cbn [fs console]. split; [|reflexivity].
  exact (remove_put_new _ _ _ _ Hnew Hfill).
Qed.

Lemma createTempDir_cleanup_round_trip_witness :
  exists w3,
    Filesystem.cleanup scratch offline_host (empty_world downloaded)
      = (Returned tt, w3) /\
    fs w3 = machine.
Proof.
  destruct (createTempDir_cleanup_round_trip offline_host (empty_world machine)
              _ (empty_world downloaded) "curlpit-npm-" scratch
              (Dir [ (linux_archive_name, File "xz-archive-bytes" 420) ])
              eq_refl eq_refl eq_refl) as (w3 & Hrun & Hfs & _).
  exists w3. split; [exact Hrun | exact Hfs].
Defined.

(** ** Installing the extracted binary *)

(** X14.  [ensureExecutable] installs and can be run again: with a regular source
    file, a destination directory that can be created and a destination
    that is not a directory, it leaves at the destination the bytes of the
    source, with mode 0o755 when asked to; a second run with the same
    arguments succeeds too and changes nothing in the file system. *)
Theorem ensureExecutable_idempotent (h : Host) (w : World) (sourcePath dir : path)
      (name : string) (makeExecutable : bool) (content : bytes) (mode : N)
      (root1 : node) :
  Fs.lookup (fs w) sourcePath = Some (File content mode) ->
  Fs.mkdir_p (fs w) dir = Some root1 ->
  is_dir (Fs.lookup (fs w) (Path.join dir name)) = false ->
  sourcePath <> Path.join dir name ->
  exists w1 w2,
    Filesystem.ensureExecutable sourcePath (Path.join dir name) makeExecutable h w
      = (Returned tt, w1) /\
    Fs.lookup (fs w1) (Path.join dir name)
      = Some (File content (if makeExecutable then Fs.mode_755 else mode)) /\
    Filesystem.ensureExecutable sourcePath (Path.join dir name) makeExecutable h w1
      = (Returned tt, w2) /\
    fs w2 = fs w1.
Proof.
  intros Hsrc Hmk Hdst Hne.
  set (dst := Path.join dir name) in *.
  assert (Hparent : Path.dirname dst = dir)
    by (unfold dst, Path.dirname, Path.join; apply removelast_last).
  destruct (mkdir_p_is_dir _ _ _ Hmk) as [es Hdir].
  pose proof (mkdir_p_keeps_files _ _ _ _ _ _ Hmk Hsrc) as Hsrc1.
  pose proof (mkdir_p_keeps_below _ name _ _ Hmk) as Hbelow.
  change (dir ++ [name])%list with dst in Hbelow.
  assert (Hdst1 : is_dir (Fs.lookup root1 dst) = false) by now rewrite Hbelow.
  destruct (put_below_dir dir name (File content mode) _ _ Hdir) as [root2 Hput].
  change (dir ++ [name])%list with dst in Hput.
  pose proof (lookup_put_same _ _ _ _ Hput) as Hl2.
  pose proof (lookup_put_other _ _ _ _ _ _ _ Hput Hdst1 Hsrc1 Hne) as Hsrc2.
  destruct (put_again _ _ _ _ (File content Fs.mode_755) Hput) as [root3 Hput3].
  pose proof (lookup_put_same _ _ _ _ Hput3) as Hl3.
  assert (Hdst2 : is_dir (Fs.lookup root2 dst) = false) by now rewrite Hl2.
  pose proof (lookup_put_other _ _ _ _ _ _ _ Hput3 Hdst2 Hsrc2 Hne) as Hsrc3.
  destruct (put_parent_dir dir name root1 root2 (File content mode) Hput)
    as [es2 Hdir2].
  destruct (put_parent_dir dir name root2 root3 (File content Fs.mode_755) Hput3)
    as [es3 Hdir3].
  assert (Hre2 : Fs.put root2 dst (File content mode) = Some root2)
    by (rewrite (put_put _ _ _ _ _ Hput); exact Hput).
  assert (Hre3 : Fs.put root3 dst (File content mode) = Some root2)
    by (rewrite (put_put _ _ _ _ _ Hput3); exact Hre2).
  unfold Filesystem.ensureExecutable, Filesystem.ensureDir. rewrite Hparent.
  destruct makeExecutable.
  - eexists. eexists. split; [|split; [|split]].
    + erewrite bind_returned by (apply mkdir_recursive_run; exact Hmk).
      erewrite bind_returned
        by (apply copyFile_run with (content := content) (mode := mode);
            cbn [fs]; [exact Hsrc1 | exact Hdst1 | exact Hput]).
      apply chmod_run with (content := content) (old := mode); cbn [fs];
        [exact Hl2 | exact Hput3].
    + cbn [fs]. exact Hl3.
    + erewrite bind_returned
        by (apply mkdir_recursive_run; cbn [fs];
            exact (mkdir_p_existing _ _ _ Hdir3)).
      erewrite bind_returned
        by (apply copyFile_run with (content := content) (mode := mode);
            cbn [fs]; [exact Hsrc3 | now rewrite Hl3 | exact Hre3]).
      apply chmod_run with (content := content) (old := mode); cbn [fs];
        [exact Hl2 | exact Hput3].
    + reflexivity.
  - eexists. eexists. split; [|split; [|split]].
    + erewrite bind_returned by (apply mkdir_recursive_run; exact Hmk).
      erewrite bind_returned
        by (apply copyFile_run with (content := content) (mode := mode);
            cbn [fs]; [exact Hsrc1 | exact Hdst1 | exact Hput]).
      reflexivity.
    + cbn [fs]. exact Hl2.
    + erewrite bind_returned
        by (apply mkdir_recursive_run; cbn [fs];
            exact (mkdir_p_existing _ _ _ Hdir2)).
      erewrite bind_returned
        by (apply copyFile_run with (content := content) (mode := mode);
            cbn [fs]; [exact Hsrc2 | now rewrite Hl2 | exact Hre2]).
      reflexivity.
    + reflexivity.
Qed.

Lemma ensureExecutable_idempotent_witness :
  exists w1 w2,
    Filesystem.ensureExecutable ["work"; "target"; "release"; "curlpit"]
      ["opt"; "curlpit"; "bin"; "curlpit"] true offline_host
      (empty_world checkout) = (Returned tt, w1) /\
    Fs.lookup (fs w1) ["opt"; "curlpit"; "bin"; "curlpit"]
      = Some (File "ELF-curlpit-build" 493) /\
    Filesystem.ensureExecutable ["work"; "target"; "release"; "curlpit"]
      ["opt"; "curlpit"; "bin"; "curlpit"] true offline_host w1
      = (Returned tt, w2) /\
    fs w2 = fs w1.
Proof.
  refine (ensureExecutable_idempotent offline_host (empty_world checkout)
            ["work"; "target"; "release"; "curlpit"] ["opt"; "curlpit"; "bin"]
            "curlpit" true "ELF-curlpit-build" 493%N _
            eq_refl eq_refl eq_refl _).
  discriminate.
Defined.

(** ** How the npm installer ends *)

Lemma exits_ret (code : Z) {A : Type} (a : A) : exits_only_with code (ret a).
Proof. intros h w c w' H. discriminate H. Qed.

Lemma exits_throw (code : Z) {A : Type} (e : Error) :
  exits_only_with code (@throw A e).
Proof. intros h w c w' H. discriminate H. Qed.

Lemma exits_exit (code : Z) {A : Type} : exits_only_with code (@exit A code).
Proof. intros h w c w' H. now injection H as <- _. Qed.

Lemma exits_ask (code : Z) : exits_only_with code ask.
Proof. intros h w c w' H. discriminate H. Qed.

Lemma exits_lift (code : Z) {A : Type} (r : result A) :
  exits_only_with code (lift r).
Proof. destruct r; [apply exits_ret|apply exits_throw]. Qed.

Lemma exits_bind (code : Z) {A B : Type} (m : Action A) (k : A -> Action B) :
  exits_only_with code m ->
  (forall a, exits_only_with code (k a)) ->
  exits_only_with code (bind m k).
Proof.
  intros Hm Hk h w c w'. unfold bind.
  destruct (m h w) as [[a|e|c0] w0] eqn:E.
  - apply Hk.
  - discriminate.
  - intros [= <- <-]. exact (Hm _ _ _ _ E).
Qed.

Lemma exits_try_catch (code : Z) {A : Type} (body : Action A)
      (handler : Error -> Action A) :
  exits_only_with code body ->
  (forall e, exits_only_with code (handler e)) ->
  exits_only_with code (try_catch body handler).
Proof.
  intros Hb Hh h w c w'. unfold try_catch.
  destruct (body h w) as [[a|e|c0] w0] eqn:E.
  - discriminate.
  - apply Hh.
  - intros [= <- <-]. exact (Hb _ _ _ _ E).
Qed.

Lemma exits_try_finally (code : Z) {A : Type} (body : Action A)
      (fin : Action unit) :
  exits_only_with code body ->
  exits_only_with code fin ->
  exits_only_with code (try_finally body fin).
Proof.
  intros Hb Hf h w c w'. unfold try_finally.
  destruct (body h w) as [[a|e|c0] w0] eqn:E.
  - destruct (fin h w0) as [[[]|e|c1] w1] eqn:F; try discriminate.
    intros [= <- <-]. exact (Hf _ _ _ _ F).
  - destruct (fin h w0) as [[[]|e1|c1] w1] eqn:F; try discriminate.
    intros [= <- <-]. exact (Hf _ _ _ _ F).
  - intros [= <- <-]. exact (Hb _ _ _ _ E).
Qed.

Create HintDb no_exit.

#[local] Hint Resolve exits_ret exits_throw exits_exit exits_ask exits_lift
  : no_exit.

(** Splitting an action along its binds and case distinctions. *)
Ltac split_action :=
  repeat first
    [ solve [auto with no_exit]
    | progress cbv zeta
    | apply exits_bind; [|intros ?]
    | apply exits_try_catch; [|intros ?]
    | apply exits_try_finally
    | match goal with
      | |- exits_only_with _ (if ?b then _ else _) => destruct b
      | |- exits_only_with _ (match ?x with _ => _ end) => destruct x
      | |- exits_only_with _ (let '(_, _) := ?x in _) => destruct x
      end ];
  auto with no_exit.

Lemma exits_emit (code : Z) (e : Event) : exits_only_with code (Prim.emit e).
Proof. intros h w c w' H. discriminate H. Qed.

Lemma exits_print (code : Z) (s : Stream) (text : string) :
  exits_only_with code (Prim.print s text).
Proof. intros h w c w' H. discriminate H. Qed.

Lemma exits_get_fs (code : Z) : exits_only_with code Prim.get_fs.
Proof. intros h w c w' H. discriminate H. Qed.

Lemma exits_set_fs (code : Z) (root : node) :
  exits_only_with code (Prim.set_fs root).
Proof. intros h w c w' H. discriminate H. Qed.

Lemma exits_console_log (code : Z) (text : string) :
  exits_only_with code (Prim.console_log text).
Proof. apply exits_print. Qed.

Lemma exits_console_warn (code : Z) (text : string) :
  exits_only_with code (Prim.console_warn text).
Proof. apply exits_print. Qed.

Lemma exits_console_error (code : Z) (text : string) :
  exits_only_with code (Prim.console_error text).
Proof. apply exits_print. Qed.

#[local] Hint Resolve exits_emit exits_print exits_get_fs exits_set_fs
  exits_console_log exits_console_warn exits_console_error : no_exit.

Lemma exits_fetch (code : Z) (url : string) :
  exits_only_with code (Prim.fetch url).
Proof. unfold Prim.fetch. split_action. Qed.

Lemma exits_access (code : Z) (p : path) :
  exits_only_with code (Prim.access_X_OK p).
Proof. unfold Prim.access_X_OK. split_action. Qed.

Lemma exits_mkdir (code : Z) (p : path) :
  exits_only_with code (Prim.mkdir_recursive p).
Proof. unfold Prim.mkdir_recursive. split_action. Qed.

Lemma exits_mkdtemp (code : Z) (dir : path) (prefix : string) :
  exits_only_with code (Prim.mkdtemp dir prefix).
Proof. unfold Prim.mkdtemp. split_action. Qed.

Lemma exits_copyFile (code : Z) (src dst : path) :
  exits_only_with code (Prim.copyFile src dst).
Proof. unfold Prim.copyFile. split_action. Qed.

Lemma exits_chmod (code : Z) (p : path) (mode : N) :
  exits_only_with code (Prim.chmod p mode).
Proof. unfold Prim.chmod. split_action. Qed.

Lemma exits_readFile (code : Z) (p : path) :
  exits_only_with code (Prim.readFile p).
Proof. unfold Prim.readFile. split_action. Qed.

Lemma exits_writeFile (code : Z) (p : path) (content : bytes) :
  exits_only_with code (Prim.writeFile p content).
Proof. unfold Prim.writeFile. split_action. Qed.

Lemma exits_readdir (code : Z) (p : path) :
  exits_only_with code (Prim.readdir p).
Proof. unfold Prim.readdir. split_action. Qed.

Lemma exits_rm (code : Z) (p : path) :
  exits_only_with code (Prim.rm_recursive_force p).
Proof. unfold Prim.rm_recursive_force. split_action. Qed.

Lemma exits_run_child (code : Z) (command : string) (args : list string) :
  exits_only_with code (Prim.run_child command args).
Proof. unfold Prim.run_child. split_action. Qed.

#[local] Hint Resolve exits_fetch exits_access exits_mkdir exits_mkdtemp
  exits_copyFile exits_chmod exits_readFile exits_writeFile exits_readdir
  exits_rm exits_run_child : no_exit.

Lemma exits_downloadArtifact (code : Z) (url : string) (dst : path) :
  exits_only_with code (Download.downloadArtifact url dst).
Proof. unfold Download.downloadArtifact. split_action. Qed.

Lemma exits_fetchChecksumText (code : Z) (url : string) :
  exits_only_with code (Download.fetchChecksumText url).
Proof. unfold Download.fetchChecksumText. split_action. Qed.

Lemma exits_verifyChecksum (code : Z) (p : path) (expected : string) :
  exits_only_with code (Download.verifyChecksum p expected).
Proof. unfold Download.verifyChecksum. split_action. Qed.

Lemma exits_runCommand (code : Z) (command : string) (args : list string) :
  exits_only_with code (Extract.runCommand command args).
Proof. unfold Extract.runCommand. split_action. Qed.

#[local] Hint Resolve exits_downloadArtifact exits_fetchChecksumText
  exits_verifyChecksum exits_runCommand : no_exit.

Lemma exits_locateBinary (code : Z) (dir : path) :
  exits_only_with code (Extract.locateBinary dir).
Proof.
  intros h w c w' H. destruct (locateBinary_run h w dir) as (dirs & E).
  rewrite E in H.
  destruct (Fs.lookup (fs w) dir) as [[content mode|es]|]; discriminate H.
Qed.

#[local] Hint Resolve exits_locateBinary : no_exit.

Lemma exits_extractArchive (code : Z) (archivePath tempDir : path)
      (platform : NormalizedPlatform) (tarPath : option string) :
  exits_only_with code
    (Extract.extractArchive archivePath tempDir platform tarPath).
Proof.
  unfold Extract.extractArchive. split_action.
Qed.

Lemma exits_ensureExecutable (code : Z) (src dst : path) (mk : bool) :
  exits_only_with code (Filesystem.ensureExecutable src dst mk).
Proof.
  unfold Filesystem.ensureExecutable, Filesystem.ensureDir. split_action.
Qed.

Lemma exits_installLocalBinary (code : Z) (src : string) (dir : path)
      (name : string) (mk : bool) :
  exits_only_with code (Filesystem.installLocalBinary src dir name mk).
Proof.
  unfold Filesystem.installLocalBinary, Filesystem.isExecutable,
    Filesystem.ensureDir.
  split_action.
Qed.

#[local] Hint Resolve exits_extractArchive exits_ensureExecutable
  exits_installLocalBinary : no_exit.

Lemma exits_npm_run : exits_only_with 1 NpmInstall.run.
Proof.
  unfold NpmInstall.run, NpmInstall.unexpected, NpmInstall.main,
    NpmInstall.attempt, Filesystem.createTempDir, Filesystem.cleanup.
  split_action.
Qed.

(** X15.  The npm installer always ends with exit status 0 or 1: an exception
    from any step (planning, the local-binary path, the pipeline, even the
    final cleanup) is caught, reported and turned into status 1, and no
    other status is ever used. *)
Theorem npm_run_exit_status (h : Host) (w : World) :
  (exists w', NpmInstall.run h w = (Returned tt, w')) \/
  (exists w', NpmInstall.run h w = (Exited 1, w')).
Proof.
  destruct (NpmInstall.run h w) as [[[]|e|c] w'] eqn:E.
  - left. eauto.
  - exfalso. revert E. unfold NpmInstall.run, try_catch.
    destruct (NpmInstall.main h w) as [[[]|e0|c0] w0]; discriminate.
  - right. rewrite (exits_npm_run _ _ _ _ E). eauto.
Qed.

Lemma downloadArtifact_rejected (h : Host) (w : World) (url : string)
      (dst : path) (r : Response) :
  http_get h url = Ok r ->
  response_ok r = false ->
  Download.downloadArtifact url dst h w =
    (Thrown ("Failed to download " ++ url ++ " " ++ Download.status_line r),
     traced w [EvFetch url]).
Proof.
  intros Hget Hok. unfold Download.downloadArtifact.
  erewrite bind_returned by (rewrite fetch_run, Hget; reflexivity).
  now rewrite Hok.
Qed.

Lemma npm_attempt_download_failure (h : Host) (w : World)
      (platform arch : string) (plan : ReleasePlan)
      (tempDir archivePath binaryDestination : path) (skipChecksum : bool)
      (tarPath : option string) (r : Response) :
  http_get h (plan_artifactUrl plan) = Ok r ->
  response_ok r = false ->
  NpmInstall.attempt platform arch plan tempDir archivePath binaryDestination
                     skipChecksum tarPath h w =
    (Exited 1,
     {| fs := fs w;
        console :=
          (console w
           ++ [ (Stdout,
                 ("Downloading curlpit binary (" ++ platform ++ "/" ++ arch
                  ++ ") from " ++ plan_artifactUrl plan)%string);
                (Stderr,
                 ("Failed to install curlpit binary: Failed to download "
                  ++ plan_artifactUrl plan ++ " "
                  ++ Download.status_line r)%string) ])%list;
        trace := (trace w ++ [EvFetch (plan_artifactUrl plan)])%list |}).
Proof.
  intros Hget Hok. unfold NpmInstall.attempt, try_catch.
  erewrite bind_returned by reflexivity.
  erewrite bind_thrown by (apply downloadArtifact_rejected; eassumption).
  unfold bind, Prim.console_error, Prim.print, exit, traced.
  cbn [fs console trace]. now rewrite <- app_assoc.
Qed.

(** X16.  A download that the server refuses ends the npm installer with status
    1 after one request and two console lines, the second one naming the
    step and the HTTP status.  The process exits inside the [catch] block,
    so the [finally] block is not reached: the scratch directory that was
    created for the attempt is still on disk. *)
Theorem npm_failed_download_leaves_scratch (h : Host) (w w1 : World)
      (plan : ReleasePlan) (tempDir : path) (r : Response) :
  env_truthy (env h "CURLPIT_SKIP_POSTINSTALL") = false ->
  env_truthy (env h "CURLPIT_LOCAL_BINARY") = false ->
  Release.planRelease (NpmInstall.install_context h) = Ok plan ->
  Filesystem.createTempDir "curlpit-npm-" h w = (Returned tempDir, w1) ->
  http_get h (plan_artifactUrl plan) = Ok r ->
  response_ok r = false ->
  NpmInstall.run h w =
    (Exited 1,
     {| fs := fs w1;
        console :=
          (console w
           ++ [ (Stdout,
                 ("Downloading curlpit binary ("
                  ++ ctx_platform (NpmInstall.install_context h) ++ "/"
                  ++ ctx_arch (NpmInstall.install_context h)
                  ++ ") from " ++ plan_artifactUrl plan)%string);
                (Stderr,
                 ("Failed to install curlpit binary: Failed to download "
                  ++ plan_artifactUrl plan ++ " (" ++ N_to_string (status r)
                  ++ " " ++ statusText r ++ ")")%string) ])%list;
        trace := (trace w ++ [EvMkdtemp tempDir;
                              EvFetch (plan_artifactUrl plan)])%list |}) /\
  Fs.lookup (fs w1) tempDir = Some (Dir []).
Proof.
  intros Hskip Hlocal Hplan Hcreate Hget Hok.
  pose proof (createTempDir_inv _ _ _ _ _ Hcreate) as (_ & _ & Hput & Hc & Ht).
  split; [|exact (lookup_put_same _ _ _ _ Hput)].
  unfold NpmInstall.run, try_catch, NpmInstall.main.
  erewrite bind_returned by reflexivity.
  rewrite Hskip, Hplan. cbv zeta.
  erewrite bind_returned by reflexivity.
  rewrite Hlocal.
  erewrite bind_returned by exact Hcreate.
  unfold try_finally.
  rewrite (npm_attempt_download_failure h w1 _ _ plan _ _ _ _ _ r Hget Hok).
  rewrite Hc, Ht, <- app_assoc. reflexivity.
Qed.

Lemma npm_failed_download_leaves_scratch_witness :
  let h := with_http offline_host
             (fun _ => Ok {| status := 404; statusText := "Not Found";
                             body := Some "Not Found" |}) in
  fst (NpmInstall.run h (empty_world machine)) = Exited 1 /\
  Fs.lookup (fs (snd (NpmInstall.run h (empty_world machine)))) scratch
    = Some (Dir []).
Proof.
  intros h.
  destruct (npm_failed_download_leaves_scratch h (empty_world machine) _ _
              scratch _ eq_refl eq_refl eq_refl eq_refl eq_refl eq_refl)
    as [Hrun Hdir].
  rewrite Hrun. split; [reflexivity | exact Hdir].
Defined.

(** ** What the local-binary path touches *)

Lemma footprint_ret (P : Event -> bool) {A : Type} (a : A) : footprint P (ret a).
Proof. intros h w. exists []. now rewrite app_nil_r. Qed.

Lemma footprint_throw (P : Event -> bool) {A : Type} (e : Error) :
  footprint P (@throw A e).
Proof. intros h w. exists []. now rewrite app_nil_r. Qed.

Lemma footprint_exit (P : Event -> bool) {A : Type} (c : Z) :
  footprint P (@exit A c).
Proof. intros h w. exists []. now rewrite app_nil_r. Qed.

Lemma footprint_ask (P : Event -> bool) : footprint P ask.
Proof. intros h w. exists []. now rewrite app_nil_r. Qed.

Lemma footprint_get_fs (P : Event -> bool) : footprint P Prim.get_fs.
Proof. intros h w. exists []. now rewrite app_nil_r. Qed.

Lemma footprint_set_fs (P : Event -> bool) (root : node) :
  footprint P (Prim.set_fs root).
Proof. intros h w. exists []. cbn. now rewrite app_nil_r. Qed.

Lemma footprint_print (P : Event -> bool) (s : Stream) (text : string) :
  footprint P (Prim.print s text).
Proof. intros h w. exists []. cbn. now rewrite app_nil_r. Qed.

Lemma footprint_console_log (P : Event -> bool) (text : string) :
  footprint P (Prim.console_log text).
Proof. apply footprint_print. Qed.

Lemma footprint_console_error (P : Event -> bool) (text : string) :
  footprint P (Prim.console_error text).
Proof. apply footprint_print. Qed.

Lemma footprint_emit (P : Event -> bool) (e : Event) :
  P e = true -> footprint P (Prim.emit e).
Proof. intros He h w. exists [e]. cbn. now rewrite He. Qed.

Lemma footprint_bind (P : Event -> bool) {A B : Type} (m : Action A)
      (k : A -> Action B) :
  footprint P m -> (forall a, footprint P (k a)) -> footprint P (bind m k).
Proof.
  intros Hm Hk h w. destruct (Hm h w) as (ev1 & Ht1 & Hp1). unfold bind.
  destruct (m h w) as [[a|e|c] w1]; cbn [snd] in Ht1 |- *;
    try (exists ev1; now split).
  destruct (Hk a h w1) as (ev2 & Ht2 & Hp2).
  exists (ev1 ++ ev2)%list. rewrite Ht2, Ht1, app_assoc. split; [reflexivity|].
  now rewrite forallb_app, Hp1, Hp2.
Qed.

Lemma footprint_try_catch (P : Event -> bool) {A : Type} (body : Action A)
      (handler : Error -> Action A) :
  footprint P body -> (forall e, footprint P (handler e)) ->
  footprint P (try_catch body handler).
Proof.
  intros Hb Hh h w. destruct (Hb h w) as (ev1 & Ht1 & Hp1). unfold try_catch.
  destruct (body h w) as [[a|e|c] w1]; cbn [snd] in Ht1 |- *;
    try (exists ev1; now split).
  destruct (Hh e h w1) as (ev2 & Ht2 & Hp2).
  exists (ev1 ++ ev2)%list. rewrite Ht2, Ht1, app_assoc. split; [reflexivity|].
  now rewrite forallb_app, Hp1, Hp2.
Qed.

Create HintDb footprint.

#[local] Hint Resolve footprint_ret footprint_throw footprint_exit
  footprint_ask footprint_get_fs footprint_set_fs footprint_print
  footprint_console_log footprint_console_error : footprint.

Ltac split_footprint :=
  repeat first
    [ solve [auto with footprint]
    | apply footprint_emit; reflexivity
    | progress cbv zeta
    | apply footprint_bind; [|intros ?]
    | apply footprint_try_catch; [|intros ?]
    | match goal with
      | |- footprint _ (if ?b then _ else _) => destruct b
      | |- footprint _ (match ?x with _ => _ end) => destruct x
      end ].

Lemma footprint_installLocalBinary (src : string) (dir : path) (name : string)
      (mk : bool) :
  footprint local_event (Filesystem.installLocalBinary src dir name mk).
Proof.
  unfold Filesystem.installLocalBinary, Filesystem.isExecutable,
    Filesystem.ensureDir, Prim.access_X_OK, Prim.mkdir_recursive,
    Prim.copyFile, Prim.chmod.
  split_footprint.
Qed.

(** X17.  With [CURLPIT_LOCAL_BINARY] set the npm installer stays on the local
    file system: whether the installation succeeds or fails, the only
    effects it requests are the access check, the creation of the
    destination directory, the copy and the permission change.  There is no
    network request, no child process and no scratch directory. *)
Theorem npm_local_binary_stays_local (h : Host) (w : World) (plan : ReleasePlan) :
  env_truthy (env h "CURLPIT_SKIP_POSTINSTALL") = false ->
  Release.planRelease (NpmInstall.install_context h) = Ok plan ->
  env_truthy (env h "CURLPIT_LOCAL_BINARY") = true ->
  exists events,
    trace (snd (NpmInstall.run h w)) = (trace w ++ events)%list /\
    forallb local_event events = true.
Proof.
  intros Hskip Hplan Hlocal.
  assert (Hrun : exists (binDir : path) (text : string),
             NpmInstall.run h w =
               try_catch
                 (Filesystem.installLocalBinary
                    (nullish (env h "CURLPIT_LOCAL_BINARY") "") binDir
                    (binaryName (plan_target plan))
                    (NpmInstall.not_win32 (plan_platform plan)) ;;;
                  Prim.console_log text)
                 NpmInstall.unexpected h w).
  { eexists. eexists. unfold NpmInstall.run, try_catch, NpmInstall.main.
    erewrite bind_returned by reflexivity.
    rewrite Hskip, Hplan. cbv zeta.
    erewrite bind_returned by reflexivity.
    rewrite Hlocal. reflexivity. }
  destruct Hrun as (binDir & text & ->).
  apply footprint_try_catch.
  - apply footprint_bind; [apply footprint_installLocalBinary|].
    intros _. apply footprint_console_log.
  - intros e. unfold NpmInstall.unexpected. split_footprint.
Qed.

Lemma npm_local_binary_stays_local_witness :
  let h := with_env offline_host
             (fun key => if String.eqb key "CURLPIT_LOCAL_BINARY"
                         then Some "target/release/curlpit" else None) in
  exists events,
    trace (snd (NpmInstall.run h (empty_world checkout))) = events /\
    forallb local_event events = true.
Proof.
  intros h.
  exact (npm_local_binary_stays_local h (empty_world checkout) _
           eq_refl eq_refl eq_refl).
Defined.

(** ** The earlier installer's choice of the binary *)

Lemma join_injective (dir : path) (a b : string) :
  Path.join dir a = Path.join dir b -> a = b.
Proof.
  unfold Path.join. intros H. now apply app_inj_tail in H as [_ H].
Qed.

Lemma pick_spec (tempDir : path) (archiveName : string)
      (es : list (string * node)) :
  match InstallJs.pick tempDir archiveName es with
  | Some found =>
      exists entry content mode,
        found = Path.join tempDir entry /\
        In (entry, File content mode) es /\
        entry <> archiveName /\
        Js.startsWith entry "curlpit" = true
  | None =>
      forall entry content mode,
        In (entry, File content mode) es ->
        entry = archiveName \/ Js.startsWith entry "curlpit" = false
  end.
Proof.
  induction es as [|[k n] es IH]; cbn [InstallJs.pick]; [now intros|].
  assert (Hrest : forall found,
             (exists entry content mode,
                 found = Path.join tempDir entry /\
                 In (entry, File content mode) es /\
                 entry <> archiveName /\
                 Js.startsWith entry "curlpit" = true) ->
             exists entry content mode,
               found = Path.join tempDir entry /\
               In (entry, File content mode) ((k, n) :: es) /\
               entry <> archiveName /\
               Js.startsWith entry "curlpit" = true).
  { intros found (entry & c & m & E & Hin & Hne & Hp).
    exists entry, c, m. repeat split; auto. now right. }
  destruct (String.eqb_spec k archiveName) as [Hk|Hk].
  - destruct (InstallJs.pick tempDir archiveName es) as [found|]; [auto|].
    intros entry c m [E|Hin]; [|eauto].
    injection E as E1 E2. left. congruence.
  - destruct (Js.startsWith k "curlpit") eqn:Hp; cbn [negb].
    + destruct n as [c m|sub].
      * exists k, c, m. repeat split; auto. now left.
      * destruct (InstallJs.pick tempDir archiveName es) as [found|]; [auto|].
        intros entry c m [E|Hin]; [discriminate E|eauto].
    + destruct (InstallJs.pick tempDir archiveName es) as [found|]; [auto|].
      intros entry c m [E|Hin]; [|eauto].
      injection E as E1 E2. right. congruence.
Qed.

(** X18.  The earlier npm installer never mistakes the archive for the binary:
    what its [extractArchive] returns is a regular file at the top of the
    scratch directory whose name begins with "curlpit" and differs from
    the archive's name. *)
Theorem install_js_never_returns_archive (h : Host) (w : World)
      (tempDir : path) (archiveName : string) (found : path) :
  fst (InstallJs.extractArchive (Path.join tempDir archiveName) tempDir h w)
    = Returned found ->
  found <> Path.join tempDir archiveName /\
  exists entry, found = Path.join tempDir entry /\
                Js.startsWith entry "curlpit" = true.
Proof.
  unfold InstallJs.extractArchive. intros H.
  apply bind_fst_returned in H as ([] & w1 & _ & H).
  apply bind_fst_returned in H as (es & w2 & _ & H).
  assert (Hbase : Path.basename (Path.join tempDir archiveName) = archiveName)
    by (unfold Path.basename, Path.join; apply last_last).
  rewrite Hbase in H.
  pose proof (pick_spec tempDir archiveName es) as Hpick.
  destruct (InstallJs.pick tempDir archiveName es) as [p|]; [|discriminate].
  cbn in H. injection H as <-.
  destruct Hpick as (entry & c & m & -> & _ & Hne & Hp). split.
  - intros E. apply join_injective in E. contradiction.
  - now exists entry.
Qed.

Lemma install_js_never_returns_archive_witness :
  let h := with_unpack offline_host
             (unpacking [ ("curlpit", File "ELF-curlpit-0.1.0" 420) ]) in
  fst (InstallJs.extractArchive
         (Path.join scratch "curlpit-x86_64-unknown-linux-gnu.tar.gz") scratch
         h (empty_world downloaded))
    = Returned (Path.join scratch "curlpit") /\
  Path.join scratch "curlpit"
    <> Path.join scratch "curlpit-x86_64-unknown-linux-gnu.tar.gz".
Proof.
  intros h. split; [reflexivity|].
  exact (proj1 (install_js_never_returns_archive h (empty_world downloaded)
                  scratch "curlpit-x86_64-unknown-linux-gnu.tar.gz" _ eq_refl)).
Defined.

(** ** When the scratch directory is removed *)

Lemma footprint_lift (P : Event -> bool) {A : Type} (r : result A) :
  footprint P (lift r).
Proof. intros h w. exists []. unfold lift. destruct r; now rewrite app_nil_r. Qed.

#[local] Hint Resolve footprint_lift : footprint.

Lemma footprint_locateBinary (dir : path) :
  footprint keeps_files (Extract.locateBinary dir).
Proof.
  intros h w. destruct (locateBinary_run h w dir) as (dirs & E).
  rewrite E. cbn [snd traced trace]. eexists. split; [reflexivity|].
  generalize (dir :: dirs). intros l. induction l as [|d l IH]; auto.
Qed.

#[local] Hint Resolve footprint_locateBinary : footprint.

Lemma npm_attempt_keeps_files (platform arch : string) (plan : ReleasePlan)
      (tempDir archivePath binaryDestination : path) (skipChecksum : bool)
      (tarPath : option string) :
  footprint keeps_files
    (NpmInstall.attempt platform arch plan tempDir archivePath
                        binaryDestination skipChecksum tarPath).
Proof.
  unfold NpmInstall.attempt, Download.downloadArtifact,
    Download.fetchChecksumText, Download.verifyChecksum,
    Extract.extractArchive, Extract.runCommand,
    Filesystem.ensureExecutable, Filesystem.ensureDir,
    Prim.fetch, Prim.writeFile, Prim.readFile, Prim.run_child,
    Prim.mkdir_recursive, Prim.copyFile, Prim.chmod, Prim.console_warn.
  split_footprint.
Qed.

Lemma npm_attempt_never_throws (platform arch : string) (plan : ReleasePlan)
      (tempDir archivePath binaryDestination : path) (skipChecksum : bool)
      (tarPath : option string) (h : Host) (w : World) (e : Error) :
  fst (NpmInstall.attempt platform arch plan tempDir archivePath
                          binaryDestination skipChecksum tarPath h w)
    <> Thrown e.
Proof.
  unfold NpmInstall.attempt, try_catch.
  match goal with
  | |- context [match ?b h w with _ => _ end] =>
      destruct (b h w) as [[[]|e0|c0] w0]
  end; cbn; discriminate.
Qed.

Lemma cleanup_trace (h : Host) (w : World) (p : path) :
  trace (snd (Filesystem.cleanup p h w)) = (trace w ++ [EvRm p])%list /\
  fst (Filesystem.cleanup p h w) <> Exited 1.
Proof.
  unfold Filesystem.cleanup, Prim.rm_recursive_force, Prim.emit, Prim.get_fs,
    Prim.set_fs, bind, ask, ret, throw.
  cbn [fs console trace]. destruct (rm_failure h p); cbn; split;
    (reflexivity || discriminate).
Qed.

(** X19.  On the network path the npm installer removes nothing but its own
    scratch directory, and that only as its very last effect.  Either no
    removal is requested at all and the process ends with status 1 (a
    failure of the download, the checksum, the extraction or the copy ends
    the process inside the [catch] block, before the [finally] block), or
    the effects are free of removals up to one final removal of the scratch
    directory. *)
Theorem npm_cleanup_only_after_success (h : Host) (w : World)
      (plan : ReleasePlan) :
  env_truthy (env h "CURLPIT_SKIP_POSTINSTALL") = false ->
  Release.planRelease (NpmInstall.install_context h) = Ok plan ->
  env_truthy (env h "CURLPIT_LOCAL_BINARY") = false ->
  exists events,
    trace (snd (NpmInstall.run h w)) = (trace w ++ events)%list /\
    ((forallb keeps_files events = true /\
      fst (NpmInstall.run h w) = Exited 1)
     \/
     (exists before,
        events
          = (before
             ++ [EvRm (Path.join (tmpdir h) ("curlpit-npm-" ++ temp_suffix h))])%list
        /\ forallb keeps_files before = true)).
Proof.
  intros Hskip Hplan Hlocal.
  set (tmp := Path.join (tmpdir h) ("curlpit-npm-" ++ temp_suffix h)).
  assert (Hrun : exists (platform arch : string) (dst : path) (skip : bool)
                        (tarPath : option string),
             NpmInstall.run h w =
               try_catch
                 (tempDir <- Filesystem.createTempDir "curlpit-npm-" ;;
                  try_finally
                    (NpmInstall.attempt platform arch plan tempDir
                       (Path.join tempDir (artifact (plan_target plan)))
                       dst skip tarPath)
                    (Filesystem.cleanup tempDir))
                 NpmInstall.unexpected h w).
  { do 5 eexists. unfold NpmInstall.run, try_catch, NpmInstall.main.
    erewrite bind_returned by reflexivity.
    rewrite Hskip, Hplan. cbv zeta.
    erewrite bind_returned by reflexivity.
    rewrite Hlocal. reflexivity. }
  destruct Hrun as (platform & arch & dst & skip & tarPath & Hrun).
  pose proof (exits_npm_run h w) as Hexit.
  rewrite Hrun in Hexit |- *. clear Hrun.
  assert (Hf : footprint keeps_files (Filesystem.createTempDir "curlpit-npm-"))
    by (unfold Filesystem.createTempDir, Prim.mkdtemp; split_footprint).
  destruct (Hf h w) as (ev0 & Ht0 & Hev0). clear Hf.
  unfold try_catch in Hexit |- *.
  destruct (Filesystem.createTempDir "curlpit-npm-" h w)
    as [[t|e|c] w1] eqn:Hc; cbn [snd] in Ht0.
  - rewrite (bind_returned _ _ h w w1 t Hc) in Hexit |- *.
    apply createTempDir_inv in Hc as (Ht & _). fold tmp in Ht. subst t.
    destruct (npm_attempt_keeps_files platform arch plan tmp
                (Path.join tmp (artifact (plan_target plan))) dst skip tarPath
                h w1) as (ev & Ht2 & Hev).
    pose proof (npm_attempt_never_throws platform arch plan tmp
                  (Path.join tmp (artifact (plan_target plan))) dst skip
                  tarPath h w1) as Hnt.
    unfold try_finally in Hexit |- *.
    destruct (NpmInstall.attempt platform arch plan tmp
                (Path.join tmp (artifact (plan_target plan))) dst skip tarPath
                h w1) as [[[]|e0|c0] w2]; cbn [fst snd] in Ht2, Hnt.
    + pose proof (cleanup_trace h w2 tmp) as (Ht3 & _).
      exists ((ev0 ++ ev) ++ [EvRm tmp])%list.
      assert (Hall : forallb keeps_files (ev0 ++ ev) = true)
        by now rewrite forallb_app, Hev0, Hev.
      destruct (Filesystem.cleanup tmp h w2) as [[[]|e1|c1] w3];
        cbn [fst snd] in Ht3;
        (split;
         [ try (unfold NpmInstall.unexpected, bind, ask, Prim.console_error,
                  Prim.print, exit);
           cbn [fst snd trace]; rewrite Ht3, Ht2, Ht0, <- !app_assoc;
           reflexivity
         | right; exists (ev0 ++ ev)%list; now split ]).
    + now elim (Hnt e0).
    + rewrite (Hexit c0 w2 eq_refl). exists (ev0 ++ ev)%list. cbn [fst snd].
      split; [rewrite Ht2, Ht0, <- app_assoc; reflexivity|].
      left. split; [now rewrite forallb_app, Hev0, Hev|reflexivity].
  - rewrite (bind_thrown _ _ h w w1 e Hc).
    exists ev0.
    unfold NpmInstall.unexpected, bind, ask, Prim.console_error, Prim.print,
      exit.
    cbn [fst snd trace]. split; [exact Ht0|]. left. now split.
  - rewrite (bind_exited _ _ h w w1 c Hc) in Hexit |- *.
    rewrite (Hexit c w1 eq_refl). exists ev0. cbn [fst snd].
    split; [exact Ht0|]. left. now split.
Qed.

Lemma npm_cleanup_only_after_success_witness :
  exists events,
    trace (snd (NpmInstall.run (linux_host release_payload)
                  (empty_world machine))) = events /\
    ((forallb keeps_files events = true /\
      fst (NpmInstall.run (linux_host release_payload) (empty_world machine))
        = Exited 1)
     \/
     (exists before,
        events = (before ++ [EvRm scratch])%list /\
        forallb keeps_files before = true)).
Proof.
  exact (npm_cleanup_only_after_success (linux_host release_payload)
           (empty_world machine) _ eq_refl eq_refl eq_refl).
Defined.

(** ** The stand-alone Deno installer's choice of the binary *)

Lemma readdir_run (h : Host) (w : World) (p : path) :
  Prim.readdir p h w =
    (match Fs.lookup (fs w) p with
     | None => Thrown "ENOENT"
     | Some (File _ _) => Thrown "ENOTDIR"
     | Some (Dir es) => Returned es
     end, traced w [EvReaddir p]).
Proof.
  unfold Prim.readdir, Prim.emit, Prim.get_fs, bind, ret, throw, traced.
  cbn [fs console trace]. now destruct (Fs.lookup (fs w) p) as [[c m|es]|].
Qed.

Lemma first_binary_spec (temp : path) (es : list (string * node)) (found : path) :
  DenoInstall.first_binary temp es = Some found ->
  exists name content mode,
    found = Path.join temp name /\
    In (name, File content mode) es /\
    Js.startsWith name "curlpit" = true.
Proof.
  induction es as [|[k n] es IH]; cbn [DenoInstall.first_binary];
    [discriminate|].
  destruct n as [c m|sub].
  - destruct (Js.startsWith k "curlpit") eqn:Hp.
    + intros [= <-]. exists k, c, m. repeat split; auto. now left.
    + intros H. destruct (IH H) as (name & c' & m' & E & Hin & Hp').
      exists name, c', m'. repeat split; auto. now right.
  - intros H. destruct (IH H) as (name & c' & m' & E & Hin & Hp').
    exists name, c', m'. repeat split; auto. now right.
Qed.

(** X20.  The stand-alone Deno installer looks for the binary at the top of the
    scratch directory only: the path its [extractArchive] returns is always
    a direct child of that directory, a regular file whose name begins with
    "curlpit".  It does not descend into directories of the archive. *)
Theorem deno_extractArchive_top_level_only (h : Host) (w : World)
      (archivePath temp : path) (isWindows : bool) (found : path) :
  fst (DenoInstall.extractArchive archivePath temp isWindows h w)
    = Returned found ->
  exists name content mode es,
    found = Path.join temp name /\
    Js.startsWith name "curlpit" = true /\
    Fs.lookup
      (fs (snd (DenoInstall.extractArchive archivePath temp isWindows h w)))
      temp = Some (Dir es) /\
    In (name, File content mode) es.
Proof.
  destruct (DenoInstall.extractArchive archivePath temp isWindows h w)
    as [o wf] eqn:E.
  cbn [fst snd]. intros ->. revert E.
  unfold DenoInstall.extractArchive. cbv zeta. unfold bind at 1.
  match goal with
  | |- context [match ?tool h w with _ => _ end] =>
      destruct (tool h w) as [[[]|e|c] w1]
  end; try (intros E; discriminate E).
  cbv beta. unfold bind. rewrite (readdir_run h w1 temp).
  destruct (Fs.lookup (fs w1) temp) as [[c m|es]|] eqn:Hdir;
    try (intros E; discriminate E).
  destruct (DenoInstall.first_binary temp es) as [p|] eqn:Hfirst;
    [|intros E; discriminate E].
  unfold ret. intros [= -> <-]. cbn [fs traced].
  destruct (first_binary_spec temp es found Hfirst)
    as (name & c & m & E & Hin & Hp).
  exists name, c, m, es. auto.
Qed.

Lemma deno_extractArchive_top_level_only_witness :
  exists name content mode es,
    Path.join scratch linux_archive_name = Path.join scratch name /\
    Js.startsWith name "curlpit" = true /\
    Fs.lookup
      (fs (snd (DenoInstall.extractArchive
                  (Path.join scratch linux_archive_name) scratch false
                  (linux_host release_payload) (empty_world downloaded))))
      scratch = Some (Dir es) /\
    In (name, File content mode) es.
Proof.
  exact (deno_extractArchive_top_level_only (linux_host release_payload)
           (empty_world downloaded) (Path.join scratch linux_archive_name)
           scratch false _ eq_refl).
Defined.
